(** * merked: shard splitter, Merkle tree builder and commitment DAG

    A shallow embedding of [lib/split.js], [lib/tree.js], [lib/dag.js] and
    [bin/merk.js] together with the properties of the commitment pipeline.

    Conventions of the embedding.
    - A [Buffer] is a list of bytes.
    - A JavaScript array is a list of cells; a cell is [None] where the
      array has a hole, so that [arr[i]] reads [undefined] out of range and
      [arr[i] = v] extends the array as JavaScript does.
    - A call that may throw returns a [result]; loops that the source
      writes as [while]/[for(;;)] carry fuel chosen by their caller, and
      running out of it is the outcome [OutOfFuel].
    - The services of the host (SHA-256, string to number conversion, UTF-8
      decoding, the entropy pool, the maximal buffer length) are the fields
      of the class [Runtime]. *)

From Stdlib Require Import ZArith QArith Qround String Ascii Strings.Byte DecimalString Lia.
From stdpp Require Import base numbers option list.

Local Open Scope Z_scope.

(** ** Outcomes of a call *)

Module JS.

Inductive error : Type :=
| TypeError (msg : string)
| RangeError (msg : string)
| Error (msg : string)
| AssertionError (msg : string).

Inductive result (A : Type) : Type :=
| Ok (a : A)
| Throw (e : error)
| OutOfFuel.

Arguments Ok {A} a.
Arguments Throw {A} e.
Arguments OutOfFuel {A}.

#[export] Instance result_ret : MRet result := fun A a => Ok a.

#[export] Instance result_bind : MBind result := fun A B f m =>
  match m with
  | Ok a => f a
  | Throw e => Throw e
  | OutOfFuel => OutOfFuel
  end.

#[export] Instance result_fmap : FMap result := fun A B f m =>
  match m with
  | Ok a => Ok (f a)
  | Throw e => Throw e
  | OutOfFuel => OutOfFuel
  end.

Definition is_Ok {A} (r : result A) : Prop := exists a, r = Ok a.

Definition throws {A} (r : result A) : Prop := exists e, r = Throw e.

(** ** Numbers

    A JavaScript number is a double.  The finite doubles are rationals, and
    the only operations the sources apply to a size are comparison with an
    integer constant and [Math.floor], both exact on doubles; so a finite
    number is carried as the rational it denotes. *)

Inductive number : Type :=
| NaN
| PosInf
| NegInf
| Fin (q : Q).

Definition num_of_Z (z : Z) : number := Fin (inject_Z z).

(** [a <= b] and [a < b] on numbers; any comparison with [NaN] is false. *)
Definition num_le (a b : number) : bool :=
  match a, b with
  | NaN, _ | _, NaN => false
  | NegInf, _ => true
  | _, PosInf => true
  | PosInf, _ => false
  | _, NegInf => false
  | Fin x, Fin y => Qle_bool x y
  end.

Definition num_lt (a b : number) : bool :=
  match a, b with
  | NaN, _ | _, NaN => false
  | PosInf, _ => false
  | _, NegInf => false
  | NegInf, _ => true
  | _, PosInf => true
  | Fin x, Fin y => negb (Qle_bool y x)
  end.

(** [Math.floor] on the finite numbers (it is only reached behind
    [isSafe], which rejects [NaN] and the infinities).  The result is an
    integer and is kept as one. *)
Definition Math_floor (x : number) : Z :=
  match x with
  | Fin q => Qfloor q
  | _ => 0
  end.

Definition MAX_SAFE_INTEGER : Z := 2 ^ 53 - 1.
Definition MIN_SAFE_INTEGER : Z := - (2 ^ 53 - 1).

(** ** Values of the documented argument type [(number|string)] *)

Inductive jsval : Type :=
| VNumber (x : number)
| VString (s : string).

(** ** Buffers *)

Definition Buffer : Type := list byte.

(** ** Arrays *)

Abbreviation array A := (list (option A)).

Section arrays.
Context {A : Type}.

(** [arr[i]]: [None] is [undefined]. *)
Definition aget (arr : array A) (i : nat) : option A := mjoin (arr !! i).

(** [arr[i] = v]: inside the array the cell is replaced, at or beyond its
    end the array grows up to index [i], leaving holes in between. *)
Definition aset (arr : array A) (i : nat) (v : option A) : array A :=
  if decide (i < length arr)%nat then <[i := v]> arr
  else arr ++ replicate (i - length arr) None ++ [v].

(** [arr.push(v)]. *)
Definition apush (arr : array A) (v : A) : array A := arr ++ [Some v].

(** An array without holes, from the list of its elements. *)
Definition dense (l : list A) : array A := Some <$> l.

End arrays.

(** ** The host

    What the sources take from Node.js and cannot be read off the
    repository: the default digest, the coercions between strings and
    numbers, the UTF-8 decoder behind [Buffer.prototype.toString], the
    entropy pool behind [getRandomValues] (byte [j] of the [i]-th draw) and
    [buffer.constants.MAX_LENGTH]. *)

Class Runtime : Type := {
  sha256 : Buffer -> Buffer;
  StringToNumber : string -> number;
  NumberToString : number -> string;
  Buffer_toString : Buffer -> string;
  entropy : nat -> nat -> byte;
  kMaxLength : Z
}.

Section coercions.
Context {rt : Runtime}.

Definition ToNumber (v : jsval) : number :=
  match v with
  | VNumber x => x
  | VString s => StringToNumber s
  end.

Definition ToString (v : jsval) : string :=
  match v with
  | VNumber x => NumberToString x
  | VString s => s
  end.

(** The global [isNaN]. *)
Definition isNaN (v : jsval) : bool :=
  match ToNumber v with
  | NaN => true
  | _ => false
  end.

(** [a < b] between a value and a number. *)
Definition js_lt (a : jsval) (b : number) : bool := num_lt (ToNumber a) b.

End coercions.

(** ** Buffer primitives *)

Definition ERR_INVALID_ARG_TYPE : string := "ERR_INVALID_ARG_TYPE".
Definition ERR_INVALID_ARG_VALUE : string := "ERR_INVALID_ARG_VALUE".
Definition ERR_OUT_OF_RANGE : string := "ERR_OUT_OF_RANGE".

(** [Buffer.alloc(size)]: a zero-filled buffer.  A size that is not a
    number is a type error, one outside [0 .. kMaxLength] (or [NaN]) a range
    error; a fractional size is truncated by the typed-array constructor. *)
Definition Buffer_alloc {rt : Runtime} (size : jsval) : result Buffer :=
  match size with
  | VString _ => Throw (TypeError ERR_INVALID_ARG_TYPE)
  | VNumber x =>
      if num_le (num_of_Z 0) x && num_le x (num_of_Z kMaxLength)
      then Ok (replicate (Z.to_nat (Math_floor x)) x00)
      else Throw (RangeError ERR_OUT_OF_RANGE)
  end.

(** [Buffer.concat(list)]: every element must be a buffer. *)
Fixpoint Buffer_concat (list : array Buffer) : result Buffer :=
  match list with
  | [] => Ok []
  | None :: _ => Throw (TypeError ERR_INVALID_ARG_TYPE)
  | Some b :: rest => tl ← Buffer_concat rest; Ok (b ++ tl)
  end.

(** An index argument of [slice], relative to the end when negative and
    clamped to the buffer. *)
Definition clamp_index (len : nat) (i : Z) : nat :=
  if i <? 0 then Z.to_nat (Z.max (Z.of_nat len + i) 0)
  else Z.to_nat (Z.min i (Z.of_nat len)).

(** [buf.slice(start)] and [buf.slice(start, end)]. *)
Definition Buffer_slice (buf : Buffer) (start : Z) (end_ : option Z) : Buffer :=
  let s := clamp_index (length buf) start in
  let e := match end_ with
           | None => length buf
           | Some e => clamp_index (length buf) e
           end in
  take (e - s) (drop s buf).

(** The offset argument of [fill]: it must be a number ([validateOffset]),
    integral and not negative. *)
Definition validateOffset (v : jsval) : result nat :=
  match v with
  | VString _ => Throw (TypeError ERR_INVALID_ARG_TYPE)
  | VNumber (Fin q) =>
      if Qeq_bool (inject_Z (Qfloor q)) q && (0 <=? Qfloor q)
      then Ok (Z.to_nat (Qfloor q))
      else Throw (RangeError ERR_OUT_OF_RANGE)
  | VNumber _ => Throw (RangeError ERR_OUT_OF_RANGE)
  end.

Definition fill_start (offset : option jsval) : result nat :=
  match offset with
  | None => Ok 0%nat
  | Some v => validateOffset v
  end.

(** [n] bytes made of [value] repeated. *)
Definition cyclic (value : Buffer) (n : nat) : Buffer :=
  take n (mjoin (replicate n value)).

(** [buf.fill(value, offset)] for a buffer [value]: the bytes from [offset]
    to the end become [value] repeated; an offset at or beyond the end
    leaves the buffer as it is, and an empty [value] cannot fill a
    non-empty range. *)
Definition Buffer_fill (buf value : Buffer) (offset : option jsval) : result Buffer :=
  off ← fill_start offset;
  if decide (length buf <= off)%nat then Ok buf
  else match value with
       | [] => Throw (TypeError ERR_INVALID_ARG_VALUE)
       | _ => Ok (take off buf ++ cyclic value (length buf - off))
       end.

(** [buf.fill(b, offset)] for a byte [b]. *)
Definition Buffer_fill_byte (buf : Buffer) (b : byte) (offset : option jsval) : result Buffer :=
  off ← fill_start offset;
  if decide (length buf <= off)%nat then Ok buf
  else Ok (take off buf ++ replicate (length buf - off) b).

(** [getRandomValues(buf)]: the next draw of the pool, as long as [buf];
    the state counts the draws. *)
Definition getRandomValues {rt : Runtime} (buf : Buffer) (draws : nat) : Buffer * nat :=
  (entropy draws <$> seq 0 (length buf), S draws).

(** ** Hexadecimal and JSON output *)

Definition hex_digit (n : N) : ascii :=
  if (n <? 10)%N then ascii_of_N (48 + n) else ascii_of_N (87 + n).

Definition hex_byte (b : byte) : string :=
  String (hex_digit (Byte.to_N b / 16)) (String (hex_digit (Byte.to_N b mod 16)) EmptyString).

(** [buf.toString('hex')]. *)
Definition Buffer_toHex (buf : Buffer) : string :=
  foldr (fun b acc => String.append (hex_byte b) acc) EmptyString buf.

#[local] Unset Elimination Schemes.
Inductive json : Type :=
| JString (s : string)
| JNumber (z : Z)
| JArray (items : list json)
| JObject (members : list (string * json)).
#[local] Set Elimination Schemes.

Definition char_quote : ascii := ascii_of_nat 34.
Definition char_backslash : ascii := ascii_of_nat 92.

Definition str1 (c : ascii) : string := String c EmptyString.

Definition json_escape (c : ascii) : string :=
  let n := N_of_ascii c in
  if (n =? 34)%N then String char_backslash (str1 char_quote)
  else if (n =? 92)%N then String char_backslash (str1 char_backslash)
  else if (n =? 8)%N then String char_backslash "b"
  else if (n =? 12)%N then String char_backslash "f"
  else if (n =? 10)%N then String char_backslash "n"
  else if (n =? 13)%N then String char_backslash "r"
  else if (n =? 9)%N then String char_backslash "t"
  else if (n <? 32)%N
       then String char_backslash
              (String.append "u00" (String (hex_digit (n / 16)) (str1 (hex_digit (n mod 16)))))
  else str1 c.

Fixpoint json_escape_all (s : string) : string :=
  match s with
  | EmptyString => EmptyString
  | String c rest => String.append (json_escape c) (json_escape_all rest)
  end.

Definition json_quote (s : string) : string :=
  String char_quote (String.append (json_escape_all s) (str1 char_quote)).

(** An integer in decimal, as [JSON.stringify] prints one below [1e21]. *)
Definition json_number (z : Z) : string := NilZero.string_of_int (Z.to_int z).

Fixpoint JSON_stringify (j : json) : string :=
  match j with
  | JString s => json_quote s
  | JNumber z => json_number z
  | JArray items =>
      String.append "[" (String.append (String.concat "," (map JSON_stringify items)) "]")
  | JObject members =>
      String.append "{"
        (String.append
           (String.concat ","
              (map (fun kv => String.append (json_quote (fst kv))
                                (String.append ":" (JSON_stringify (snd kv)))) members))
           "}")
  end.

End JS.

Import JS.

(** ** lib/split.js *)

Module Split.

(** The three ways of splitting.  A key is [None] when it is absent,
    [undefined] or [null] ([isDefined]).  The keys of the file-emitting mode
    ([prefix], [suffix_length], [numeric_suffixes], [additional_suffix])
    are left out: the pipeline never passes them, and without [prefix]
    neither [checkOptions] nor [createFilenames] reads or rejects
    anything else. *)
Record options_of (V : Type) : Type := {
  lines : option V;
  bytes : option V;
  line_bytes : option V
}.

Arguments lines {V} o.
Arguments bytes {V} o.
Arguments line_bytes {V} o.

(** What the caller passes, and what [checkOptions] returns. *)
Definition raw_options : Type := options_of jsval.
Definition options : Type := options_of Z.

Inductive options_arg : Type :=
| NotAnObject
| Object (o : raw_options).

Definition isDefined {V} (field : option V) : bool :=
  match field with
  | Some _ => true
  | None => false
  end.

Definition isSafe {rt : Runtime} (v : jsval) : bool :=
  num_le (num_of_Z MIN_SAFE_INTEGER) (ToNumber v)
  && num_le (ToNumber v) (num_of_Z MAX_SAFE_INTEGER).

(** *** The size shorthand [/^(\d+)(KB|MB|K|M)$/i] *)

Definition is_digit (c : ascii) : bool :=
  let n := N_of_ascii c in ((48 <=? n) && (n <=? 57))%N.

Definition to_lower (c : ascii) : ascii :=
  let n := N_of_ascii c in
  if ((65 <=? n) && (n <=? 90))%N then ascii_of_N (n + 32) else c.

Fixpoint lower (s : string) : string :=
  match s with
  | EmptyString => EmptyString
  | String c rest => String (to_lower c) (lower rest)
  end.

(** The longest prefix of digits, and what follows it. *)
Fixpoint span_digits (s : string) : string * string :=
  match s with
  | EmptyString => (EmptyString, EmptyString)
  | String c rest =>
      if is_digit c
      then let '(d, r) := span_digits rest in (String c d, r)
      else (EmptyString, s)
  end.

(** [exec]: the two capture groups, when the whole string matches. *)
Definition shorthand (s : string) : option (string * string) :=
  let '(digits, unit) := span_digits s in
  match digits with
  | EmptyString => None
  | _ =>
      let u := lower unit in
      if String.eqb u "kb" || String.eqb u "mb" || String.eqb u "k" || String.eqb u "m"
      then Some (digits, unit)
      else None
  end.

(** The [switch] on the second group; a unit in mixed case matches the
    expression but none of the cases, and the function returns
    [undefined]. *)
Definition unit_factor (unit : string) : option Z :=
  if String.eqb unit "k" || String.eqb unit "K" then Some 1024
  else if String.eqb unit "m" || String.eqb unit "M" then Some 1048576
  else if String.eqb unit "kb" || String.eqb unit "KB" then Some 1000
  else if String.eqb unit "mb" || String.eqb unit "MB" then Some 1000000
  else None.

(** The number a string of digits denotes. *)
Definition decimal_value (digits : string) : Z :=
  let fix go (acc : Z) (s : string) : Z :=
    match s with
    | EmptyString => acc
    | String c rest => go (10 * acc + (Z.of_N (N_of_ascii c) - 48)) rest
    end in
  go 0 digits.

(** [result[1] * unit].  The product of a digit string and a unit is the
    double nearest to the exact product.  Rounding is monotone and every
    integer up to [2^53] is a double, so the product passes [isSafe]
    exactly when the exact product does, and is then equal to it. *)
Definition shorthand_product (digits unit : string) : number :=
  match unit_factor unit with
  | Some u => num_of_Z (decimal_value digits * u)
  | None => NaN
  end.

Section check.
Context {rt : Runtime}.

(** [exec(size)] behind [isNaN(size)]: a number arrives here only as
    [NaN], whose string matches nothing. *)
Definition exec_shorthand (size : jsval) : option (string * string) :=
  match size with
  | VString s => shorthand s
  | VNumber _ => None
  end.

Definition check_lines (o : raw_options) : result (option Z) :=
  match lines o with
  | Some l =>
      if isNaN l || negb (isSafe l) || js_lt l (num_of_Z 1)
      then Throw (Error "Invalid number of lines")
      else Ok (Some (Math_floor (ToNumber l)))
  | None => Ok None
  end.

Definition check_size (size : jsval) : result Z :=
  if isNaN size then
    match exec_shorthand size with
    | None => Throw (Error "Invalid number of bytes")
    | Some (digits, unit) =>
        let product := shorthand_product digits unit in
        if negb (isSafe (VNumber product))
        then Throw (Error "Invalid number of bytes")
        else Ok (Math_floor product)
    end
  else
    if negb (isSafe size) || js_lt size (num_of_Z 1)
    then Throw (Error "Invalid number of bytes")
    else Ok (Math_floor (ToNumber size)).

Definition checkOptions (_options : options_arg) : result options :=
  match _options with
  | NotAnObject => Throw (TypeError "Options must be an object")
  | Object o =>
      let byLines := isDefined (lines o) in
      let byBytes := isDefined (bytes o) in
      let byLineBytes := isDefined (line_bytes o) in
      if (byLines && byBytes) || (byBytes && byLineBytes) || (byLines && byLineBytes)
      then Throw (Error "Cannot split in more than one way")
      else if negb byLines && negb byBytes && negb byLineBytes
      then Throw (Error "Splitting way is not specified")
      else
        checked_lines ← check_lines o;
        match (if byBytes then bytes o else line_bytes o) with
        | Some size =>
            n ← check_size size;
            if byBytes
            then Ok {| lines := checked_lines; bytes := Some n; line_bytes := None |}
            else Ok {| lines := checked_lines; bytes := None; line_bytes := Some n |}
        | None => Ok {| lines := checked_lines; bytes := None; line_bytes := None |}
        end
  end.

End check.

(** *** Splitting *)

Definition LF : byte := x0a.

(** [buffer[index] === LF]; the read is [undefined] at the end. *)
Definition is_LF (cell : option byte) : bool :=
  match cell with
  | Some b => Byte.eqb b LF
  | None => false
  end.

Fixpoint splitByLines_loop (fuel : nat) (buffer : Buffer) (lines_ : Z)
    (begin index : nat) (lineCount : Z) (splitted : list Buffer) : result (list Buffer) :=
  match fuel with
  | O => OutOfFuel
  | S fuel' =>
      if decide (begin = length buffer) then Ok splitted
      else if decide (length buffer < index)%nat
      then Ok (splitted ++ [Buffer_slice buffer (Z.of_nat begin) None])
      else if is_LF (buffer !! index) then
        if lineCount =? lines_
        then splitByLines_loop fuel' buffer lines_ (index + 1) (S index) 1
               (splitted ++ [Buffer_slice buffer (Z.of_nat begin) (Some (Z.of_nat index + 1))])
        else splitByLines_loop fuel' buffer lines_ begin (S index) (lineCount + 1) splitted
      else splitByLines_loop fuel' buffer lines_ begin (S index) lineCount splitted
  end.

(** The index passes each position once and the end once more. *)
Definition splitByLines (buffer : Buffer) (lines_ : Z) : result (list Buffer) :=
  splitByLines_loop (length buffer + 2) buffer lines_ 0 0 1 [].

(** [for (let begin = 0, end = size; ; begin = end, end += size)]. *)
Fixpoint splitByBytes_loop (fuel : nat) (buffer : Buffer) (size begin end_ : Z)
    (splitted : list Buffer) : result (list Buffer) :=
  match fuel with
  | O => OutOfFuel
  | S fuel' =>
      if begin =? Z.of_nat (length buffer) then Ok splitted
      else if Z.of_nat (length buffer) <? end_
      then Ok (splitted ++ [Buffer_slice buffer begin None])
      else splitByBytes_loop fuel' buffer size end_ (end_ + size)
             (splitted ++ [Buffer_slice buffer begin (Some end_)])
  end.

(** With a size of at least one the loop makes at most one pass per byte
    and a last one that leaves it. *)
Definition splitByBytes (buffer : Buffer) (size : Z) : result (list Buffer) :=
  splitByBytes_loop (length buffer + 1) buffer size 0 size [].

Fixpoint split_each_line (lines_ : list Buffer) (size : Z) : result (list Buffer) :=
  match lines_ with
  | [] => Ok []
  | line :: rest =>
      pieces ← splitByBytes line size;
      others ← split_each_line rest size;
      Ok (pieces ++ others)
  end.

Definition _split (buffer : Buffer) (o : options) : result (list Buffer) :=
  match lines o with
  | Some n => splitByLines buffer n
  | None =>
      match bytes o with
      | Some n => splitByBytes buffer n
      | None =>
          match line_bytes o with
          | Some n => ls ← splitByLines buffer 1; split_each_line ls n
          | None =>
              (* [options.line_bytes] is [undefined]: every comparison of the
                 byte loop with [NaN] fails and it never ends on a line *)
              ls ← splitByLines buffer 1;
              match ls with [] => Ok [] | _ => OutOfFuel end
          end
      end
  end.

(** [splitSync].  [createFilenames] is called on every path, but without a
    prefix none of its checks can fail and its names are not used; no file
    is written. *)
Definition splitSync {rt : Runtime} (buffer : Buffer) (o : options_arg) : result (list Buffer) :=
  checked ← checkOptions o;
  _split buffer checked.

End Split.

(** ** lib/tree.js *)

Module Tree.

(** The [hasher] argument: a falsy value (such as [undefined]), a function,
    or some other value. *)
Inductive hasher_arg : Type :=
| HashFalsy
| HashFunction (f : Buffer -> Buffer)
| HashNotCallable.

(** The [leaves] argument: an array of buffers, or something that is not an
    array. *)
Inductive leaves_arg : Type :=
| LeavesNotArray
| LeavesArray (leaves : list Buffer).

Record MerkleTree : Type := {
  _hasher : hasher_arg;
  _leaves : array Buffer;
  _depth : nat;
  _rows : array (array Buffer);
  _count : nat
}.

Definition set_leaves (t : MerkleTree) (l : array Buffer) : MerkleTree :=
  {| _hasher := _hasher t; _leaves := l; _depth := _depth t;
     _rows := _rows t; _count := _count t |}.

Definition set_depth (t : MerkleTree) (d : nat) : MerkleTree :=
  {| _hasher := _hasher t; _leaves := _leaves t; _depth := d;
     _rows := _rows t; _count := _count t |}.

Definition set_rows (t : MerkleTree) (r : array (array Buffer)) : MerkleTree :=
  {| _hasher := _hasher t; _leaves := _leaves t; _depth := _depth t;
     _rows := r; _count := _count t |}.

Definition set_count (t : MerkleTree) (c : nat) : MerkleTree :=
  {| _hasher := _hasher t; _leaves := _leaves t; _depth := _depth t;
     _rows := _rows t; _count := c |}.

(** [DEFAULT_HASH_FUNC]. *)
Definition DEFAULT_HASH_FUNC {rt : Runtime} : hasher_arg := HashFunction sha256.

(** [a || b] on hashers. *)
Definition hasher_or (a b : hasher_arg) : hasher_arg :=
  match a with
  | HashFalsy => b
  | _ => a
  end.

(** [this._hasher(input)]. *)
Definition call_hasher (h : hasher_arg) (input : Buffer) : result Buffer :=
  match h with
  | HashFunction f => Ok (f input)
  | _ => Throw (TypeError "hasher is not a function")
  end.

(** [while (Math.pow(2, pow) < this._leaves.length) pow++]. *)
Fixpoint depth_loop (fuel : nat) (pow : nat) (len : nat) : result nat :=
  if 2 ^ Z.of_nat pow <? Z.of_nat len then
    match fuel with
    | O => OutOfFuel
    | S fuel' => depth_loop fuel' (S pow) len
    end
  else Ok pow.

(** [depth()]: computed while [_depth] is [0], then remembered. *)
Definition depth (t : MerkleTree) : result (nat * MerkleTree) :=
  if decide (_depth t = 0%nat) then
    pow ← depth_loop (length (_leaves t)) 0 (length (_leaves t));
    Ok (pow, set_depth t pow)
  else Ok (_depth t, t).

Definition levels (t : MerkleTree) : result (nat * MerkleTree) :=
  '(d, t') ← depth t; Ok (S d, t').

Definition nodes (t : MerkleTree) : nat := _count t.

(** [root()]: [this._rows[0][0]]. *)
Definition root (t : MerkleTree) : result (option Buffer) :=
  match aget (_rows t) 0 with
  | Some row => Ok (aget row 0)
  | None => Throw (TypeError "Cannot read properties of undefined")
  end.

Definition level (t : MerkleTree) (l : nat) : option (array Buffer) := aget (_rows t) l.

Definition _feed (t : MerkleTree) (data : option Buffer) : MerkleTree :=
  set_leaves t (_leaves t ++ [data]).

(** The [for] loop of [_getNodes]; [i] stays even, so [i / 2] is an
    index. *)
Fixpoint _getNodes_loop (fuel : nat) (h : hasher_arg) (leaves : array Buffer)
    (i : nat) (nodes_ : array Buffer) : result (array Buffer) :=
  if Z.of_nat i <? Z.of_nat (length leaves) - 1 then
    match fuel with
    | O => OutOfFuel
    | S fuel' =>
        pair ← Buffer_concat [aget leaves i; aget leaves (i + 1)];
        node ← call_hasher h pair;
        _getNodes_loop fuel' h leaves (i + 2) (aset nodes_ (i / 2) (Some node))
    end
  else Ok nodes_.

Definition _getNodes (t : MerkleTree) (leaves : array Buffer) : result (array Buffer) :=
  let remainder := (length leaves mod 2)%nat in
  nodes_ ← _getNodes_loop (length leaves) (_hasher t) leaves 0 [];
  if decide (remainder = 1%nat)
  then Ok (aset nodes_ ((length leaves - remainder) / 2) (aget leaves (length leaves - 1)))
  else Ok nodes_.

(** [for (var i = 0; i < depth; i++) this._rows.push([])]. *)
Fixpoint push_rows (n : nat) (rows : array (array Buffer)) : array (array Buffer) :=
  match n with
  | O => rows
  | S n' => push_rows n' (apush rows [])
  end.

(** [for (var j = depth - 1; j >= 0; j--)], with [j1 = j + 1]. *)
Fixpoint compute_rows (j1 : nat) (t : MerkleTree) : result MerkleTree :=
  match j1 with
  | O => Ok t
  | S j =>
      match aget (_rows t) (j + 1) with
      | None => Throw (TypeError "Cannot read properties of undefined")
      | Some below =>
          row ← _getNodes t below;
          let t1 := set_rows t (aset (_rows t) j (Some row)) in
          compute_rows j (set_count t1 (_count t1 + length row))
      end
  end.

Definition _compute (t : MerkleTree) : result MerkleTree :=
  '(d, t) ← depth t;
  if decide (length (_rows t) = 0%nat) then
    let t := set_rows t (push_rows d (_rows t)) in
    let t := set_rows t (aset (_rows t) d (Some (_leaves t))) in
    compute_rows d t
  else Ok t.

Definition assert (cond : bool) (msg : string) : result unit :=
  if cond then Ok tt else Throw (AssertionError msg).

Definition is_array (l : leaves_arg) : bool :=
  match l with
  | LeavesArray _ => true
  | LeavesNotArray => false
  end.

Definition is_function (h : hasher_arg) : bool :=
  match h with
  | HashFunction _ => true
  | _ => false
  end.

(** [new MerkleTree(leaves, hasher)]. *)
Definition new {rt : Runtime} (leaves : leaves_arg) (hasher : hasher_arg) : result MerkleTree :=
  let t := {| _hasher := hasher_or hasher DEFAULT_HASH_FUNC; _leaves := [];
              _depth := 0; _rows := []; _count := 0 |} in
  _ ← assert (is_array leaves) "Invalid leaves array supplied";
  _ ← assert (is_function (_hasher t)) "Invalid hash function supplied";
  match leaves with
  | LeavesNotArray => Ok t
  | LeavesArray l => _compute (foldl (fun t leaf => _feed t (Some leaf)) t l)
  end.

End Tree.

(** ** lib/dag.js *)

Module Dag.

Import Tree.

Record Options : Type := {
  opts_sliceIndex : option Z;
  opts_hashFunc : hasher_arg
}.

Record DAG : Type := {
  shards : list Buffer;
  leaves : list Buffer;
  merkle : MerkleTree;
  entries : list (option Buffer * option Buffer);
  sliceIndex : Z
}.

Definition byteLength (shards_ : list Buffer) : Z :=
  foldl (fun acc s => acc + Z.of_nat (length s)) 0 shards_.

(** [DAG.DEFAULT_OPTS(shards)]. *)
Definition DEFAULT_OPTS {rt : Runtime} (shards_ : list Buffer) : Options :=
  {| opts_sliceIndex := Some (byteLength shards_); opts_hashFunc := DEFAULT_HASH_FUNC |}.

(** [shards.map(f)]: a type error unless [f] is callable. *)
Definition map_hasher (h : hasher_arg) (shards_ : list Buffer) : result (list Buffer) :=
  match h with
  | HashFunction f => Ok (f <$> shards_)
  | _ => Throw (TypeError "not a function")
  end.

(** The first loop over [entries]; the second one runs to
    [this.merkle.length], which is [undefined], and makes no pass. *)
Definition make_entries (leaves_ shards_ : list Buffer) : list (option Buffer * option Buffer) :=
  (fun i => (leaves_ !! i, shards_ !! i)) <$> seq 0 (length shards_).

(** [new DAG(shards, opts)]. *)
Definition new {rt : Runtime} (shards_ : list Buffer) (opts : Options) : result DAG :=
  let defaults := DEFAULT_OPTS shards_ in
  let h := hasher_or (opts_hashFunc opts) (opts_hashFunc defaults) in
  leaves_ ← map_hasher h shards_;
  tree ← Tree.new (LeavesArray leaves_) h;
  Ok {| shards := shards_;
        leaves := leaves_;
        merkle := tree;
        entries := make_entries leaves_ shards_;
        sliceIndex := match opts_sliceIndex opts with
                      | None => default 0 (opts_sliceIndex defaults)
                      | Some i => i
                      end |}.

Definition toArray (d : DAG) : list Buffer := shards d.

(** [name || 'blob']: an absent or empty name is falsy. *)
Definition name_or_blob (name : option string) : string :=
  match name with
  | Some (String c rest) => String c rest
  | _ => "blob"
  end.

(** The object [toMetadata] serialises. *)
Definition metadata_object (n : string) (leaves_ : list Buffer) (r : Buffer) (s : Z) : json :=
  JObject [("n", JString n);
           ("l", JArray ((fun l => JString (Buffer_toHex l)) <$> leaves_));
           ("r", JString (Buffer_toHex r));
           ("s", JNumber s)]%string.

(** [toMetadata(name)]. *)
Definition toMetadata (d : DAG) (name : option string) : result string :=
  r ← Tree.root (merkle d);
  match r with
  | None => Throw (TypeError "Cannot read properties of undefined (reading 'toString')")
  | Some root_ => Ok (JSON_stringify (metadata_object (name_or_blob name) (leaves d) root_ (sliceIndex d)))
  end.

Definition DEFAULT_INPUT_SIZE : jsval := VString "4M".

Section random.
Context {rt : Runtime}.

(** [offset += buf.fill(...)]: [fill] returns the buffer, so the sum is the
    concatenation of the offset and of the decoded buffer, a string. *)
Definition js_add (offset : jsval) (buf : Buffer) : jsval :=
  VString (String.append (ToString offset) (Buffer_toString buf)).

Definition max : Z := 65536.

(** [while (offset < numBytes)]. *)
Fixpoint randomFill_loop (fuel : nat) (numBytes : nat) (buf : Buffer) (offset : jsval)
    (draws : nat) : result (Buffer * nat) :=
  if js_lt offset (num_of_Z (Z.of_nat numBytes)) then
    match fuel with
    | O => OutOfFuel
    | S fuel' =>
        pool ← Buffer_alloc (VNumber (num_of_Z max));
        let '(block, draws') := getRandomValues pool draws in
        buf' ← Buffer_fill buf block (Some offset);
        randomFill_loop fuel' numBytes buf' (js_add offset buf') draws'
    end
  else Ok (buf, draws).

(** [DAG.randomFill(numBytes)].  After the first pass the offset is a
    string, which [fill] refuses; two passes is all the loop can make. *)
Definition randomFill (numBytes : nat) (draws : nat) : result (Buffer * nat) :=
  buf ← Buffer_alloc (VNumber (num_of_Z (Z.of_nat numBytes)));
  randomFill_loop 2 numBytes buf (VNumber (num_of_Z 0)) draws.

(** The function [fromBuffer] maps over the pieces. *)
Definition pad (sliceSize : jsval) (randomFill_ : bool) (s : Buffer) (draws : nat)
  : result (Buffer * nat) :=
  bufN ← Buffer_alloc sliceSize;
  bufN ← Buffer_fill bufN s None;
  if randomFill_ && bool_decide (length s < length bufN)%nat then
    '(noise, draws') ← randomFill (length bufN - length s) draws;
    bufN ← Buffer_fill bufN noise (Some (VNumber (num_of_Z (Z.of_nat (length s)))));
    Ok (bufN, draws')
  else
    bufN ← Buffer_fill_byte bufN x00 (Some (VNumber (num_of_Z (Z.of_nat (length s)))));
    Ok (bufN, draws).

Fixpoint map_pad (sliceSize : jsval) (randomFill_ : bool) (pieces : list Buffer) (draws : nat)
  : result (list Buffer * nat) :=
  match pieces with
  | [] => Ok ([], draws)
  | s :: rest =>
      '(bufN, draws1) ← pad sliceSize randomFill_ s draws;
      '(others, draws2) ← map_pad sliceSize randomFill_ rest draws1;
      Ok (bufN :: others, draws2)
  end.

(** [DAG.fromBuffer(buffer, sliceSize, hashFunc, padLastSlice, randomFill)];
    an absent [sliceSize] is [None].  [padLastSlice] is not read. *)
Definition fromBuffer (buffer : Buffer) (sliceSize : option jsval) (hashFunc : hasher_arg)
    (padLastSlice randomFill_ : bool) (draws : nat) : result (DAG * nat) :=
  let sliceSize := default DEFAULT_INPUT_SIZE sliceSize in
  let hashFunc := hasher_or hashFunc DEFAULT_HASH_FUNC in
  pieces ← Split.splitSync buffer
             (Split.Object {| Split.lines := None; Split.bytes := Some sliceSize;
                              Split.line_bytes := None |});
  '(shards_, draws') ← map_pad sliceSize randomFill_ pieces draws;
  d ← new shards_ {| opts_sliceIndex := Some (Z.of_nat (length buffer));
                     opts_hashFunc := hashFunc |};
  Ok (d, draws').

End random.

End Dag.

(** ** lib/split.js: the file-emitting mode

    [checkOptions], [createFilenames], [splitSync] and [split] with the keys
    [prefix], [suffix_length], [numeric_suffixes] and [additional_suffix].
    A string that the code assembles from characters is a list of
    characters until it is joined to the prefix.  The calls to
    [fs.writeFileSync] are the list of names and contents they are given, in
    order; failures of the file system are left out. *)

Module Files.

Record raw_options : Type := {
  modes : Split.raw_options;
  prefix : option jsval;
  suffix_length : option jsval;
  numeric_suffixes : option jsval;
  additional_suffix : option jsval
}.

(** The object [checkOptions] returns: the three keys behind [prefix] are
    only copied when [prefix] is defined. *)
Record options : Type := {
  checked_modes : Split.options;
  opt_prefix : option string;
  opt_suffix_length : option Z;
  opt_numeric_suffixes : option Z;
  opt_additional_suffix : option string
}.

Inductive options_arg : Type :=
| NotAnObject
| Object (o : raw_options).

Section files.
Context {rt : Runtime}.

Definition check_suffix_length (o : raw_options) : result (option Z) :=
  match suffix_length o with
  | Some v =>
      if negb (Split.isSafe v) || js_lt v (num_of_Z 1)
      then Throw (Error "Invalid suffix length")
      else Ok (Some (Math_floor (ToNumber v)))
  | None => Ok None
  end.

Definition check_numeric_suffixes (o : raw_options) : result (option Z) :=
  match numeric_suffixes o with
  | Some v =>
      if negb (Split.isSafe v) || js_lt v (num_of_Z 0)
      then Throw (Error EmptyString)
      else Ok (Some (Math_floor (ToNumber v)))
  | None => Ok None
  end.

(** [checkOptions], all of it: the ways of splitting first, then the keys
    of the file names. *)
Definition checkOptions (_options : options_arg) : result options :=
  match _options with
  | NotAnObject => Throw (TypeError "Options must be an object")
  | Object o =>
      m ← Split.checkOptions (Split.Object (modes o));
      match prefix o with
      | Some p =>
          checked_length ← check_suffix_length o;
          checked_start ← check_numeric_suffixes o;
          Ok {| checked_modes := m;
                opt_prefix := Some (ToString p);
                opt_suffix_length := checked_length;
                opt_numeric_suffixes := checked_start;
                opt_additional_suffix :=
                  Some (match additional_suffix o with
                        | Some a => ToString a
                        | None => EmptyString
                        end) |}
      | None =>
          Ok {| checked_modes := m;
                opt_prefix := None;
                opt_suffix_length := None;
                opt_numeric_suffixes := None;
                opt_additional_suffix := None |}
      end
  end.

(** [for (; length = Math.floor(length / symbolLength); ++count) {}]. *)
Fixpoint getSuffixLength_loop (fuel length_ symbolLength count : nat) : result nat :=
  match fuel with
  | O => OutOfFuel
  | S fuel' =>
      let length' := (length_ / symbolLength)%nat in
      if (length' =? 0)%nat then Ok count
      else getSuffixLength_loop fuel' length' symbolLength (S count)
  end.

(** With a symbol length of two or more the length decreases at each pass. *)
Definition getSuffixLength (length_ symbolLength : nat) : result nat :=
  getSuffixLength_loop (S length_) length_ symbolLength 0.

(** [replicate(length, value)]: [new Array(length)] refuses a length that is
    not an array length. *)
Definition replicate (length_ : Z) (value : ascii) : result (list ascii) :=
  if (length_ <? 0) || (2 ^ 32 - 1 <? length_)
  then Throw (RangeError "Invalid array length")
  else Ok (list.replicate (Z.to_nat length_) value).

(** [s.slice(start)] on a string. *)
Definition String_slice (s : list ascii) (start : Z) : list ascii :=
  drop (clamp_index (length s) start) s.

(** A key of the options in a concatenation. *)
Definition or_undefined (s : option string) : string := default "undefined"%string s.

Definition filename (o : options) (suffix : list ascii) : string :=
  String.append (or_undefined (opt_prefix o))
    (String.append (string_of_list_ascii suffix) (or_undefined (opt_additional_suffix o))).

Definition alphabet : string := "abcdefghijklmnopqrstuvwxyz".

(** [for (let n = i; n > 0; n = Math.floor(n / alphabet.length))
      suffix.push(alphabet[n % alphabet.length])]. *)
Fixpoint suffix_loop (fuel n : nat) (suffix : array ascii) : result (array ascii) :=
  if (n =? 0)%nat then Ok suffix
  else
    match fuel with
    | O => OutOfFuel
    | S fuel' =>
        suffix_loop fuel' (n / String.length alphabet)
          (suffix ++ [String.get (n mod String.length alphabet) alphabet])
    end.

(** [join('')] of an array of characters: a hole joins as nothing. *)
Definition join_chars (chars : array ascii) : list ascii := omap id chars.

(** The name of piece [i] in letters. *)
Definition alphabetic_name (o : options) (padding : list ascii) (suffix_length_ : Z) (i : nat)
  : result string :=
  suffix ← suffix_loop i i [];
  Ok (filename o (String_slice (padding ++ join_chars (reverse suffix)) (- suffix_length_))).

(** The double nearest to an integer from [0] to [2^54]: beyond [2^53] the
    doubles are the even integers, and a tie goes to the multiple of four. *)
Definition to_double (z : Z) : Z :=
  if z <=? 2 ^ 53 then z
  else if Z.even z then z
  else if z mod 4 =? 1 then z - 1 else z + 1.

(** The name of piece [i] in digits. *)
Definition numeric_name (o : options) (padding : list ascii) (suffix_length_ start : Z) (i : nat)
  : string :=
  filename o
    (String_slice
       (padding ++ list_ascii_of_string (json_number (to_double (start + Z.of_nat i))))
       (- suffix_length_)).

(** [for (let i = 0; i < size; ++i) filenames[i] = ...]. *)
Fixpoint names_loop (name : nat -> result string) (indices : list nat) : result (list string) :=
  match indices with
  | [] => Ok []
  | i :: rest =>
      n ← name i;
      others ← names_loop name rest;
      Ok (n :: others)
  end.

(** [createFilenames(size, options)].  The default it stores in
    [options.suffix_length] is not read again. *)
Definition createFilenames (size : nat) (o : options) : result (list string) :=
  match opt_numeric_suffixes o with
  | Some start =>
      if negb (Split.isSafe
                 (VNumber (num_of_Z (to_double (to_double (start + Z.of_nat size) - 1)))))
      then Throw (Error EmptyString)
      else
        needed ← getSuffixLength size 10;
        suffix_length_ ←
          match opt_suffix_length o with
          | Some l => if l <? Z.of_nat needed then Throw (Error EmptyString) else Ok l
          | None => Ok (Z.max (Z.of_nat needed) 2)
          end;
        padding ← replicate suffix_length_ "0";
        Ok ((fun i => numeric_name o padding suffix_length_ start i) <$> seq 0 size)
  | None =>
      needed ← getSuffixLength size (String.length alphabet);
      suffix_length_ ←
        match opt_suffix_length o with
        | Some l =>
            if l <? Z.of_nat needed
            then Throw (Error "output file suffixes exhausted")
            else Ok l
        | None => Ok (Z.max (Z.of_nat needed) 2)
        end;
      padding ← replicate suffix_length_ "a";
      names_loop (alphabetic_name o padding suffix_length_) (seq 0 size)
  end.

(** [splitSync]: the pieces, and the files written. *)
Definition splitSync (buffer : Buffer) (o : options_arg)
  : result (list Buffer * list (string * Buffer)) :=
  checked ← checkOptions o;
  splitted ← Split._split buffer (checked_modes checked);
  filenames ← createFilenames (length splitted) checked;
  Ok (splitted,
      if Split.isDefined (opt_prefix checked) then zip filenames splitted else []).

(** What [split] returns: a promise, or nothing. *)
Inductive promise (A : Type) : Type :=
| Resolved (a : A)
| Rejected (e : error).

Arguments Resolved {A} a.
Arguments Rejected {A} e.

(** [split].  An error thrown inside a [try] rejects the promise returned.
    [filenames] is declared [const] and then assigned: once
    [createFilenames] has returned, the assignment throws, inside the
    [try].  Without a prefix the last statement builds a promise and does
    not return it. *)
Definition split (buffer : Buffer) (o : options_arg)
  : result (option (promise (list Buffer))) :=
  match (checked ← checkOptions o;
         splitted ← Split._split buffer (checked_modes checked);
         Ok (checked, splitted)) with
  | Throw err => Ok (Some (Rejected err))
  | OutOfFuel => OutOfFuel
  | Ok (checked, splitted) =>
      if Split.isDefined (opt_prefix checked) then
        match createFilenames (length splitted) checked with
        | Throw err => Ok (Some (Rejected err))
        | OutOfFuel => OutOfFuel
        | Ok _ => Ok (Some (Rejected (TypeError "Assignment to constant variable.")))
        end
      else Ok None
  end.

End files.

Arguments Resolved {A} a.
Arguments Rejected {A} e.

End Files.

(** ** bin/merk.js *)

Module Cli.

Section merk.
Context {rt : Runtime}.

(** What the command takes from its host besides the [Runtime]: [parseInt]
    and the file system behind [readFileSync]. *)
Variable parseInt : string -> number.
Variable readFileSync : string -> result Buffer.

(** [process.argv[2] || '-']. *)
Definition fileIn (argv2 : option string) : string :=
  match argv2 with
  | Some (String c rest) => String c rest
  | _ => "-"
  end.

(** [process.argv[3] ? parseInt(process.argv[3]) : 512]. *)
Definition sliceSize (argv3 : option string) : number :=
  match argv3 with
  | Some (String c rest) => parseInt (String c rest)
  | _ => num_of_Z 512
  end.

(** The ['data'] listener: [buffer = Buffer.concat([buffer, data])]. *)
Definition on_data (buffer data : Buffer) : result Buffer :=
  Buffer_concat [Some buffer; Some data].

(** Standard input delivers its chunks, then ends. *)
Fixpoint read_stdin (buffer : Buffer) (chunks : list Buffer) : result Buffer :=
  match chunks with
  | [] => Ok buffer
  | data :: rest => buffer' ← on_data buffer data; read_stdin buffer' rest
  end.

(** [merkFile()], over the globals it reads; the result is the lines it
    writes to standard output. *)
Definition merkFile (buffer : Buffer) (fileIn_ : string) (sliceSize_ : number) (draws : nat)
  : result (list string) :=
  '(graph, _) ← Dag.fromBuffer buffer (Some (VNumber sliceSize_)) Tree.HashFalsy
                  false false draws;
  meta ← Dag.toMetadata graph (Some fileIn_);
  let inputs :=
    JSON_stringify (JArray ((fun s => JString (Buffer_toHex s)) <$> Dag.shards graph)) in
  Ok [meta; inputs].

(** The script: [stdin] is what standard input delivers when it is read. *)
Definition main (argv2 argv3 : option string) (stdin : list Buffer) (draws : nat)
  : result (list string) :=
  let fileIn_ := fileIn argv2 in
  let sliceSize_ := sliceSize argv3 in
  if String.eqb fileIn_ "-" then
    buffer ← read_stdin [] stdin;
    merkFile buffer fileIn_ sliceSize_ draws
  else
    buffer ← readFileSync fileIn_;
    merkFile buffer fileIn_ sliceSize_ draws.

End merk.

End Cli.

(** ** SHA-256

    The default digest ([crypto.createHash('sha256')]), on 32-bit words
    kept as integers with the wrap-around written out. *)

Module Sha256.

Definition w32 (x : Z) : Z := x mod 2 ^ 32.
Definition add32 (x y : Z) : Z := w32 (x + y).
Definition rotr (n x : Z) : Z := Z.lor (Z.shiftr x n) (w32 (Z.shiftl x (32 - n))).
Definition shr (n x : Z) : Z := Z.shiftr x n.
Definition not32 (x : Z) : Z := Z.lxor x 0xffffffff.
Definition Ch (x y z : Z) : Z := Z.lxor (Z.land x y) (Z.land (not32 x) z).
Definition Maj (x y z : Z) : Z := Z.lxor (Z.lxor (Z.land x y) (Z.land x z)) (Z.land y z).
Definition Sigma0 (x : Z) : Z := Z.lxor (Z.lxor (rotr 2 x) (rotr 13 x)) (rotr 22 x).
Definition Sigma1 (x : Z) : Z := Z.lxor (Z.lxor (rotr 6 x) (rotr 11 x)) (rotr 25 x).
Definition sigma0 (x : Z) : Z := Z.lxor (Z.lxor (rotr 7 x) (rotr 18 x)) (shr 3 x).
Definition sigma1 (x : Z) : Z := Z.lxor (Z.lxor (rotr 17 x) (rotr 19 x)) (shr 10 x).

(** The constants are read off the first primes, as the standard defines
    them: the first 32 bits of the fractional part of the cube root (for
    [K], over 64 primes) and of the square root (for [H0], over 8). *)
Definition is_prime (n : nat) : bool :=
  forallb (fun d => negb (n mod d =? 0)%nat) (seq 2 (n - 2)).

Definition primes (count : nat) : list Z :=
  Z.of_nat <$> take count (filter (fun n => is_prime n = true) (seq 2 310)).

(** The largest [r] below [2 ^ bits] with [r ^ k <= x]. *)
Fixpoint int_root (k : Z) (bits : nat) (x r : Z) : Z :=
  match bits with
  | O => r
  | S bits' =>
      let r' := r + 2 ^ Z.of_nat bits' in
      int_root k bits' x (if r' ^ k <=? x then r' else r)
  end.

Definition K : list Z := (fun p => w32 (int_root 3 36 (p * 2 ^ 96) 0)) <$> primes 64.

Definition H0 : list Z := (fun p => w32 (int_root 2 36 (p * 2 ^ 64) 0)) <$> primes 8.

(** The [n] low bytes of [x], most significant first. *)
Definition word_bytes (n : nat) (x : Z) : list Z :=
  (fun i => Z.land (Z.shiftr x (8 * Z.of_nat i)) 255) <$> rev (seq 0 n).

(** The message, a one bit, zero bits up to 56 modulo 64 bytes, and the
    length in bits on eight bytes. *)
Definition pad (msg : list Z) : list Z :=
  let len := Z.of_nat (length msg) in
  msg ++ [128] ++ replicate (Z.to_nat ((55 - len) mod 64)) 0 ++ word_bytes 8 (8 * len).

Fixpoint words (bytes_ : list Z) : list Z :=
  match bytes_ with
  | a :: b :: c :: d :: rest => (((a * 256 + b) * 256 + c) * 256 + d) :: words rest
  | _ => []
  end.

(** The message schedule, most recent word first. *)
Fixpoint schedule (n : nat) (w : list Z) : list Z :=
  match n with
  | O => w
  | S n' =>
      let next := add32 (add32 (sigma1 (nth 1 w 0)) (nth 6 w 0))
                        (add32 (sigma0 (nth 14 w 0)) (nth 15 w 0)) in
      schedule n' (next :: w)
  end.

Definition round (s : list Z) (kw : Z * Z) : list Z :=
  match s with
  | [a; b; c; d; e; f; g; h] =>
      let t1 := add32 (add32 (add32 h (Sigma1 e)) (add32 (Ch e f g) (fst kw))) (snd kw) in
      let t2 := add32 (Sigma0 a) (Maj a b c) in
      [add32 t1 t2; a; b; c; add32 d t1; e; f; g]
  | _ => s
  end.

Definition compress (h : list Z) (block : list Z) : list Z :=
  let w := rev (schedule 48 (rev block)) in
  let s := foldl round h (zip K w) in
  (fun p => add32 (fst p) (snd p)) <$> zip h s.

Fixpoint blocks (n : nat) (ws : list Z) (h : list Z) : list Z :=
  match n with
  | O => h
  | S n' => blocks n' (drop 16 ws) (compress h (take 16 ws))
  end.

Definition digest (msg : Buffer) : Buffer :=
  let ws := words (pad ((fun b => Z.of_N (Byte.to_N b)) <$> msg)) in
  let h := blocks (length ws / 16) ws H0 in
  (fun z => default x00 (Byte.of_N (Z.to_N z))) <$> mjoin (word_bytes 4 <$> h).

End Sha256.

(** ** A concrete host, for examples

    A host on which the definitions can be run: the digest is SHA-256; a
    string of digits converts to the number it denotes and any other string
    to [NaN]; an integer prints in decimal; a buffer decodes byte by byte,
    as UTF-8 does on ASCII; buffers may be as long as on a 64-bit V8; the
    entropy pool is a parameter. *)

Module Sample.

Fixpoint all_digits (s : string) : bool :=
  match s with
  | EmptyString => true
  | String c rest => Split.is_digit c && all_digits rest
  end.

Definition string_to_number (s : string) : number :=
  match s with
  | EmptyString => NaN
  | _ => if all_digits s then num_of_Z (Split.decimal_value s) else NaN
  end.

Definition number_to_string (x : number) : string :=
  match x with
  | Fin q => if Qeq_bool (inject_Z (Qfloor q)) q then json_number (Qfloor q) else "NaN"
  | _ => "NaN"
  end.

Definition decode (b : Buffer) : string :=
  foldr (fun c acc => String (ascii_of_byte c) acc) EmptyString b.

Definition runtime (pool : nat -> nat -> byte) : Runtime :=
  {| sha256 := Sha256.digest;
     StringToNumber := string_to_number;
     NumberToString := number_to_string;
     Buffer_toString := decode;
     entropy := pool;
     kMaxLength := 2 ^ 53 - 1 |}.

(** A pool of zero bytes, and a pool of the character [0]. *)
Definition zero_pool : nat -> nat -> byte := fun _ _ => x00.
Definition digit_pool : nat -> nat -> byte := fun _ _ => x30.

End Sample.

(** ** The tree the specification describes

    The row above a row, in the words of the specification: consecutive
    pairs are hashed, left child first, and an unpaired last element is
    carried over as it is.  [_getNodes] is compared with it below. *)

Fixpoint spec_next_row (H : Buffer -> Buffer) (e : list Buffer) : list Buffer :=
  match e with
  | a :: b :: rest => H (a ++ b) :: spec_next_row H rest
  | [a] => [a]
  | [] => []
  end.

(** The hashed pairs alone. *)
Fixpoint hashed_pairs (H : Buffer -> Buffer) (e : list Buffer) : list Buffer :=
  match e with
  | a :: b :: rest => H (a ++ b) :: hashed_pairs H rest
  | _ => []
  end.

(** The rows from the root down, [j] rows built above [first], with the rows
    [below] already in place. *)
Fixpoint spec_rows (H : Buffer -> Buffer) (j : nat) (first : list Buffer)
    (below : list (list Buffer)) : list (list Buffer) :=
  match j with
  | O => first :: below
  | S j' => spec_rows H j' (spec_next_row H first) (first :: below)
  end.

(** The rows of a tree as arrays. *)
Definition dense_rows (rows : list (list Buffer)) : array (array Buffer) :=
  (fun r => Some (dense r)) <$> rows.

(** ** Vocabulary of the statements *)

(** All the pieces but the last one have [n] bytes; the last one has
    between one and [n]. *)
Definition uniform_pieces (n : nat) (pieces : list Buffer) : Prop :=
  (forall i s, pieces !! i = Some s -> (S i < length pieces)%nat -> length s = n)
  /\ (forall s, last pieces = Some s -> (1 <= length s <= n)%nat).

(** The options of a split by bytes ([by_bytes]) or by line-bounded bytes. *)
Definition size_options {V} (by_bytes : bool) (v : V) : Split.options_of V :=
  if by_bytes
  then {| Split.lines := None; Split.bytes := Some v; Split.line_bytes := None |}
  else {| Split.lines := None; Split.bytes := None; Split.line_bytes := Some v |}.

(** The shards of a buffer: its pieces, each followed by zero bytes. *)
Definition zero_padded (n : nat) (pieces : list Buffer) : list Buffer :=
  (fun s => s ++ replicate (n - length s) x00) <$> pieces.

(** The pool drawn by one pass, and the buffer and the offset that the
    first pass of [randomFill] leaves behind. *)
Definition drawn_block {rt : Runtime} (draws : nat) : Buffer :=
  entropy draws <$> seq 0 (Z.to_nat Dag.max).

Definition first_pass {rt : Runtime} (k draws : nat) : Buffer :=
  cyclic (drawn_block draws) k.

Definition offset_after {rt : Runtime} (k draws : nat) : jsval :=
  Dag.js_add (VNumber (num_of_Z 0)) (first_pass k draws).

(** The hash in force: the default when none is given. *)
Definition effective_hash {rt : Runtime} (h : Tree.hasher_arg) : option (Buffer -> Buffer) :=
  match h with
  | Tree.HashFalsy => Some sha256
  | Tree.HashFunction f => Some f
  | Tree.HashNotCallable => None
  end.

(** Two hosts that may differ in their entropy pool (and in the services
    only [randomFill] uses). *)
Definition same_host_but_entropy (rt1 rt2 : Runtime) : Prop :=
  @sha256 rt1 = @sha256 rt2
  /\ @StringToNumber rt1 = @StringToNumber rt2
  /\ @kMaxLength rt1 = @kMaxLength rt2.

(** The input of [test/dag.unit.js] and the leaves and root it expects. *)
Definition test_buffer : Buffer :=
  [x00; x00; x00; x10; x00; x20; x00; x30; x00; x40;
   x00; x50; x00; x60; x00; x70; x00; x80; x00; x90].

Definition test_leaves : list string :=
  ["96a296d224f285c67bee93c30f8a309157f0daa35dc5b87e410b78630a09cfc7";
   "0298d122906dcfc10892cb53a73992fc5b9f493ea4c9badb27b791b4127a7fe7";
   "474f2af47544e9c7ce4338cabd43c5ca1c26432b7300ce387406157ea433891f";
   "db3426e878068d28d269b6c87172322ce5372b65756d0789001d34835f601c03";
   "b8811852747cfa3620c3dd2af5d59498c240f208e689b4052bac934c29faf094";
   "99d024a68d4d9728c47928d959ebd3bc621782c9d5fb3a1f7db35c4423fb97e7";
   "f66d0942831c3fc3a5d7b1399bc2f9027f95f8d735ae2a78f2240c7cefde526b";
   "4cf5af027d9a949a881e505bd7c7b14c5eb61ff47d159b585a331d690501d13d";
   "085edad400785fca7e7e90b1fac4beb776fc2beee5aa24352d5f39b5d57efcad";
   "c723228fbe3cf04cdf49e61f3e13fc0c407d2e1ff23d6eaa1b4299e7cbb418a1"]%string.

Definition test_root : string :=
  "08541c3238e4be60e2b8f049deee8b0bd2c91829c3b4f47f1b703bd4d48d2ff3".

(** The line feeds of a piece, and what splitting by [lines] lines makes of
    a buffer: no piece is empty or holds more than [lines] line feeds, a
    piece that holds [lines] of them ends with the last one, and every
    piece but the last holds exactly [lines]. *)
Definition count_LF (piece : Buffer) : nat :=
  length (List.filter (fun b => Byte.eqb b Split.LF) piece).

Definition line_pieces (lines_ : Z) (pieces : list Buffer) : Prop :=
  forall i p, pieces !! i = Some p ->
    p <> []
    /\ Z.of_nat (count_LF p) <= lines_
    /\ (Z.of_nat (count_LF p) = lines_ -> last p = Some Split.LF)
    /\ ((S i < length pieces)%nat -> Z.of_nat (count_LF p) = lines_).

(** A line feed, if any, is the last byte. *)
Definition LF_only_last (p : Buffer) : Prop :=
  forall i, p !! i = Some Split.LF -> S i = length p.

(** The options of a split by lines. *)
Definition lines_options {V} (v : V) : Split.options_of V :=
  {| Split.lines := Some v; Split.bytes := None; Split.line_bytes := None |}.

(** A non-empty string of decimal digits. *)
Definition digit_string (s : string) : Prop :=
  s <> EmptyString /\ Sample.all_digits s = true.

(** What the command reads: standard input, all chunks together, when the
    name is ["-"], and the file of that name otherwise. *)
Definition cli_input (readFileSync : string -> result Buffer) (name : string)
    (stdin : list Buffer) : result Buffer :=
  if String.eqb name "-" then Ok (mjoin stdin) else readFileSync name.

(** The second line the command prints. *)
Definition hex_array (shards_ : list Buffer) : string :=
  JSON_stringify (JArray ((fun s => JString (Buffer_toHex s)) <$> shards_)).

(** * Properties *)

(** ** Arrays *)

Section array_facts.
Context {A : Type}.
Implicit Types (l : list A) (arr : array A).

Lemma length_dense l : length (dense l) = length l.
Proof. unfold dense. by rewrite length_fmap. Qed.

Lemma aget_dense l i : aget (dense l) i = l !! i.
Proof.
  unfold aget, dense. rewrite list_lookup_fmap.
  by destruct (l !! i).
Qed.

Lemma dense_app l1 l2 : dense (l1 ++ l2) = dense l1 ++ dense l2.
Proof. unfold dense. by rewrite fmap_app. Qed.

Lemma dense_inj l1 l2 : dense l1 = dense l2 -> l1 = l2.
Proof.
  unfold dense. revert l2.
  induction l1 as [|a l1 IH]; intros [|b l2] Heq; simplify_eq/=; auto.
Qed.

Lemma aset_at_end arr v : aset arr (length arr) v = arr ++ [v].
Proof.
  unfold aset. destruct (decide _) as [Hlt|_]; [lia|].
  by rewrite Nat.sub_diag.
Qed.

Lemma aset_dense_end l i v : i = length l -> aset (dense l) i (Some v) = dense (l ++ [v]).
Proof.
  intros ->. rewrite <- (length_dense l) at 1.
  by rewrite aset_at_end, dense_app.
Qed.

Lemma aset_last arr c v : aset (arr ++ [c]) (length arr) v = arr ++ [v].
Proof.
  unfold aset. rewrite length_app. simpl.
  destruct (decide _) as [_|Hge]; [|lia].
  rewrite insert_app_r_alt by lia. by rewrite Nat.sub_diag.
Qed.

Lemma aget_app_r arr1 arr2 i : aget (arr1 ++ arr2) (length arr1 + i) = aget arr2 i.
Proof.
  unfold aget. rewrite lookup_app_r by lia.
  do 2 f_equal. lia.
Qed.

End array_facts.

(** ** The tree builder *)

Section tree_facts.
Context {rt : Runtime}.
Implicit Types (H : Buffer -> Buffer) (e l : list Buffer).

Lemma list_pair_ind (P : list Buffer -> Prop) :
  P [] -> (forall a, P [a]) -> (forall a b l, P l -> P (a :: b :: l)) -> forall l, P l.
Proof.
  intros Hnil Hone Hstep.
  assert (forall l, P l /\ forall a, P (a :: l)) as Hboth.
  { induction l as [|b l [IH1 IH2]]; split; auto. }
  intros l. apply Hboth.
Qed.

Lemma div2_SS n : (S (S n) / 2)%nat = S (n / 2).
Proof. replace (S (S n)) with (n + 1 * 2)%nat by lia. rewrite Nat.div_add by lia. lia. Qed.

Lemma mod2_SS n : (S (S n) mod 2)%nat = (n mod 2)%nat.
Proof. replace (S (S n)) with (n + 1 * 2)%nat by lia. apply Nat.Div0.mod_add. Qed.

Lemma length_hashed_pairs H e : length (hashed_pairs H e) = (length e / 2)%nat.
Proof.
  induction e as [|a|a b e IH] using list_pair_ind; try done.
  cbn [hashed_pairs length]. by rewrite IH, div2_SS.
Qed.

Lemma spec_next_row_pairs H e :
  spec_next_row H e =
  hashed_pairs H e ++ (if decide (length e mod 2 = 1)%nat then option_list (last e) else []).
Proof.
  induction e as [|a|a b e IH] using list_pair_ind; try done.
  cbn [spec_next_row hashed_pairs length]. rewrite IH, mod2_SS. cbn [app]. do 2 f_equal.
  destruct (decide _); [|done].
  destruct e as [|c e]; [done|]. by rewrite !last_cons_cons.
Qed.

Lemma length_spec_next_row H e : length (spec_next_row H e) = ((length e + 1) / 2)%nat.
Proof.
  induction e as [|a|a b e IH] using list_pair_ind; try done.
  cbn [spec_next_row length]. rewrite IH.
  replace (S (S (length e)) + 1)%nat with (S (S (length e + 1))) by lia.
  by rewrite div2_SS.
Qed.

(** The elements of the row above, by index. *)
Lemma spec_next_row_pair H e k a b :
  e !! (2 * k)%nat = Some a -> e !! (2 * k + 1)%nat = Some b ->
  spec_next_row H e !! k = Some (H (a ++ b)).
Proof.
  revert k. induction e as [|x|x y e IH] using list_pair_ind; intros k Ha Hb; try done.
  - destruct k as [|k]; [done|].
    replace (2 * S k)%nat with (S (S (2 * k))) in Ha by lia. done.
  - destruct k as [|k]; [by simplify_eq/=|].
    replace (2 * S k)%nat with (S (S (2 * k))) in Ha by lia.
    replace (2 * S k + 1)%nat with (S (S (2 * k + 1))) in Hb by lia.
    cbn [spec_next_row]. rewrite lookup_cons_ne_0 by done. by apply IH.
Qed.

Lemma spec_next_row_carry H e :
  (length e mod 2 = 1)%nat ->
  spec_next_row H e !! ((length e - 1) / 2)%nat = e !! (length e - 1)%nat.
Proof.
  induction e as [|x|x y e IH] using list_pair_ind; intros Hodd; try done.
  cbn [length] in *. rewrite mod2_SS in Hodd.
  assert (0 < length e)%nat by (destruct e; simpl in *; [discriminate|lia]).
  replace (S (S (length e)) - 1)%nat with (S (S (length e - 1))) by lia.
  rewrite div2_SS. cbn [spec_next_row].
  rewrite !lookup_cons_ne_0 by done. by apply IH.
Qed.

(** *** [_getNodes] builds the row the specification describes *)

Lemma getNodes_loop_unfold fuel h (leaves : array Buffer) i (nodes_ : array Buffer) :
  Tree._getNodes_loop fuel h leaves i nodes_ =
  if Z.of_nat i <? Z.of_nat (length leaves) - 1 then
    match fuel with
    | O => OutOfFuel
    | S fuel' =>
        pair ← Buffer_concat [aget leaves i; aget leaves (i + 1)];
        node ← Tree.call_hasher h pair;
        Tree._getNodes_loop fuel' h leaves (i + 2) (aset nodes_ (i / 2) (Some node))
    end
  else Ok nodes_.
Proof. by destruct fuel. Qed.

Lemma getNodes_loop_dense H fuel pre rest acc :
  length pre = (2 * length acc)%nat -> (length rest <= fuel)%nat ->
  Tree._getNodes_loop fuel (Tree.HashFunction H) (dense (pre ++ rest)) (length pre) (dense acc)
  = Ok (dense (acc ++ hashed_pairs H rest)).
Proof.
  revert pre rest acc.
  induction fuel as [|fuel IH]; intros pre rest acc Hpre Hfuel;
    rewrite getNodes_loop_unfold, length_dense, length_app.
  - destruct rest; [|simpl in Hfuel; lia].
    simpl. rewrite !app_nil_r.
    destruct (Z.ltb_spec (Z.of_nat (length pre)) (Z.of_nat (length pre + 0) - 1)); [lia|done].
  - destruct rest as [|a [|b rest]].
    + simpl. rewrite !app_nil_r.
      destruct (Z.ltb_spec (Z.of_nat (length pre)) (Z.of_nat (length pre + 0) - 1)); [lia|done].
    + simpl. rewrite !app_nil_r.
      destruct (Z.ltb_spec (Z.of_nat (length pre)) (Z.of_nat (length pre + 1) - 1)); [lia|done].
    + cbn [length].
      destruct (Z.ltb_spec (Z.of_nat (length pre))
                  (Z.of_nat (length pre + S (S (length rest))) - 1)); [|lia].
      rewrite !aget_dense.
      rewrite (lookup_app_r pre) by lia.
      rewrite (lookup_app_r pre) by lia.
      replace (length pre - length pre)%nat with 0%nat by lia.
      replace (length pre + 1 - length pre)%nat with 1%nat by lia.
      cbn [lookup list_lookup Buffer_concat mbind result_bind Tree.call_hasher].
      rewrite app_nil_r.
      rewrite aset_dense_end.
      2:{ rewrite Hpre. by rewrite Nat.mul_comm, Nat.div_mul. }
      replace (pre ++ a :: b :: rest) with ((pre ++ [a; b]) ++ rest) by (by rewrite <- app_assoc).
      replace (length pre + 2)%nat with (length (pre ++ [a; b])) by (rewrite length_app; done).
      rewrite IH.
      * cbn [hashed_pairs]. by rewrite <- app_assoc.
      * rewrite !length_app. simpl. lia.
      * simpl in Hfuel. lia.
Qed.

Lemma getNodes_dense H (t : Tree.MerkleTree) e :
  Tree._hasher t = Tree.HashFunction H ->
  Tree._getNodes t (dense e) = Ok (dense (spec_next_row H e)).
Proof.
  intros Hh. unfold Tree._getNodes. rewrite Hh, length_dense.
  pose proof (getNodes_loop_dense H (length e) [] e []) as Hloop.
  simpl in Hloop. rewrite Hloop by done. cbn [mbind result_bind].
  rewrite spec_next_row_pairs.
  destruct (decide (length e mod 2 = 1)%nat) as [Hodd|Heven]; [|by rewrite app_nil_r].
  rewrite Hodd, aget_dense.
  assert (0 < length e)%nat by (destruct e; simpl in *; [discriminate|lia]).
  destruct (last e) as [x|] eqn:Hlast.
  2:{ apply last_None in Hlast. subst. simpl in *. lia. }
  rewrite last_lookup in Hlast.
  replace (length e - 1)%nat with (pred (length e)) by lia. rewrite Hlast.
  rewrite aset_dense_end; [done|].
  rewrite length_hashed_pairs.
  pose proof (Nat.div_mod_eq (length e) 2). 
  replace (pred (length e)) with ((length e / 2) * 2)%nat by lia.
  by rewrite Nat.div_mul.
Qed.

(** *** The depth *)

Lemma depth_loop_unfold fuel pow len :
  Tree.depth_loop fuel pow len =
  if 2 ^ Z.of_nat pow <? Z.of_nat len then
    match fuel with
    | O => OutOfFuel
    | S fuel' => Tree.depth_loop fuel' (S pow) len
    end
  else Ok pow.
Proof. by destruct fuel. Qed.

(** The loop ends within its fuel, on a power of two that covers the
    leaves. *)
Lemma depth_loop_total fuel pow len :
  (len <= fuel + pow)%nat ->
  exists d, Tree.depth_loop fuel pow len = Ok d /\ (pow <= d)%nat /\ (len <= 2 ^ d)%nat.
Proof.
  revert pow. induction fuel as [|fuel IH]; intros pow Hfuel;
    rewrite depth_loop_unfold;
    destruct (Z.ltb_spec (2 ^ Z.of_nat pow) (Z.of_nat len)) as [Hlt|Hge].
  - pose proof (Z.pow_gt_lin_r 2 (Z.of_nat pow)). lia.
  - exists pow. split_and!; [done|lia|]. apply Nat2Z.inj_le. rewrite Nat2Z.inj_pow. lia.
  - destruct (IH (S pow)) as (d & Hd & Hpow & Hlen); [lia|].
    exists d. split_and!; [done|lia|done].
  - exists pow. split_and!; [done|lia|]. apply Nat2Z.inj_le. rewrite Nat2Z.inj_pow. lia.
Qed.

(** *** Rows *)

Lemma spec_rows_head H j first below :
  spec_rows H j first below !! 0%nat = Some (Nat.iter j (spec_next_row H) first).
Proof.
  revert first below. induction j as [|j IH]; intros first below; [done|].
  cbn [spec_rows]. by rewrite IH, Nat.iter_succ_r.
Qed.

Lemma length_spec_rows H j first below :
  length (spec_rows H j first below) = (j + S (length below))%nat.
Proof.
  revert first below. induction j as [|j IH]; intros first below; [done|].
  cbn [spec_rows]. rewrite IH. simpl. lia.
Qed.

(** The rows already in place stay where they are. *)
Lemma spec_rows_below H j first below i :
  spec_rows H j first below !! (j + i)%nat = (first :: below) !! i.
Proof.
  revert first below i. induction j as [|j IH]; intros first below i; [done|].
  cbn [spec_rows]. replace (S j + i)%nat with (j + S i)%nat by lia.
  by rewrite IH.
Qed.

(** Each row is the row above the next one. *)
Lemma spec_rows_adjacent H j first below i r e :
  (forall i r e, (first :: below) !! i = Some r -> (first :: below) !! S i = Some e ->
                 r = spec_next_row H e) ->
  spec_rows H j first below !! i = Some r ->
  spec_rows H j first below !! S i = Some e ->
  r = spec_next_row H e.
Proof.
  revert first below i r e.
  induction j as [|j IH]; intros first below i r e Hadj Hr He; [by eapply Hadj|].
  cbn [spec_rows] in Hr, He. eapply IH; [|done..].
  clear -Hadj. intros [|i] r e Hr He; simplify_eq/=; [done|]. by eapply Hadj.
Qed.

Lemma length_iter_next_row H d l :
  (1 <= length l)%nat -> (length l <= 2 ^ d)%nat ->
  length (Nat.iter d (spec_next_row H) l) = 1%nat.
Proof.
  revert l. induction d as [|d IH]; intros l Hpos Hle.
  - simpl in *. lia.
  - rewrite Nat.iter_succ_r. apply IH; rewrite length_spec_next_row.
    + apply Nat.div_le_lower_bound; lia.
    + rewrite Nat.pow_succ_r' in Hle.
      assert ((length l + 1) / 2 < 2 ^ d + 1)%nat; [|lia].
      apply Nat.Div0.div_lt_upper_bound. lia.
Qed.

(** *** [_compute] and the constructor *)

Lemma aset_middle {A} (a r : array A) c v : aset (a ++ c :: r) (length a) v = a ++ v :: r.
Proof.
  unfold aset. rewrite length_app. simpl.
  destruct (decide _) as [_|Hge]; [|lia].
  rewrite insert_app_r_alt by lia. by rewrite Nat.sub_diag.
Qed.

Lemma push_rows_replicate n (rows : array (array Buffer)) :
  Tree.push_rows n rows = rows ++ replicate n (Some []).
Proof.
  revert rows. induction n as [|n IH]; intros rows; simpl; [by rewrite app_nil_r|].
  rewrite IH. unfold apush. by rewrite <- app_assoc.
Qed.

Lemma compute_rows_dense H j (t : Tree.MerkleTree) (junk : array (array Buffer)) first below :
  Tree._hasher t = Tree.HashFunction H ->
  length junk = j ->
  Tree._rows t = junk ++ dense_rows (first :: below) ->
  exists t', Tree.compute_rows j t = Ok t'
    /\ Tree._rows t' = dense_rows (spec_rows H j first below)
    /\ Tree._hasher t' = Tree._hasher t
    /\ Tree._leaves t' = Tree._leaves t
    /\ Tree._depth t' = Tree._depth t.
Proof.
  revert t junk first below.
  induction j as [|j IH]; intros t junk first below Hh Hlen Hrows.
  - destruct junk; [|done]. exists t. by rewrite Hrows.
  - destruct junk as [|c junk _] using rev_ind; [done|].
    rewrite length_app in Hlen. simpl in Hlen.
    assert (j = length junk) as -> by lia. clear Hlen.
    cbn [Tree.compute_rows]. rewrite Hrows.
    replace (length junk + 1)%nat with (length (junk ++ [c]) + 0)%nat
      by (rewrite length_app; simpl; lia).
    rewrite aget_app_r. cbn [dense_rows fmap list_fmap aget lookup list_lookup mjoin option_join].
    rewrite (getNodes_dense H) by done. cbn [mbind result_bind].
    rewrite <- app_assoc. cbn [app].
    rewrite aset_middle.
    edestruct (IH (Tree.set_count (Tree.set_rows t
                 (junk ++ Some (dense (spec_next_row H first)) :: dense_rows (first :: below)))
                 (Tree._count t + length (dense (spec_next_row H first))))
                junk (spec_next_row H first) (first :: below))
      as (t' & Hrun & Hrows' & Hh' & Hl' & Hd'); [done|done|done|].
    exists t'. split; [exact Hrun|]. by split_and!.
Qed.

Lemma feed_all (t : Tree.MerkleTree) l :
  foldl (fun t leaf => Tree._feed t (Some leaf)) t l
  = Tree.set_leaves t (Tree._leaves t ++ dense l).
Proof.
  revert t. induction l as [|a l IH]; intros t.
  - destruct t. unfold Tree.set_leaves. simpl. by rewrite app_nil_r.
  - cbn [foldl]. rewrite IH. unfold Tree._feed, Tree.set_leaves. simpl.
    by rewrite <- app_assoc.
Qed.

(** What the constructor returns on an array of buffers and a callable (or
    absent) hasher. *)
Lemma new_dense H l h :
  Tree.hasher_or h Tree.DEFAULT_HASH_FUNC = Tree.HashFunction H ->
  exists t, Tree.new (Tree.LeavesArray l) h = Ok t
    /\ Tree._rows t = dense_rows (spec_rows H (Tree._depth t) l [])
    /\ Tree._leaves t = dense l
    /\ Tree._hasher t = Tree.HashFunction H
    /\ (length l <= 2 ^ Tree._depth t)%nat.
Proof.
  intros Hh. unfold Tree.new. cbn [Tree._hasher Tree.is_array Tree.assert mbind result_bind].
  rewrite Hh. cbn [Tree.is_function mbind result_bind].
  rewrite feed_all. cbn [Tree._leaves app].
  unfold Tree._compute, Tree.depth, Tree.set_leaves.
  cbn [Tree._depth Tree._leaves Tree._hasher Tree._rows Tree._count].
  destruct (decide (0 = 0)%nat) as [_|]; [|done].
  rewrite length_dense.
  destruct (depth_loop_total (length l) 0 (length l)) as (d & Hd & _ & Hcover); [lia|].
  rewrite Hd. unfold Tree.set_depth, Tree.set_rows.
  cbn [mbind result_bind Tree._depth Tree._leaves Tree._hasher Tree._rows Tree._count length].
  destruct (decide (0 = 0)%nat) as [_|]; [|done].
  rewrite push_rows_replicate. cbn [app]. unfold Tree.assert. cbn [mbind result_bind].
  pose proof (aset_at_end (replicate d (Some ([] : array Buffer))) (Some (dense l))) as Hset.
  rewrite length_replicate in Hset. rewrite Hset. clear Hset.
  edestruct (compute_rows_dense H d
               {| Tree._hasher := Tree.HashFunction H; Tree._leaves := dense l;
                  Tree._depth := d;
                  Tree._rows := replicate d (Some []) ++ [Some (dense l)];
                  Tree._count := 0 |} (replicate d (Some [])) l [])
    as (t' & Hrun & Hrows' & Hh' & Hl' & Hd'); [done|by rewrite length_replicate|done|].
  exists t'. cbn [Tree._hasher Tree._leaves Tree._depth] in *.
  rewrite Hd'. by split_and!.
Qed.

Lemma iter_next_row_singleton H d x : Nat.iter d (spec_next_row H) [x] = [x].
Proof. induction d as [|d IH]; [done|]. by rewrite Nat.iter_succ_r. Qed.

Lemma level_dense_rows (t : Tree.MerkleTree) rows i :
  Tree._rows t = dense_rows rows -> Tree.level t i = dense <$> rows !! i.
Proof.
  intros Hrows. unfold Tree.level, aget, dense_rows in *.
  rewrite Hrows, list_lookup_fmap. by destruct (rows !! i).
Qed.

Lemma root_dense_rows (t : Tree.MerkleTree) H d l :
  Tree._rows t = dense_rows (spec_rows H d l []) ->
  Tree.root t = Ok (Nat.iter d (spec_next_row H) l !! 0%nat).
Proof.
  intros Hrows. unfold Tree.root.
  pose proof (level_dense_rows t _ 0 Hrows) as Hlevel. unfold Tree.level in Hlevel.
  rewrite Hlevel, spec_rows_head. simpl. by rewrite aget_dense.
Qed.

End tree_facts.

(** ** C1: rows are built by pairwise hashing with odd carry *)

(** C1.  For every sequence of leaf digests (so in particular for every
    non-empty sequence of digests of equal length) and every hash function,
    the constructor returns a tree whose bottom row is the leaf sequence and
    in which every row [j] above a row [e] of [m] elements has
    [ceil(m / 2)] elements, holds [H (e[2k] ++ e[2k+1])] at [k] for every
    pair with [2k + 1 < m], and, when [m] is odd, holds [e[m-1]] itself as
    its last element.  With one leaf the root is the leaf, with two it is
    [H (l0 ++ l1)], with three it is [H (H (l0 ++ l1) ++ l2)]. *)
Theorem C1_rows_pairwise_hash_odd_carry {rt : Runtime}
    (leaves : list Buffer) (H : Buffer -> Buffer) :
  exists t,
    Tree.new (Tree.LeavesArray leaves) (Tree.HashFunction H) = Ok t
    /\ Tree.level t (Tree._depth t) = Some (dense leaves)
    /\ (forall j, (j < Tree._depth t)%nat ->
        exists e r,
          Tree.level t (S j) = Some (dense e)
          /\ Tree.level t j = Some (dense r)
          /\ length r = ((length e + 1) / 2)%nat
          /\ (forall k, (2 * k + 1 < length e)%nat ->
              exists a b, e !! (2 * k)%nat = Some a /\ e !! (2 * k + 1)%nat = Some b
                          /\ r !! k = Some (H (a ++ b)))
          /\ ((length e mod 2 = 1)%nat ->
              r !! (length r - 1)%nat = e !! (length e - 1)%nat
              /\ is_Some (e !! (length e - 1)%nat)))
    /\ (forall a, leaves = [a] -> Tree.root t = Ok (Some a))
    /\ (forall a b, leaves = [a; b] -> Tree.root t = Ok (Some (H (a ++ b))))
    /\ (forall a b c, leaves = [a; b; c] ->
        Tree.root t = Ok (Some (H (H (a ++ b) ++ c)))).
Proof.
  destruct (new_dense H leaves (Tree.HashFunction H)) as (t & Hnew & Hrows & _ & _ & Hcover);
    [done|].
  exists t. split; [done|].
  pose proof (fun i => level_dense_rows t _ i Hrows) as Hlevel.
  pose proof (root_dense_rows t _ _ _ Hrows) as Hroot.
  split_and!.
  - pose proof (spec_rows_below H (Tree._depth t) leaves [] 0) as Hbottom.
    rewrite Nat.add_0_r in Hbottom. by rewrite Hlevel, Hbottom.
  - intros j Hj.
    pose proof (length_spec_rows H (Tree._depth t) leaves []) as Hlen. simpl in Hlen.
    destruct (lookup_lt_is_Some_2 (spec_rows H (Tree._depth t) leaves []) (S j))
      as [e He]; [lia|].
    destruct (lookup_lt_is_Some_2 (spec_rows H (Tree._depth t) leaves []) j)
      as [r Hr]; [lia|].
    exists e, r. rewrite !Hlevel, He, Hr.
    assert (r = spec_next_row H e) as ->.
    { eapply spec_rows_adjacent; [|done..]. by intros [|[|?]]. }
    split_and!; try done.
    + apply length_spec_next_row.
    + intros k Hk.
      destruct (lookup_lt_is_Some_2 e (2 * k)) as [a Ha]; [lia|].
      destruct (lookup_lt_is_Some_2 e (2 * k + 1)) as [b Hb]; [lia|].
      exists a, b. split_and!; try done. by apply spec_next_row_pair.
    + intros Hodd.
      assert (0 < length e)%nat by (destruct e; simpl in *; [discriminate|lia]).
      split; [|apply lookup_lt_is_Some_2; lia].
      rewrite <- (spec_next_row_carry H e) by done. f_equal.
      rewrite length_spec_next_row.
      pose proof (Nat.div_mod_eq (length e) 2).
      replace (length e + 1)%nat with ((length e / 2 + 1) * 2)%nat by lia.
      replace (length e - 1)%nat with ((length e / 2) * 2)%nat by lia.
      rewrite !Nat.div_mul by lia. lia.
  - intros a ->. by rewrite Hroot, iter_next_row_singleton.
  - intros a b ->. rewrite Hroot.
    destruct (Tree._depth t) as [|d]; [simpl in Hcover; lia|].
    rewrite Nat.iter_succ_r. cbn [spec_next_row].
    by rewrite iter_next_row_singleton.
  - intros a b c ->. rewrite Hroot.
    destruct (Tree._depth t) as [|[|d]]; [simpl in Hcover; lia..|].
    rewrite Nat.iter_succ_r. cbn [spec_next_row].
    rewrite Nat.iter_succ_r. cbn [spec_next_row].
    by rewrite iter_next_row_singleton.
Qed.

Lemma C1_witness :
  exists t,
    Tree.new (rt := Sample.runtime Sample.zero_pool)
      (Tree.LeavesArray [[x01]; [x02]; [x03]]) (Tree.HashFunction Sha256.digest) = Ok t
    /\ Tree.root t = Ok (Some (Sha256.digest (Sha256.digest ([x01] ++ [x02]) ++ [x03]))).
Proof.
  destruct (C1_rows_pairwise_hash_odd_carry (rt := Sample.runtime Sample.zero_pool)
              [[x01]; [x02]; [x03]] Sha256.digest) as (t & Hnew & _ & _ & _ & _ & Hthree).
  exists t. split; [exact Hnew|]. exact (Hthree _ _ _ eq_refl).
Defined.

(** ** The splitter *)

Section split_facts.
Implicit Types (buffer pre rest s : Buffer) (size : Z).

Lemma clamp_index_inside len i :
  0 <= i <= Z.of_nat len -> clamp_index len i = Z.to_nat i.
Proof.
  intros Hi. unfold clamp_index.
  destruct (Z.ltb_spec i 0); [lia|]. f_equal. lia.
Qed.

Lemma clamp_index_beyond len i :
  Z.of_nat len <= i -> clamp_index len i = len.
Proof.
  intros Hi. unfold clamp_index.
  destruct (Z.ltb_spec i 0); lia.
Qed.

Lemma slice_to_end pre rest :
  Buffer_slice (pre ++ rest) (Z.of_nat (length pre)) None = rest.
Proof.
  unfold Buffer_slice. rewrite clamp_index_inside by (rewrite length_app; lia).
  rewrite Nat2Z.id, drop_app_length, length_app.
  apply take_ge. lia.
Qed.

Lemma slice_chunk pre rest size :
  0 <= size ->
  Buffer_slice (pre ++ rest) (Z.of_nat (length pre)) (Some (Z.of_nat (length pre) + size))
  = take (Z.to_nat size) rest.
Proof.
  intros Hsize. unfold Buffer_slice.
  rewrite (clamp_index_inside _ (Z.of_nat (length pre))) by (rewrite length_app; lia).
  rewrite Nat2Z.id, drop_app_length.
  destruct (decide (Z.of_nat (length pre) + size <= Z.of_nat (length (pre ++ rest)))) as [Hin|Hout].
  - rewrite clamp_index_inside by lia. f_equal. lia.
  - rewrite clamp_index_beyond by lia. rewrite length_app in *.
    rewrite !take_ge; [done|lia..].
Qed.

Lemma uniform_pieces_nil n : uniform_pieces n [].
Proof. split; [by intros []|done]. Qed.

Lemma uniform_pieces_one n s : (1 <= length s <= n)%nat -> uniform_pieces n [s].
Proof.
  intros Hs. split.
  - intros [|i] s' Hlook Hlt; simpl in Hlt; lia.
  - intros s' [= <-]. done.
Qed.

Lemma uniform_pieces_cons n s pieces :
  length s = n -> (1 <= n)%nat -> uniform_pieces n pieces -> uniform_pieces n (s :: pieces).
Proof.
  intros Hs Hn [Hfull Hlast]. split.
  - intros [|i] s' Hlook Hlt; simplify_eq/=; [done|].
    eapply Hfull; [done|lia].
  - intros s'. destruct pieces as [|p pieces].
    + intros [= <-]. lia.
    + rewrite last_cons_cons. apply Hlast.
Qed.

Lemma splitByBytes_loop_spec fuel pre rest size acc :
  1 <= size -> (length rest < fuel)%nat ->
  exists pieces,
    Split.splitByBytes_loop fuel (pre ++ rest) size
      (Z.of_nat (length pre)) (Z.of_nat (length pre) + size) acc = Ok (acc ++ pieces)
    /\ mjoin pieces = rest
    /\ uniform_pieces (Z.to_nat size) pieces
    /\ (rest = [] -> pieces = []).
Proof.
  intros Hsize. revert pre rest acc.
  induction fuel as [|fuel IH]; intros pre rest acc Hfuel; [lia|].
  cbn [Split.splitByBytes_loop]. rewrite length_app.
  destruct (Z.eqb_spec (Z.of_nat (length pre)) (Z.of_nat (length pre + length rest)))
    as [Hend|Hmore].
  { destruct rest; [|simpl in Hend; lia].
    exists []. rewrite app_nil_r. split_and!; first [done | apply uniform_pieces_nil]. }
  destruct (Z.ltb_spec (Z.of_nat (length pre + length rest)) (Z.of_nat (length pre) + size))
    as [Hshort|Hfull].
  { exists [rest]. rewrite slice_to_end. split_and!.
    - done.
    - simpl. by rewrite app_nil_r.
    - apply uniform_pieces_one. lia.
    - intros ->. simpl in Hmore. lia. }
  rewrite slice_chunk by lia.
  destruct (IH (pre ++ take (Z.to_nat size) rest) (drop (Z.to_nat size) rest)
              (acc ++ [take (Z.to_nat size) rest])) as (pieces & Hrun & Hjoin & Huni & _).
  { rewrite length_drop. lia. }
  rewrite <- app_assoc, take_drop in Hrun.
  rewrite length_app, length_take_le in Hrun by lia.
  rewrite Nat2Z.inj_add, Z2Nat.id in Hrun by lia.
  exists (take (Z.to_nat size) rest :: pieces). split_and!.
  - etrans; [exact Hrun|]. by rewrite <- app_assoc.
  - simpl. by rewrite Hjoin, take_drop.
  - apply uniform_pieces_cons; [|lia|done]. apply length_take_le. lia.
  - intros ->. simpl in Hmore. lia.
Qed.

(** Splitting by a positive byte count always returns, and what it returns
    are uniform pieces that make up the buffer. *)
Lemma splitByBytes_spec buffer size :
  1 <= size ->
  exists pieces,
    Split.splitByBytes buffer size = Ok pieces
    /\ mjoin pieces = buffer
    /\ uniform_pieces (Z.to_nat size) pieces
    /\ (buffer = [] -> pieces = []).
Proof.
  intros Hsize. unfold Split.splitByBytes.
  destruct (splitByBytes_loop_spec (length buffer + 1) [] buffer size [])
    as (pieces & Hrun & Hrest); [done|lia|].
  exists pieces. split; [exact Hrun|done].
Qed.

End split_facts.

(** ** C3: splitting by bytes partitions the buffer *)

(** C3.  For every buffer and every positive byte count [n], [splitByBytes]
    returns a sequence of pieces in which every piece but the last has
    exactly [n] bytes and the last has between [1] and [n]; the pieces, put
    together in order, are the buffer; and the empty buffer gives the empty
    sequence. *)
Theorem C3_splitByBytes_partitions (buffer : Buffer) (n : Z) :
  1 <= n ->
  exists pieces,
    Split.splitByBytes buffer n = Ok pieces
    /\ (forall i s, pieces !! i = Some s -> (S i < length pieces)%nat ->
        Z.of_nat (length s) = n)
    /\ (forall s, last pieces = Some s -> 1 <= Z.of_nat (length s) <= n)
    /\ mjoin pieces = buffer
    /\ (buffer = [] -> pieces = []).
Proof.
  intros Hn.
  destruct (splitByBytes_spec buffer n Hn) as (pieces & Hrun & Hjoin & [Hfull Hlast] & Hnil).
  exists pieces. split_and!; try done.
  - intros i s Hs Hi. rewrite (Hfull i s Hs Hi). lia.
  - intros s Hs. specialize (Hlast s Hs). lia.
Qed.

Lemma C3_witness :
  1 <= 2 /\
  exists pieces,
    Split.splitByBytes [x01; x02; x03; x04; x05] 2 = Ok pieces
    /\ mjoin pieces = [x01; x02; x03; x04; x05].
Proof.
  split; [lia|].
  destruct (C3_splitByBytes_partitions [x01; x02; x03; x04; x05] 2)
    as (pieces & Hrun & _ & _ & Hjoin & _); [lia|].
  exists pieces. split; [exact Hrun|exact Hjoin].
Defined.

(** ** C9: what the splitter rejects *)

Section check_facts.
Context {rt : Runtime}.

Lemma checkOptions_size by_bytes size :
  Split.checkOptions (Split.Object (size_options by_bytes size))
  = n ← Split.check_size size; Ok (size_options by_bytes n).
Proof. destruct by_bytes; cbn; by destruct (Split.check_size size). Qed.

Lemma isSafe_Fin q :
  Split.isSafe (VNumber (Fin q)) = true
  <-> (inject_Z MIN_SAFE_INTEGER <= q)%Q /\ (q <= inject_Z MAX_SAFE_INTEGER)%Q.
Proof.
  unfold Split.isSafe. cbn [ToNumber num_le num_of_Z].
  by rewrite andb_true_iff, !Qle_bool_iff.
Qed.

Lemma js_lt_Fin q z :
  js_lt (VNumber (Fin q)) (num_of_Z z) = true <-> (q < inject_Z z)%Q.
Proof.
  unfold js_lt. cbn [ToNumber num_lt num_of_Z].
  rewrite negb_true_iff, <- not_true_iff_false, Qle_bool_iff.
  split; [apply Qnot_le_lt|apply Qlt_not_le].
Qed.

(** A number of at least one within the safe range is accepted and rounded
    down, whether or not it is an integer. *)
Lemma check_size_number_ok q :
  (1 <= q)%Q -> (q <= inject_Z MAX_SAFE_INTEGER)%Q ->
  Split.check_size (VNumber (Fin q)) = Ok (Qfloor q).
Proof.
  intros Hlo Hhi. unfold Split.check_size. cbn [isNaN ToNumber].
  assert (Split.isSafe (VNumber (Fin q)) = true) as ->.
  { apply isSafe_Fin. split; [|done]. eapply Qle_trans; [|exact Hlo]. done. }
  destruct (js_lt (VNumber (Fin q)) (num_of_Z 1)) eqn:Hlt; [|done].
  apply js_lt_Fin in Hlt. by apply Qlt_not_le in Hlt.
Qed.

Lemma check_size_number_small q :
  (q < 1)%Q -> Split.check_size (VNumber (Fin q)) = Throw (Error "Invalid number of bytes").
Proof.
  intros Hlt. unfold Split.check_size. cbn [isNaN ToNumber].
  assert (js_lt (VNumber (Fin q)) (num_of_Z 1) = true) as -> by (by apply js_lt_Fin).
  by rewrite orb_true_r.
Qed.

Lemma check_size_number_large q :
  (inject_Z MAX_SAFE_INTEGER < q)%Q ->
  Split.check_size (VNumber (Fin q)) = Throw (Error "Invalid number of bytes").
Proof.
  intros Hgt. unfold Split.check_size. cbn [isNaN ToNumber].
  destruct (Split.isSafe (VNumber (Fin q))) eqn:Hsafe; [|done].
  apply isSafe_Fin in Hsafe as [_ Hle]. by apply Qlt_not_le in Hgt.
Qed.

Lemma check_size_not_finite x :
  x = NaN \/ x = PosInf \/ x = NegInf ->
  Split.check_size (VNumber x) = Throw (Error "Invalid number of bytes").
Proof. by intros [-> | [-> | ->]]. Qed.

Lemma check_size_string_invalid s :
  StringToNumber s = NaN -> Split.shorthand s = None ->
  Split.check_size (VString s) = Throw (Error "Invalid number of bytes").
Proof.
  intros Hnan Hshort. unfold Split.check_size, isNaN. cbn [ToNumber Split.exec_shorthand].
  by rewrite Hnan, Hshort.
Qed.

End check_facts.

(** C9, as the code has it.  The splitter throws when more than one of
    [lines], [bytes] and [line_bytes] is given and when none is; and, for a
    size given as [bytes] or [line_bytes], when the size is a number that is
    [NaN], infinite, below [1] or above [2^53 - 1], or a string that is
    neither numeric nor of the form digits followed by [K], [M], [KB] or
    [MB].  A number from [1] to [2^53 - 1] is accepted whether or not it is
    an integer, and is rounded down. *)
Theorem C9_splitter_rejects_bad_configuration {rt : Runtime} (buffer : Buffer) :
  (forall o : Split.raw_options,
     (is_Some (Split.lines o) /\ is_Some (Split.bytes o))
     \/ (is_Some (Split.bytes o) /\ is_Some (Split.line_bytes o))
     \/ (is_Some (Split.lines o) /\ is_Some (Split.line_bytes o)) ->
     Split.splitSync buffer (Split.Object o)
     = Throw (Error "Cannot split in more than one way"))
  /\ (forall o : Split.raw_options,
        Split.lines o = None -> Split.bytes o = None -> Split.line_bytes o = None ->
        Split.splitSync buffer (Split.Object o)
        = Throw (Error "Splitting way is not specified"))
  /\ (forall by_bytes size,
        (exists x, size = VNumber x /\ (x = NaN \/ x = PosInf \/ x = NegInf))
        \/ (exists q, size = VNumber (Fin q)
                      /\ ((q < 1)%Q \/ (inject_Z MAX_SAFE_INTEGER < q)%Q))
        \/ (exists s, size = VString s /\ StringToNumber s = NaN /\ Split.shorthand s = None) ->
        Split.splitSync buffer (Split.Object (size_options by_bytes size))
        = Throw (Error "Invalid number of bytes"))
  /\ (forall by_bytes q,
        (1 <= q)%Q -> (q <= inject_Z MAX_SAFE_INTEGER)%Q ->
        Split.checkOptions (Split.Object (size_options by_bytes (VNumber (Fin q))))
        = Ok (size_options by_bytes (Qfloor q))).
Proof.
  split_and!.
  - intros [[l|] [b|] [lb|]] Hmodes; try done; exfalso;
      destruct Hmodes as [[H1 H2]|[[H1 H2]|[H1 H2]]];
      first [by apply is_Some_None in H1 | by apply is_Some_None in H2].
  - intros [l b lb]; cbn; by intros -> -> ->.
  - intros by_bytes size Hbad. unfold Split.splitSync.
    rewrite checkOptions_size.
    assert (Split.check_size size = Throw (Error "Invalid number of bytes")) as ->; [|done].
    destruct Hbad as [(x & -> & Hx)|[(q & -> & [Hq|Hq])|(s & -> & Hnan & Hshort)]].
    + by apply check_size_not_finite.
    + by apply check_size_number_small.
    + by apply check_size_number_large.
    + by apply check_size_string_invalid.
  - intros by_bytes q Hlo Hhi.
    by rewrite checkOptions_size, check_size_number_ok.
Qed.

Lemma C9_witness :
  Split.splitSync (rt := Sample.runtime Sample.zero_pool) [x01; x02; x03]
    (Split.Object {| Split.lines := Some (VNumber (num_of_Z 1));
                     Split.bytes := Some (VNumber (num_of_Z 2));
                     Split.line_bytes := None |})
  = Throw (Error "Cannot split in more than one way")
  /\ Split.splitSync (rt := Sample.runtime Sample.zero_pool) [x01; x02; x03]
       (Split.Object (size_options true (VNumber (Fin (1 # 2)))))
     = Throw (Error "Invalid number of bytes")
  /\ Split.checkOptions (rt := Sample.runtime Sample.zero_pool)
       (Split.Object (size_options true (VNumber (Fin (5 # 2)))))
     = Ok (size_options true 2).
Proof.
  destruct (C9_splitter_rejects_bad_configuration
              (rt := Sample.runtime Sample.zero_pool) [x01; x02; x03])
    as (Hmany & _ & Hsize & Hok).
  split_and!.
  - apply Hmany. left. split; eexists; reflexivity.
  - apply Hsize. right. left. exists (1 # 2). split; [reflexivity|]. left. reflexivity.
  - apply (Hok true (5 # 2)); discriminate.
Defined.

(** A size that is not an integer does not make the splitter fail: [2.5]
    splits by two bytes. *)
Lemma C9_counterexample :
  Split.splitSync (rt := Sample.runtime Sample.zero_pool) [x01; x02; x03]
    (Split.Object {| Split.lines := None;
                     Split.bytes := Some (VNumber (Fin (5 # 2)));
                     Split.line_bytes := None |})
  = Ok [[x01; x02]; [x03]].
Proof. reflexivity. Qed.

(** ** Padding *)

Section pad_facts.
Context {rt : Runtime}.
Implicit Types (s buf value : Buffer) (n k : nat).

Lemma inject_Z_le a b : a <= b -> (inject_Z a <= inject_Z b)%Q.
Proof. by rewrite <- Zle_Qle. Qed.

Lemma Qfloor_inject_Z z : Qfloor (inject_Z z) = z.
Proof. apply Qfloor_Z. Qed.

Lemma num_le_of_Z a b : num_le (num_of_Z a) (num_of_Z b) = true <-> a <= b.
Proof. unfold num_le, num_of_Z. by rewrite Qle_bool_iff, <- Zle_Qle. Qed.

Lemma num_lt_of_Z a b : num_lt (num_of_Z a) (num_of_Z b) = true <-> a < b.
Proof.
  unfold num_lt, num_of_Z.
  rewrite negb_true_iff, <- not_true_iff_false, Qle_bool_iff, <- Zle_Qle. lia.
Qed.

Lemma Buffer_alloc_ok z :
  0 <= z <= kMaxLength ->
  Buffer_alloc (VNumber (num_of_Z z)) = Ok (replicate (Z.to_nat z) x00).
Proof.
  intros [Hlo Hhi]. unfold Buffer_alloc.
  apply num_le_of_Z in Hlo, Hhi. rewrite Hlo, Hhi.
  cbn [andb Math_floor num_of_Z]. by rewrite Qfloor_inject_Z.
Qed.

(** A buffer that [Buffer.alloc] returns has as many bytes as the whole
    part of the size asked for. *)
Lemma Buffer_alloc_length size buf :
  Buffer_alloc size = Ok buf ->
  exists x, size = VNumber x /\ num_le (num_of_Z 0) x = true
            /\ length buf = Z.to_nat (Math_floor x).
Proof.
  unfold Buffer_alloc. destruct size as [x|s]; [|done].
  destruct (num_le (num_of_Z 0) x) eqn:Hlo; [|done].
  destruct (num_le x (num_of_Z kMaxLength)); [|done].
  intros [= <-]. exists x. by rewrite length_replicate.
Qed.

Lemma validateOffset_nat k :
  validateOffset (VNumber (num_of_Z (Z.of_nat k))) = Ok k.
Proof.
  unfold validateOffset, num_of_Z. rewrite Qfloor_inject_Z.
  assert (Qeq_bool (inject_Z (Z.of_nat k)) (inject_Z (Z.of_nat k)) = true) as ->
    by (by apply Qeq_bool_iff).
  destruct (Z.leb_spec 0 (Z.of_nat k)); [|lia].
  cbn [andb]. by rewrite Nat2Z.id.
Qed.

Lemma length_cyclic value n : value <> [] -> length (cyclic value n) = n.
Proof.
  intros Hvalue. unfold cyclic. apply length_take_le.
  rewrite length_join, fmap_replicate, sum_list_replicate.
  destruct value; [done|]. simpl. nia.
Qed.

Lemma cyclic_take value n : value <> [] -> (n <= length value)%nat -> cyclic value n = take n value.
Proof.
  intros Hvalue Hn. unfold cyclic.
  destruct n as [|n]; [done|].
  cbn [replicate mjoin list_join]. by rewrite take_app_le.
Qed.

Lemma cyclic_prefix value n :
  value <> [] -> (length value <= n)%nat -> take (length value) (cyclic value n) = value.
Proof.
  intros Hvalue Hn. unfold cyclic.
  destruct n as [|n]; [destruct value; [done|simpl in Hn; lia]|].
  cbn [replicate mjoin list_join].
  rewrite take_take, Nat.min_l by done. by rewrite take_app_length.
Qed.

(** [fill] keeps the length of the buffer. *)
Lemma Buffer_fill_length buf value offset buf' :
  Buffer_fill buf value offset = Ok buf' -> length buf' = length buf.
Proof.
  unfold Buffer_fill. destruct (fill_start offset) as [off| |]; [|done..].
  cbn [mbind result_bind].
  destruct (decide (length buf <= off)%nat); [by intros [= <-]|].
  destruct value as [|b value]; [done|]. intros [= <-].
  rewrite length_app, length_take_le, length_cyclic by (done || lia). lia.
Qed.

Lemma Buffer_fill_byte_length buf b offset buf' :
  Buffer_fill_byte buf b offset = Ok buf' -> length buf' = length buf.
Proof.
  unfold Buffer_fill_byte. destruct (fill_start offset) as [off| |]; [|done..].
  cbn [mbind result_bind].
  destruct (decide (length buf <= off)%nat); [by intros [= <-]|]. intros [= <-].
  rewrite length_app, length_take_le, length_replicate by lia. lia.
Qed.

(** [bufN.fill(s)] on a fresh buffer. *)
Lemma fill_with_piece n s :
  s <> [] -> (1 <= n)%nat ->
  Buffer_fill (replicate n x00) s None = Ok (cyclic s n).
Proof.
  intros Hs Hn. unfold Buffer_fill. cbn [fill_start mbind result_bind].
  rewrite length_replicate.
  destruct (decide (n <= 0)%nat); [lia|].
  destruct s; [done|]. by rewrite Nat.sub_0_r.
Qed.

(** *** The function mapped over the pieces *)

(** Without random fill, or on a piece that is already full, the piece is
    followed by zero bytes up to the size. *)
Lemma pad_zero size n s rnd draws :
  Buffer_alloc size = Ok (replicate n x00) ->
  s <> [] -> (length s <= n)%nat -> rnd = false \/ length s = n ->
  Dag.pad size rnd s draws = Ok (s ++ replicate (n - length s) x00, draws).
Proof.
  intros Halloc Hs Hlen Hzero.
  assert (1 <= n)%nat by (destruct s; [done|simpl in Hlen; lia]).
  unfold Dag.pad. rewrite Halloc. cbn [mbind result_bind].
  rewrite fill_with_piece by done. cbn [mbind result_bind].
  rewrite length_cyclic by done.
  assert (rnd && bool_decide (length s < n)%nat = false) as ->.
  { destruct Hzero as [->| ->]; [done|].
    rewrite bool_decide_eq_false_2 by lia. apply andb_false_r. }
  unfold Buffer_fill_byte. cbn [fill_start]. rewrite validateOffset_nat.
  cbn [mbind result_bind]. rewrite length_cyclic by done.
  destruct (decide (n <= length s)%nat) as [Hfull|Hshort].
  - assert (n = length s) as -> by lia.
    rewrite cyclic_take by done. by rewrite take_ge, Nat.sub_diag, app_nil_r.
  - by rewrite cyclic_prefix.
Qed.

Lemma max_pos : 0 < Dag.max.
Proof. done. Qed.

Lemma drawn_block_not_nil draws : drawn_block draws <> [].
Proof.
  unfold drawn_block. pose proof max_pos.
  destruct (Z.to_nat Dag.max) eqn:Hmax; [lia|done].
Qed.

Lemma alloc_pool :
  Dag.max <= kMaxLength ->
  Buffer_alloc (VNumber (num_of_Z Dag.max)) = Ok (replicate (Z.to_nat Dag.max) x00).
Proof. intros Hmax. apply Buffer_alloc_ok. pose proof max_pos. lia. Qed.

Lemma draw_pool draws :
  getRandomValues (replicate (Z.to_nat Dag.max) x00) draws = (drawn_block draws, S draws).
Proof. unfold getRandomValues, drawn_block. by rewrite length_replicate. Qed.

Lemma fill_from_start k block :
  block <> [] -> (1 <= k)%nat ->
  Buffer_fill (replicate k x00) block (Some (VNumber (num_of_Z 0))) = Ok (cyclic block k).
Proof.
  intros Hblock Hk. unfold Buffer_fill. cbn [fill_start].
  change (num_of_Z 0) with (num_of_Z (Z.of_nat 0)). rewrite validateOffset_nat.
  cbn [mbind result_bind]. rewrite length_replicate.
  destruct (decide (k <= 0)%nat); [lia|].
  destruct block; [done|]. by rewrite Nat.sub_0_r.
Qed.

(** [fill] refuses an offset that is a string. *)
Lemma fill_string_offset buf value offset :
  Buffer_fill buf value (Some (VString offset)) = Throw (TypeError ERR_INVALID_ARG_TYPE).
Proof. done. Qed.

(** [randomFill] makes one pass and returns, unless the offset it has then
    compares below the number of bytes: in that case the second pass
    throws. *)
Lemma randomFill_outcome k draws :
  (1 <= k)%nat -> Z.of_nat k <= kMaxLength -> Dag.max <= kMaxLength ->
  Dag.randomFill k draws =
  if js_lt (offset_after k draws) (num_of_Z (Z.of_nat k))
  then Throw (TypeError ERR_INVALID_ARG_TYPE)
  else Ok (first_pass k draws, S draws).
Proof.
  intros Hk Hfit Hmax. unfold Dag.randomFill, offset_after, first_pass.
  rewrite Buffer_alloc_ok by lia. cbn [mbind result_bind]. rewrite Nat2Z.id.
  cbn [Dag.randomFill_loop].
  assert (js_lt (VNumber (num_of_Z 0)) (num_of_Z (Z.of_nat k)) = true) as ->.
  { unfold js_lt. cbn [ToNumber]. apply num_lt_of_Z. lia. }
  rewrite alloc_pool by done. cbn [mbind result_bind]. rewrite !draw_pool.
  rewrite fill_from_start by (done || apply drawn_block_not_nil).
  cbn [mbind result_bind].
  destruct (js_lt (Dag.js_add (VNumber (num_of_Z 0)) (cyclic (drawn_block draws) k))
              (num_of_Z (Z.of_nat k))); [|done].
  unfold Dag.js_add. by rewrite fill_string_offset.
Qed.

Lemma length_first_pass k draws : length (first_pass k draws) = k.
Proof. apply length_cyclic, drawn_block_not_nil. Qed.

(** With random fill, a short piece is followed by what [randomFill]
    returned. *)
Lemma pad_random size n s draws :
  Buffer_alloc size = Ok (replicate n x00) ->
  s <> [] -> (length s < n)%nat ->
  Z.of_nat n <= kMaxLength -> Dag.max <= kMaxLength ->
  Dag.pad size true s draws =
  if js_lt (offset_after (n - length s) draws) (num_of_Z (Z.of_nat (n - length s)))
  then Throw (TypeError ERR_INVALID_ARG_TYPE)
  else Ok (s ++ first_pass (n - length s) draws, S draws).
Proof.
  intros Halloc Hs Hlen Hfit Hmax.
  unfold Dag.pad. rewrite Halloc. cbn [mbind result_bind].
  rewrite fill_with_piece by (done || lia). cbn [mbind result_bind].
  rewrite length_cyclic by done.
  rewrite bool_decide_eq_true_2 by done. cbn [andb].
  rewrite randomFill_outcome by lia.
  destruct (js_lt _ _); [done|]. cbn [mbind result_bind].
  unfold Buffer_fill. cbn [fill_start]. rewrite validateOffset_nat.
  cbn [mbind result_bind]. rewrite length_cyclic by done.
  destruct (decide (n <= length s)%nat); [lia|].
  pose proof (length_first_pass (n - length s) draws) as Hnoise.
  destruct (first_pass (n - length s) draws) as [|b noise] eqn:Hfirst;
    [simpl in Hnoise; lia|].
  rewrite cyclic_prefix by (done || lia).
  rewrite cyclic_take by (done || lia).
  by rewrite <- Hnoise, firstn_all.
Qed.

Lemma Buffer_alloc_Fin q :
  (0 <= q)%Q -> (q <= inject_Z kMaxLength)%Q ->
  Buffer_alloc (VNumber (Fin q)) = Ok (replicate (Z.to_nat (Qfloor q)) x00).
Proof.
  intros Hlo Hhi. unfold Buffer_alloc, num_le, num_of_Z.
  change (inject_Z 0) with 0%Q.
  apply Qle_bool_iff in Hlo, Hhi. by rewrite Hlo, Hhi.
Qed.

(** Whatever the flags, a padded piece is as long as the buffer
    [Buffer.alloc] returned. *)
Lemma pad_length size rnd s draws buf draws' :
  Dag.pad size rnd s draws = Ok (buf, draws') ->
  exists x, size = VNumber x /\ num_le (num_of_Z 0) x = true
            /\ length buf = Z.to_nat (Math_floor x).
Proof.
  unfold Dag.pad.
  destruct (Buffer_alloc size) as [bufN| |] eqn:Halloc; [|done..].
  apply Buffer_alloc_length in Halloc as (x & -> & Hpos & Hlen).
  cbn [mbind result_bind].
  destruct (Buffer_fill bufN s None) as [buf1| |] eqn:Hfill1; [|done..].
  apply Buffer_fill_length in Hfill1. cbn [mbind result_bind].
  intros Hrun. exists x. split_and!; [done..|].
  rewrite <- Hlen, <- Hfill1.
  destruct (rnd && bool_decide (length s < length buf1)%nat).
  - destruct (Dag.randomFill (length buf1 - length s) draws) as [[noise d1]| |]; [|done..].
    cbn [mbind result_bind] in Hrun.
    destruct (Buffer_fill buf1 noise _) as [buf2| |] eqn:Hfill2; [|done..].
    apply Buffer_fill_length in Hfill2. by simplify_eq/=.
  - destruct (Buffer_fill_byte buf1 x00 _) as [buf2| |] eqn:Hfill2; [|done..].
    apply Buffer_fill_byte_length in Hfill2. by simplify_eq/=.
Qed.

Lemma map_pad_length size rnd pieces draws bufs draws' :
  Dag.map_pad size rnd pieces draws = Ok (bufs, draws') ->
  length bufs = length pieces
  /\ (pieces <> [] ->
      exists x, size = VNumber x /\ num_le (num_of_Z 0) x = true
                /\ Forall (fun buf => length buf = Z.to_nat (Math_floor x)) bufs).
Proof.
  revert draws bufs draws'.
  induction pieces as [|s pieces IH]; intros draws bufs draws' Hrun.
  - simplify_eq/=. done.
  - cbn [Dag.map_pad] in Hrun.
    destruct (Dag.pad size rnd s draws) as [[buf d1]| |] eqn:Hpad; [|done..].
    cbn [mbind result_bind] in Hrun.
    destruct (Dag.map_pad size rnd pieces d1) as [[others d2]| |] eqn:Hrest; [|done..].
    simplify_eq/=.
    destruct (IH _ _ _ Hrest) as [Hlen Hall].
    split; [by rewrite Hlen|]. intros _.
    apply pad_length in Hpad as (x & -> & Hpos & Hbuf).
    exists x. split_and!; [done..|].
    constructor; [done|].
    destruct pieces as [|p pieces]; [by destruct others|].
    destruct Hall as (x' & [= <-] & _ & Hall); done.
Qed.

(** Without random fill every piece gets its zero bytes, and the entropy
    pool is left alone. *)
Lemma map_pad_zero size n pieces draws :
  Buffer_alloc size = Ok (replicate n x00) ->
  Forall (fun s => s <> [] /\ (length s <= n)%nat) pieces ->
  Dag.map_pad size false pieces draws = Ok (zero_padded n pieces, draws).
Proof.
  intros Halloc Hall. induction Hall as [|s pieces [Hs Hlen] _ IH]; [done|].
  cbn [Dag.map_pad]. rewrite (pad_zero size n) by auto.
  cbn [mbind result_bind]. by rewrite IH.
Qed.

Lemma hasher_or_effective h H :
  effective_hash h = Some H -> Tree.hasher_or h Tree.DEFAULT_HASH_FUNC = Tree.HashFunction H.
Proof. destruct h; intros [= <-]; done. Qed.

(** *** The constructor of the DAG *)

Lemma new_dag shards_ opts H :
  effective_hash (Dag.opts_hashFunc opts) = Some H ->
  exists tree,
    Tree.new (Tree.LeavesArray (H <$> shards_)) (Tree.HashFunction H) = Ok tree
    /\ Dag.new shards_ opts
       = Ok {| Dag.shards := shards_;
               Dag.leaves := H <$> shards_;
               Dag.merkle := tree;
               Dag.entries := Dag.make_entries (H <$> shards_) shards_;
               Dag.sliceIndex := default (Dag.byteLength shards_) (Dag.opts_sliceIndex opts) |}.
Proof.
  intros Hh. apply hasher_or_effective in Hh.
  destruct (new_dense H (H <$> shards_) (Tree.HashFunction H)) as (tree & Hnew & _); [done|].
  exists tree. split; [done|].
  unfold Dag.new. cbn [Dag.DEFAULT_OPTS Dag.opts_hashFunc Dag.opts_sliceIndex].
  rewrite Hh. cbn [Dag.map_hasher mbind result_bind]. rewrite Hnew.
  cbn [mbind result_bind]. by destruct (Dag.opts_sliceIndex opts).
Qed.

Lemma new_dag_shards shards_ opts d :
  Dag.new shards_ opts = Ok d -> Dag.shards d = shards_.
Proof.
  unfold Dag.new.
  destruct (Dag.map_hasher _ shards_) as [leaves_| |]; [|done..].
  cbn [mbind result_bind].
  destruct (Tree.new _ _) as [tree| |]; [|done..].
  by intros [= <-].
Qed.

(** *** [fromBuffer] *)

Lemma uniform_pieces_bounds n pieces :
  (1 <= n)%nat -> uniform_pieces n pieces ->
  Forall (fun s => s <> [] /\ (length s <= n)%nat) pieces.
Proof.
  intros Hn [Hfull Hlast]. apply Forall_lookup. intros i s Hs.
  assert (1 <= length s <= n)%nat as Hbound.
  { destruct (decide (S i < length pieces)%nat) as [Hi|Hi].
    - rewrite (Hfull i s Hs Hi). lia.
    - apply Hlast. rewrite last_lookup.
      pose proof (lookup_lt_Some _ _ _ Hs).
      by replace (pred (length pieces)) with i by lia. }
  split; [|lia]. intros ->. simpl in Hbound. lia.
Qed.

Lemma Qfloor_ge_1 q : (1 <= q)%Q -> 1 <= Qfloor q.
Proof. intros Hq. apply Qfloor_resp_le in Hq. exact Hq. Qed.

Lemma splitSync_bytes_number buffer q :
  (1 <= q)%Q -> (q <= inject_Z MAX_SAFE_INTEGER)%Q ->
  Split.splitSync buffer (Split.Object (size_options true (VNumber (Fin q))))
  = Split.splitByBytes buffer (Qfloor q).
Proof.
  intros Hlo Hhi. unfold Split.splitSync.
  by rewrite checkOptions_size, check_size_number_ok.
Qed.

(** With a size from [1] to [2^53 - 1] that a buffer may have, a callable or
    absent hasher and no random fill, [fromBuffer] returns, and this is what
    it returns. *)
Lemma fromBuffer_zero_fill buffer q h H padLastSlice draws :
  (1 <= q)%Q -> (q <= inject_Z MAX_SAFE_INTEGER)%Q -> (q <= inject_Z kMaxLength)%Q ->
  effective_hash h = Some H ->
  exists pieces tree,
    Split.splitByBytes buffer (Qfloor q) = Ok pieces
    /\ Tree.new (Tree.LeavesArray (H <$> zero_padded (Z.to_nat (Qfloor q)) pieces))
         (Tree.HashFunction H) = Ok tree
    /\ Dag.fromBuffer buffer (Some (VNumber (Fin q))) h padLastSlice false draws
       = Ok ({| Dag.shards := zero_padded (Z.to_nat (Qfloor q)) pieces;
                Dag.leaves := H <$> zero_padded (Z.to_nat (Qfloor q)) pieces;
                Dag.merkle := tree;
                Dag.entries :=
                  Dag.make_entries (H <$> zero_padded (Z.to_nat (Qfloor q)) pieces)
                    (zero_padded (Z.to_nat (Qfloor q)) pieces);
                Dag.sliceIndex := Z.of_nat (length buffer) |}, draws).
Proof.
  intros Hlo Hhi Hfit Hh.
  pose proof (Qfloor_ge_1 q Hlo) as Hn.
  destruct (splitByBytes_spec buffer (Qfloor q) Hn) as (pieces & Hsplit & _ & Huni & _).
  apply uniform_pieces_bounds in Huni; [|lia].
  destruct (new_dag (zero_padded (Z.to_nat (Qfloor q)) pieces)
              {| Dag.opts_sliceIndex := Some (Z.of_nat (length buffer));
                 Dag.opts_hashFunc := Tree.hasher_or h Tree.DEFAULT_HASH_FUNC |} H)
    as (tree & Htree & Hdag).
  { cbn [Dag.opts_hashFunc]. by rewrite (hasher_or_effective h H). }
  exists pieces, tree. split_and!; [done..|].
  unfold Dag.fromBuffer. cbn [from_option id].
  change {| Split.lines := None; Split.bytes := Some (VNumber (Fin q));
            Split.line_bytes := None |}
    with (size_options true (VNumber (Fin q))).
  rewrite splitSync_bytes_number, Hsplit by done. cbn [mbind result_bind].
  rewrite (map_pad_zero _ (Z.to_nat (Qfloor q))); [| |done].
  2:{ apply Buffer_alloc_Fin; [|done]. eapply Qle_trans; [|exact Hlo]. done. }
  cbn [mbind result_bind]. rewrite Hdag. done.
Qed.

(** The shards of any DAG that [fromBuffer] returns are padded pieces. *)
Lemma fromBuffer_shards buffer size h padLastSlice rnd draws d draws' :
  Dag.fromBuffer buffer size h padLastSlice rnd draws = Ok (d, draws') ->
  exists pieces,
    Split.splitSync buffer
      (Split.Object (size_options true (default Dag.DEFAULT_INPUT_SIZE size))) = Ok pieces
    /\ Dag.map_pad (default Dag.DEFAULT_INPUT_SIZE size) rnd pieces draws
       = Ok (Dag.shards d, draws').
Proof.
  unfold Dag.fromBuffer. fold (size_options true (default Dag.DEFAULT_INPUT_SIZE size)).
  destruct (Split.splitSync buffer _) as [pieces| |]; [|done..].
  cbn [mbind result_bind].
  destruct (Dag.map_pad _ rnd pieces draws) as [[shards_ d1]| |] eqn:Hmap; [|done..].
  cbn [mbind result_bind].
  destruct (Dag.new shards_ _) as [dag| |] eqn:Hnew; [|done..].
  intros [= <- <-]. exists pieces. split; [done|].
  by rewrite (new_dag_shards _ _ _ Hnew).
Qed.

End pad_facts.

(** ** C5: what padding returns *)

(** The padding of a piece [s] of at most [n] bytes, in full.  Zero fill
    returns [s] followed by [n - |s|] zero bytes.  Random fill on a piece
    that is already full returns it as it is; on a shorter piece it returns
    [s] followed by the [n - |s|] bytes of the first pass of [randomFill],
    unless the offset left by that pass compares below [n - |s|], in which
    case it throws. *)
Lemma padding_outcomes {rt : Runtime} (n : nat) (s : Buffer) (draws : nat) :
  s <> [] -> (length s <= n)%nat ->
  Z.of_nat n <= kMaxLength -> Dag.max <= kMaxLength ->
  Dag.pad (VNumber (num_of_Z (Z.of_nat n))) false s draws
  = Ok (s ++ replicate (n - length s) x00, draws)
  /\ Dag.pad (VNumber (num_of_Z (Z.of_nat n))) true s draws
     = (if decide (length s = n) then Ok (s, draws)
        else if js_lt (offset_after (n - length s) draws)
                  (num_of_Z (Z.of_nat (n - length s)))
        then Throw (TypeError ERR_INVALID_ARG_TYPE)
        else Ok (s ++ first_pass (n - length s) draws, S draws))
  /\ length (first_pass (n - length s) draws) = (n - length s)%nat.
Proof.
  intros Hs Hlen Hfit Hmax.
  assert (Buffer_alloc (VNumber (num_of_Z (Z.of_nat n))) = Ok (replicate n x00)) as Halloc.
  { rewrite Buffer_alloc_ok by lia. by rewrite Nat2Z.id. }
  split_and!.
  - apply (pad_zero _ n); auto.
  - destruct (decide (length s = n)) as [Heq|Hne].
    + rewrite (pad_zero _ n) by auto. by rewrite Heq, Nat.sub_diag, app_nil_r.
    + apply pad_random; [done..|lia|done|done].
  - apply length_first_pass.
Qed.

(** C5, where the code departs from it.  A buffer of one byte, a slice size
    of two, random fill, on a host whose entropy pool yields the character
    [0]: the first pass of [randomFill] leaves the offset ["00"], which is
    below one, and the second pass hands that string to [fill].
    [fromBuffer] throws instead of returning the shard. *)
Theorem C5_random_fill_throws_on_numeric_noise :
  Dag.fromBuffer (rt := Sample.runtime Sample.digit_pool) [x01]
    (Some (VNumber (num_of_Z 2))) Tree.HashFalsy false true 0
  = Throw (TypeError ERR_INVALID_ARG_TYPE).
Proof. reflexivity. Qed.

(** On the same input, with a pool of the letter [A], the shard is the byte
    followed by one byte of the pool. *)
Example random_fill_returns_on_other_noise :
  Dag.shards <$> (fst <$> Dag.fromBuffer (rt := Sample.runtime (fun _ _ => x41)) [x01]
                            (Some (VNumber (num_of_Z 2))) Tree.HashFalsy false true 0)
  = Ok [[x01; x41]].
Proof. reflexivity. Qed.

(** ** C2: zero fill is deterministic *)

Lemma pad_zero_fill_host rt1 rt2 size s draws1 draws2 :
  @kMaxLength rt1 = @kMaxLength rt2 ->
  fst <$> Dag.pad (rt := rt1) size false s draws1
  = fst <$> Dag.pad (rt := rt2) size false s draws2
  /\ (forall buf draws', Dag.pad (rt := rt1) size false s draws1 = Ok (buf, draws') ->
      draws' = draws1).
Proof.
  intros Hmax. unfold Dag.pad, Buffer_alloc. rewrite Hmax.
  destruct size as [x|str]; [|done].
  destruct (num_le (num_of_Z 0) x && num_le x (num_of_Z kMaxLength)); [|done].
  cbn [mbind result_bind andb].
  destruct (Buffer_fill _ s None) as [buf1| |]; [|done..].
  cbn [mbind result_bind].
  destruct (Buffer_fill_byte buf1 x00 _) as [buf2| |]; [|done..].
  split; [done|]. by intros buf draws' [= _ <-].
Qed.

Lemma map_pad_zero_fill_host rt1 rt2 size pieces draws1 draws2 :
  @kMaxLength rt1 = @kMaxLength rt2 ->
  fst <$> Dag.map_pad (rt := rt1) size false pieces draws1
  = fst <$> Dag.map_pad (rt := rt2) size false pieces draws2.
Proof.
  intros Hmax. revert draws1 draws2.
  induction pieces as [|s pieces IH]; intros draws1 draws2; [done|].
  cbn [Dag.map_pad].
  destruct (pad_zero_fill_host rt1 rt2 size s draws1 draws2 Hmax) as [Hpad _].
  destruct (Dag.pad (rt := rt1) size false s draws1) as [[b1 d1]| |],
           (Dag.pad (rt := rt2) size false s draws2) as [[b2 d2]| |];
    simplify_eq/=; try done.
  specialize (IH d1 d2).
  destruct (Dag.map_pad (rt := rt1) size false pieces d1) as [[o1 e1]| |],
           (Dag.map_pad (rt := rt2) size false pieces d2) as [[o2 e2]| |];
    simplify_eq/=; done.
Qed.

(** Without random fill the outcome of [fromBuffer] does not depend on the
    entropy pool, on the draws made before, or on [padLastSlice]. *)
Lemma fromBuffer_zero_fill_host rt1 rt2 buffer size h pad1 pad2 draws1 draws2 :
  same_host_but_entropy rt1 rt2 ->
  fst <$> Dag.fromBuffer (rt := rt1) buffer size h pad1 false draws1
  = fst <$> Dag.fromBuffer (rt := rt2) buffer size h pad2 false draws2.
Proof.
  intros (Hsha & Hnum & Hmax).
  assert (forall o, Split.splitSync (rt := rt1) buffer o = Split.splitSync (rt := rt2) buffer o)
    as Hsplit.
  { intros o. unfold Split.splitSync, Split.checkOptions, Split.check_lines, Split.check_size,
      Split.isSafe, isNaN, js_lt, ToNumber. by rewrite Hnum. }
  assert (forall shards_ opts, Dag.new (rt := rt1) shards_ opts = Dag.new (rt := rt2) shards_ opts)
    as Hnew.
  { intros shards_ opts. unfold Dag.new, Dag.DEFAULT_OPTS, Tree.new, Tree.DEFAULT_HASH_FUNC.
    by rewrite Hsha. }
  unfold Dag.fromBuffer, Tree.DEFAULT_HASH_FUNC. rewrite Hsplit, Hsha.
  destruct (Split.splitSync (rt := rt2) buffer _) as [pieces| |]; [|done..].
  cbn [mbind result_bind].
  pose proof (map_pad_zero_fill_host rt1 rt2 (default Dag.DEFAULT_INPUT_SIZE size)
                pieces draws1 draws2 Hmax) as Hmap.
  destruct (Dag.map_pad (rt := rt1) _ false pieces draws1) as [[s1 d1]| |],
           (Dag.map_pad (rt := rt2) _ false pieces draws2) as [[s2 d2]| |];
    simplify_eq/=; try done.
  rewrite Hnew. by destruct (Dag.new (rt := rt2) s2 _).
Qed.

(** C2.  Take any buffer [b], any positive size [n] and any hasher, and
    build a DAG twice with zero fill, on hosts that may differ in their
    entropy pool, after any number of draws and with any [padLastSlice].
    Both constructions have the same outcome; when they return DAGs, these
    have the same leaves, the same root and the same [originalLength], and
    [toMetadata] with the same name returns the same string for both, so in
    particular for two calls on one DAG.  With a size up to [2^53 - 1]
    that a buffer may have and a callable or absent hasher they do return
    DAGs. *)
Theorem C2_zero_fill_construction_is_deterministic
    (rt1 rt2 : Runtime) (b : Buffer) (n : Q) (h : Tree.hasher_arg)
    (pad1 pad2 : bool) (draws1 draws2 : nat) :
  same_host_but_entropy rt1 rt2 -> (0 < n)%Q ->
  (fst <$> Dag.fromBuffer (rt := rt1) b (Some (VNumber (Fin n))) h pad1 false draws1
   = fst <$> Dag.fromBuffer (rt := rt2) b (Some (VNumber (Fin n))) h pad2 false draws2)
  /\ (forall d1 d2 draws1' draws2',
        Dag.fromBuffer (rt := rt1) b (Some (VNumber (Fin n))) h pad1 false draws1
        = Ok (d1, draws1') ->
        Dag.fromBuffer (rt := rt2) b (Some (VNumber (Fin n))) h pad2 false draws2
        = Ok (d2, draws2') ->
        Dag.leaves d1 = Dag.leaves d2
        /\ Tree.root (Dag.merkle d1) = Tree.root (Dag.merkle d2)
        /\ Dag.sliceIndex d1 = Dag.sliceIndex d2
        /\ (forall name, Dag.toMetadata d1 name = Dag.toMetadata d2 name)
        /\ (forall name, Dag.toMetadata d1 name = Dag.toMetadata d1 name))
  /\ ((1 <= n)%Q -> (n <= inject_Z MAX_SAFE_INTEGER)%Q ->
      (n <= inject_Z (@kMaxLength rt1))%Q -> is_Some (effective_hash (rt := rt1) h) ->
      exists d, Dag.fromBuffer (rt := rt1) b (Some (VNumber (Fin n))) h pad1 false draws1
                = Ok (d, draws1)).
Proof.
  intros Hhost Hn.
  pose proof (fromBuffer_zero_fill_host rt1 rt2 b (Some (VNumber (Fin n))) h
                pad1 pad2 draws1 draws2 Hhost) as Hsame.
  split_and!.
  - exact Hsame.
  - intros d1 d2 draws1' draws2' Hrun1 Hrun2.
    rewrite Hrun1, Hrun2 in Hsame. simplify_eq/=. done.
  - intros Hlo Hhi Hfit [H Hh].
    destruct (fromBuffer_zero_fill (rt := rt1) b n h H pad1 draws1)
      as (pieces & tree & _ & _ & Hrun); [done..|].
    eexists. exact Hrun.
Qed.

Lemma C2_witness :
  (fst <$> Dag.fromBuffer (rt := Sample.runtime Sample.zero_pool) [x01; x02; x03]
             (Some (VNumber (Fin 2))) Tree.HashFalsy false false 0
   = fst <$> Dag.fromBuffer (rt := Sample.runtime Sample.digit_pool) [x01; x02; x03]
               (Some (VNumber (Fin 2))) Tree.HashFalsy true false 7)
  /\ exists d, Dag.fromBuffer (rt := Sample.runtime Sample.zero_pool) [x01; x02; x03]
                 (Some (VNumber (Fin 2))) Tree.HashFalsy false false 0 = Ok (d, 0%nat).
Proof.
  destruct (C2_zero_fill_construction_is_deterministic
              (Sample.runtime Sample.zero_pool) (Sample.runtime Sample.digit_pool)
              [x01; x02; x03] 2 Tree.HashFalsy false true 0 7) as (Hsame & _ & Hbuilt).
  - repeat split.
  - reflexivity.
  - split; [exact Hsame|].
    apply Hbuilt; [discriminate..|]. eexists; reflexivity.
Defined.

(** ** The root *)

Section root_facts.
Context {rt : Runtime}.

(** A tree over at least one leaf has a root. *)
Lemma root_nonempty H l h :
  l <> [] -> Tree.hasher_or h Tree.DEFAULT_HASH_FUNC = Tree.HashFunction H ->
  exists t r, Tree.new (Tree.LeavesArray l) h = Ok t /\ Tree.root t = Ok (Some r).
Proof.
  intros Hl Hh.
  destruct (new_dense H l h Hh) as (t & Hnew & Hrows & _ & _ & Hcover).
  pose proof (length_iter_next_row H (Tree._depth t) l) as Hone.
  destruct (Nat.iter (Tree._depth t) (spec_next_row H) l) as [|r rest] eqn:Hiter.
  { destruct l; [done|]. simpl in Hone, Hcover. specialize (Hone ltac:(lia) Hcover). done. }
  exists t, r. split; [done|].
  by rewrite (root_dense_rows t H _ l Hrows), Hiter.
Qed.

(** The tree over no leaf: one row, and it is empty. *)
Lemma new_empty H h :
  Tree.hasher_or h Tree.DEFAULT_HASH_FUNC = Tree.HashFunction H ->
  Tree.new (Tree.LeavesArray []) h
  = Ok {| Tree._hasher := Tree.HashFunction H; Tree._leaves := []; Tree._depth := 0;
          Tree._rows := [Some []]; Tree._count := 0 |}.
Proof. intros Hh. unfold Tree.new. cbn [Tree._hasher]. by rewrite Hh. Qed.

Lemma new_dag_inv shards_ opts d :
  Dag.new shards_ opts = Ok d ->
  Dag.shards d = shards_
  /\ Dag.sliceIndex d = default (Dag.byteLength shards_) (Dag.opts_sliceIndex opts)
  /\ exists H, effective_hash (Dag.opts_hashFunc opts) = Some H
               /\ Dag.leaves d = H <$> shards_
               /\ Tree.new (Tree.LeavesArray (H <$> shards_)) (Tree.HashFunction H)
                  = Ok (Dag.merkle d).
Proof.
  intros Hnew.
  destruct (effective_hash (Dag.opts_hashFunc opts)) as [H|] eqn:Hh.
  - destruct (new_dag shards_ opts H Hh) as (tree & Htree & Hdag).
    rewrite Hdag in Hnew. simplify_eq/=. split_and!; [done..|]. by exists H.
  - destruct opts as [i []]; done.
Qed.

Lemma byteLength_sum shards_ :
  Dag.byteLength shards_ = Z.of_nat (sum_list (length <$> shards_)).
Proof.
  unfold Dag.byteLength.
  assert (forall acc, foldl (fun acc s => acc + Z.of_nat (length s)) acc shards_
                      = acc + Z.of_nat (sum_list (length <$> shards_))) as Hfold.
  { induction shards_ as [|s shards_ IH]; intros acc.
    - cbn. lia.
    - cbn [foldl]. rewrite IH. rewrite fmap_cons. cbn [sum_list sum_list_with id].
      lia. }
  by rewrite Hfold.
Qed.

End root_facts.

(** ** C6: the metadata record *)

(** C6, as the code has it.  For every DAG built from at least one shard,
    [toMetadata(name)] returns the serialisation of an object with exactly
    the keys [n], [l], [r] and [s], in this order: [n] is the name, or
    ["blob"] when the name is absent or empty; [l] is the lower-case
    hexadecimal form of every leaf in shard order; [r] is that of the root;
    [s] is [originalLength].  The constructor sets [originalLength] to the
    value supplied, or to the sum of the shard lengths when none is, and
    [fromBuffer] sets it to the length of the buffer. *)
Theorem C6_metadata_record {rt : Runtime} (shards_ : list Buffer) (opts : Dag.Options) :
  shards_ <> [] -> is_Some (effective_hash (Dag.opts_hashFunc opts)) ->
  (exists d root_,
     Dag.new shards_ opts = Ok d
     /\ Tree.root (Dag.merkle d) = Ok (Some root_)
     /\ (forall name,
           Dag.toMetadata d name
           = Ok (JSON_stringify
                   (JObject [("n"%string, JString (Dag.name_or_blob name));
                             ("l"%string,
                               JArray ((fun l => JString (Buffer_toHex l)) <$> Dag.leaves d));
                             ("r"%string, JString (Buffer_toHex root_));
                             ("s"%string, JNumber (Dag.sliceIndex d))])))
     /\ Dag.sliceIndex d
        = match Dag.opts_sliceIndex opts with
          | Some i => i
          | None => Z.of_nat (sum_list (length <$> shards_))
          end)
  /\ Dag.name_or_blob None = "blob"%string
  /\ Dag.name_or_blob (Some EmptyString) = "blob"%string
  /\ (forall c rest, Dag.name_or_blob (Some (String c rest)) = String c rest)
  /\ Buffer_toHex [x00; x1f; xa0; xff] = "001fa0ff"%string
  /\ (forall buffer size h padLastSlice rnd draws d draws',
        Dag.fromBuffer buffer size h padLastSlice rnd draws = Ok (d, draws') ->
        Dag.sliceIndex d = Z.of_nat (length buffer)).
Proof.
  intros Hshards [H Hh]. split_and!; try done.
  - destruct (new_dag shards_ opts H Hh) as (tree & Htree & Hdag).
    destruct (root_nonempty H (H <$> shards_) (Tree.HashFunction H))
      as (t & r & Hnew & Hroot); [by destruct shards_|done|].
    rewrite Htree in Hnew. simplify_eq.
    eexists _, r. split; [exact Hdag|]. cbn [Dag.merkle Dag.leaves Dag.sliceIndex].
    split_and!; [done| |].
    + intros name. unfold Dag.toMetadata. cbn [Dag.merkle Dag.leaves Dag.sliceIndex].
      by rewrite Hroot.
    + rewrite <- byteLength_sum. by destruct (Dag.opts_sliceIndex opts).
  - intros buffer size h padLastSlice rnd draws d draws'. unfold Dag.fromBuffer.
    destruct (Split.splitSync buffer _) as [pieces| |]; [|done..].
    cbn [mbind result_bind].
    destruct (Dag.map_pad _ rnd pieces draws) as [[s d1]| |]; [|done..].
    cbn [mbind result_bind].
    destruct (Dag.new s _) as [dag| |] eqn:Hnew; [|done..].
    intros [= <- <-]. by apply new_dag_inv in Hnew as (_ & -> & _).
Qed.

Lemma C6_witness :
  exists d,
    Dag.new (rt := Sample.runtime Sample.zero_pool) [[x01; x02]; [x03; x00]]
      {| Dag.opts_sliceIndex := None; Dag.opts_hashFunc := Tree.HashFalsy |} = Ok d
    /\ Dag.sliceIndex d = 4.
Proof.
  destruct (C6_metadata_record (rt := Sample.runtime Sample.zero_pool)
              [[x01; x02]; [x03; x00]]
              {| Dag.opts_sliceIndex := None; Dag.opts_hashFunc := Tree.HashFalsy |})
    as ((d & r & Hnew & _ & _ & Hindex) & _).
  - discriminate.
  - eexists; reflexivity.
  - exists d. split; [exact Hnew|exact Hindex].
Defined.

(** A DAG over no shard has no root, and [toMetadata] throws on it. *)
Lemma C6_counterexample :
  (d ← Dag.new (rt := Sample.runtime Sample.zero_pool) []
         {| Dag.opts_sliceIndex := None; Dag.opts_hashFunc := Tree.HashFalsy |};
   Dag.toMetadata d None)
  = Throw (TypeError "Cannot read properties of undefined (reading 'toString')").
Proof. reflexivity. Qed.

(** ** C8: the default shard size *)

(** Whatever the host makes of the string, a size that [checkOptions]
    accepts for ["4M"] is at least one. *)
Lemma check_size_default_pos {rt : Runtime} n :
  Split.check_size Dag.DEFAULT_INPUT_SIZE = Ok n -> 1 <= n.
Proof.
  unfold Split.check_size, Dag.DEFAULT_INPUT_SIZE.
  destruct (isNaN (VString "4M")) eqn:Hnan.
  - cbn. intros [= <-]. done.
  - unfold Split.isSafe, js_lt, isNaN in *.
    destruct (ToNumber (VString "4M")) as [| | |q]; try done.
    cbn [num_le num_lt num_of_Z Math_floor].
    destruct (Qle_bool (inject_Z MIN_SAFE_INTEGER) q && Qle_bool q (inject_Z MAX_SAFE_INTEGER));
      [|done].
    cbn [negb orb]. destruct (Qle_bool (inject_Z 1) q) eqn:Hle; [|done].
    cbn [negb]. intros [= <-]. apply Qle_bool_iff in Hle. by apply Qfloor_ge_1.
Qed.

(** C8, where the code departs from it.  The default size is the string
    ["4M"].  The splitter takes it for 4194304 bytes, but [fromBuffer] also
    hands it to [Buffer.alloc], which takes numbers only: on every buffer
    that is not empty the call throws, whatever the other arguments, and no
    DAG is built.  On a host where ["4M"] is not a numeric string (as in
    JavaScript) the error is the type error of [Buffer.alloc]. *)
Theorem C8_default_size_throws {rt : Runtime}
    (buffer : Buffer) (h : Tree.hasher_arg) (padLastSlice rnd : bool) (draws : nat) :
  buffer <> [] ->
  throws (Dag.fromBuffer buffer None h padLastSlice rnd draws)
  /\ (StringToNumber "4M" = NaN ->
      Split.checkOptions (Split.Object (size_options true Dag.DEFAULT_INPUT_SIZE))
      = Ok (size_options true 4194304)
      /\ Dag.fromBuffer buffer None h padLastSlice rnd draws
         = Throw (TypeError ERR_INVALID_ARG_TYPE)).
Proof.
  intros Hbuffer.
  assert (forall n, Split.check_size Dag.DEFAULT_INPUT_SIZE = Ok n ->
                    Dag.fromBuffer buffer None h padLastSlice rnd draws
                    = Throw (TypeError ERR_INVALID_ARG_TYPE)) as Halloc.
  { intros n Hn. unfold Dag.fromBuffer. cbn [from_option id].
    fold (size_options true Dag.DEFAULT_INPUT_SIZE).
    unfold Split.splitSync. rewrite checkOptions_size, Hn. cbn.
    destruct (splitByBytes_spec buffer n (check_size_default_pos n Hn))
      as (pieces & -> & Hjoin & _).
    destruct pieces as [|s pieces]; [by subst|]. done. }
  split.
  - destruct (Split.check_size Dag.DEFAULT_INPUT_SIZE) as [n|e|] eqn:Hsize.
    + eexists. by eapply Halloc.
    + exists e. unfold Dag.fromBuffer. cbn [from_option id].
      fold (size_options true Dag.DEFAULT_INPUT_SIZE).
      unfold Split.splitSync. by rewrite checkOptions_size, Hsize.
    + unfold Split.check_size in Hsize.
      repeat case_match; simplify_eq.
  - intros Hnan.
    assert (Split.check_size Dag.DEFAULT_INPUT_SIZE = Ok 4194304) as Hsize.
    { unfold Split.check_size, isNaN, Dag.DEFAULT_INPUT_SIZE. cbn [ToNumber].
      by rewrite Hnan. }
    split; [by rewrite checkOptions_size, Hsize|by eapply Halloc].
Qed.

Lemma C8_witness :
  Dag.fromBuffer (rt := Sample.runtime Sample.zero_pool) [x01; x02; x03] None
    Tree.HashFalsy false false 0
  = Throw (TypeError ERR_INVALID_ARG_TYPE).
Proof.
  destruct (C8_default_size_throws (rt := Sample.runtime Sample.zero_pool)
              [x01; x02; x03] Tree.HashFalsy false false 0) as [_ Hexact].
  - discriminate.
  - apply Hexact. reflexivity.
Defined.

(** ** C10: the empty buffer *)

(** C10, as the code has it.  For the empty buffer and an integer shard
    size from [1] to [2^53 - 1], with a callable or absent hasher and any
    flags, [fromBuffer] does not throw: it returns a DAG with no shard and
    no leaf, whose tree has one row, which is empty; [root()] returns
    [undefined], and [toMetadata] throws when it asks the root for its
    hexadecimal form. *)
Theorem C10_empty_buffer {rt : Runtime}
    (n : Z) (h : Tree.hasher_arg) (padLastSlice rnd : bool) (draws : nat) :
  1 <= n <= MAX_SAFE_INTEGER -> is_Some (effective_hash h) ->
  exists d,
    Dag.fromBuffer [] (Some (VNumber (num_of_Z n))) h padLastSlice rnd draws = Ok (d, draws)
    /\ Dag.shards d = []
    /\ Dag.leaves d = []
    /\ Tree._rows (Dag.merkle d) = [Some []]
    /\ Tree.root (Dag.merkle d) = Ok None
    /\ (forall name,
          Dag.toMetadata d name
          = Throw (TypeError "Cannot read properties of undefined (reading 'toString')")).
Proof.
  intros [Hlo Hhi] [H Hh].
  destruct (new_dag [] {| Dag.opts_sliceIndex := Some (Z.of_nat (length ([] : Buffer)));
                          Dag.opts_hashFunc := Tree.hasher_or h Tree.DEFAULT_HASH_FUNC |} H)
    as (tree & Htree & Hdag).
  { cbn [Dag.opts_hashFunc]. by rewrite (hasher_or_effective h H). }
  cbn [fmap list_fmap] in Htree. rewrite (new_empty H) in Htree by done.
  injection Htree as <-.
  eexists. split.
  - unfold Dag.fromBuffer. cbn [from_option id].
    change {| Split.lines := None; Split.bytes := Some (VNumber (num_of_Z n));
              Split.line_bytes := None |}
      with (size_options true (VNumber (Fin (inject_Z n)))).
    rewrite splitSync_bytes_number; [|by apply (inject_Z_le 1 n)|by apply inject_Z_le].
    change (Split.splitByBytes [] (Qfloor (inject_Z n))) with (@Ok (list Buffer) []).
    cbn [mbind result_bind Dag.map_pad]. rewrite Hdag. reflexivity.
  - done.
Qed.

Lemma C10_witness :
  exists d,
    Dag.fromBuffer (rt := Sample.runtime Sample.zero_pool) []
      (Some (VNumber (num_of_Z 512))) Tree.HashFalsy false false 0 = Ok (d, 0%nat)
    /\ Tree.root (Dag.merkle d) = Ok None.
Proof.
  destruct (C10_empty_buffer (rt := Sample.runtime Sample.zero_pool)
              512 Tree.HashFalsy false false 0) as (d & Hrun & _ & _ & _ & Hroot & _).
  - split; discriminate.
  - eexists; reflexivity.
  - exists d. split; [exact Hrun|exact Hroot].
Defined.

(** Beyond [2^53 - 1] the size is refused, also on the empty buffer. *)
Lemma C10_counterexample :
  Dag.fromBuffer (rt := Sample.runtime Sample.zero_pool) []
    (Some (VNumber (num_of_Z (2 ^ 53)))) Tree.HashFalsy false false 0
  = Throw (Error "Invalid number of bytes").
Proof. reflexivity. Qed.

(** ** C7: what the tree constructor rejects *)

(** C7, as the code has it.  The constructor throws, before anything is
    built, when [leaves] is not an array and when the hasher is a value that
    is neither falsy nor callable.  It checks nothing else: with an array
    and a callable hasher, or none (the default is then used), it returns a
    tree, whether the array is empty or not and whatever the lengths of the
    digests. *)
Theorem C7_constructor_checks {rt : Runtime} :
  (forall h, Tree.new Tree.LeavesNotArray h
             = Throw (AssertionError "Invalid leaves array supplied"))
  /\ (forall leaves, Tree.new (Tree.LeavesArray leaves) Tree.HashNotCallable
                     = Throw (AssertionError "Invalid hash function supplied"))
  /\ (forall leaves h, h <> Tree.HashNotCallable ->
                       is_Ok (Tree.new (Tree.LeavesArray leaves) h)).
Proof.
  split_and!; [done..|].
  intros leaves h Hh.
  assert (exists H, Tree.hasher_or h Tree.DEFAULT_HASH_FUNC = Tree.HashFunction H) as [H HH].
  { destruct h; [by eexists..|done]. }
  destruct (new_dense H leaves h HH) as (t & Hnew & _). by exists t.
Qed.

Lemma C7_witness :
  is_Ok (Tree.new (rt := Sample.runtime Sample.zero_pool)
           (Tree.LeavesArray [[x01]; [x02; x03]; []]) Tree.HashFalsy).
Proof.
  destruct (C7_constructor_checks (rt := Sample.runtime Sample.zero_pool)) as (_ & _ & Hok).
  apply Hok. discriminate.
Defined.

(** An empty array of leaves and digests of different lengths are both
    accepted. *)
Lemma C7_counterexample :
  Tree.new (rt := Sample.runtime Sample.zero_pool) (Tree.LeavesArray []) Tree.HashFalsy
  = Ok {| Tree._hasher := Tree.HashFunction Sha256.digest; Tree._leaves := [];
          Tree._depth := 0; Tree._rows := [Some []]; Tree._count := 0 |}
  /\ is_Ok (Tree.new (rt := Sample.runtime Sample.zero_pool)
              (Tree.LeavesArray [[x01]; [x02; x03]]) (Tree.HashFunction Sha256.digest)).
Proof. split; [reflexivity|eexists; reflexivity]. Qed.

(** ** The test of the repository

    [test/dag.unit.js] builds a DAG from ten two-byte values with a slice
    size of two and compares its metadata with a fixed string.  The same
    run on the concrete host gives the same leaves, the same root and the
    same length. *)

Example unit_test_metadata :
  ('(d, _) ← Dag.fromBuffer (rt := Sample.runtime Sample.zero_pool) test_buffer
               (Some (VNumber (num_of_Z 2))) Tree.HashFalsy false false 0;
   Dag.toMetadata d None)
  = Ok (JSON_stringify
          (JObject [("n", JString "blob"); ("l", JArray (JString <$> test_leaves));
                    ("r", JString test_root); ("s", JNumber 20)]%string)).
Proof. vm_compute. reflexivity. Qed.

(** The shape of the serialisation: no space, keys in the order of the
    object, strings between quotes. *)
Example unit_test_serialisation :
  let q := str1 char_quote in
  JSON_stringify (JObject [("n", JString "blob"); ("l", JArray [JString "0a"; JString "ff"]);
                           ("s", JNumber 20)]%string)
  = String.concat q ["{"; "n"; ":"; "blob"; ","; "l"; ":["; "0a"; ","; "ff"; "],"; "s"; ":20}"]%string.
Proof. reflexivity. Qed.

(** * Further properties of the tree *)

Section more_tree_facts.
Context {rt : Runtime}.
Implicit Types (H : Buffer -> Buffer) (l e : list Buffer).

(** The loop stops on the first power of two that covers the leaves. *)
Lemma depth_loop_least fuel pow len d :
  Tree.depth_loop fuel pow len = Ok d ->
  (pow <= d)%nat /\ (len <= 2 ^ d)%nat
  /\ (forall d', (pow <= d' < d)%nat -> (2 ^ d' < len)%nat).
Proof.
  revert pow. induction fuel as [|fuel IH]; intros pow; rewrite depth_loop_unfold;
    destruct (Z.ltb_spec (2 ^ Z.of_nat pow) (Z.of_nat len)) as [Hlt|Hge]; try done.
  - intros [= <-]. split_and!; [lia| |lia].
    apply Nat2Z.inj_le. rewrite Nat2Z.inj_pow. lia.
  - intros Hrun. destruct (IH _ Hrun) as (Hpow & Hcover & Hleast).
    split_and!; [lia|done|]. intros d' Hd'.
    destruct (decide (d' = pow)) as [->|Hne]; [|apply Hleast; lia].
    apply Nat2Z.inj_lt. rewrite Nat2Z.inj_pow. lia.
  - intros [= <-]. split_and!; [lia| |lia].
    apply Nat2Z.inj_le. rewrite Nat2Z.inj_pow. lia.
Qed.

(** [compute_rows] adds to the count the lengths of the rows it builds. *)
Lemma compute_rows_count H j (t : Tree.MerkleTree) (junk : array (array Buffer)) first below :
  Tree._hasher t = Tree.HashFunction H ->
  length junk = j ->
  Tree._rows t = junk ++ dense_rows (first :: below) ->
  exists t', Tree.compute_rows j t = Ok t'
    /\ Tree._count t'
       = (Tree._count t + sum_list (length <$> take j (spec_rows H j first below)))%nat.
Proof.
  revert t junk first below.
  induction j as [|j IH]; intros t junk first below Hh Hlen Hrows.
  - exists t. split; [done|]. rewrite take_0. simpl. lia.
  - destruct junk as [|c junk _] using rev_ind; [done|].
    rewrite length_app in Hlen. simpl in Hlen.
    assert (j = length junk) as -> by lia. clear Hlen.
    cbn [Tree.compute_rows]. rewrite Hrows.
    replace (length junk + 1)%nat with (length (junk ++ [c]) + 0)%nat
      by (rewrite length_app; simpl; lia).
    rewrite aget_app_r. cbn [dense_rows fmap list_fmap aget lookup list_lookup mjoin option_join].
    rewrite (getNodes_dense H) by done. cbn [mbind result_bind].
    rewrite <- app_assoc. cbn [app]. rewrite aset_middle.
    edestruct (IH (Tree.set_count (Tree.set_rows t
                 (junk ++ Some (dense (spec_next_row H first)) :: dense_rows (first :: below)))
                 (Tree._count t + length (dense (spec_next_row H first))))
                junk (spec_next_row H first) (first :: below))
      as (t' & Hrun & Hcount); [done|done|done|].
    exists t'. split; [exact Hrun|]. rewrite Hcount.
    cbn [Tree.set_count Tree._count spec_rows]. rewrite length_dense.
    pose proof (spec_rows_below H (length junk) (spec_next_row H first) (first :: below) 0)
      as Hat. rewrite Nat.add_0_r in Hat. cbn [lookup list_lookup] in Hat.
    rewrite (take_S_r _ _ _ Hat), fmap_app, sum_list_with_app. simpl. lia.
Qed.

(** The constructor, with the depth and the count it leaves. *)
Lemma new_full H l h :
  Tree.hasher_or h Tree.DEFAULT_HASH_FUNC = Tree.HashFunction H ->
  exists t d, Tree.new (Tree.LeavesArray l) h = Ok t
    /\ Tree.depth_loop (length l) 0 (length l) = Ok d
    /\ Tree._depth t = d
    /\ Tree._rows t = dense_rows (spec_rows H d l [])
    /\ Tree._leaves t = dense l
    /\ Tree._count t = sum_list (length <$> take d (spec_rows H d l [])).
Proof.
  intros Hh.
  destruct (new_dense H l h Hh) as (t & Hnew & Hrows & Hleaves & _ & _).
  destruct (depth_loop_total (length l) 0 (length l)) as (d & Hd & _ & _); [lia|].
  exists t, d. split; [done|]. split; [done|].
  revert Hnew. unfold Tree.new. cbn [Tree._hasher Tree.is_array Tree.assert mbind result_bind].
  rewrite Hh. cbn [Tree.is_function mbind result_bind].
  rewrite feed_all. cbn [Tree._leaves app].
  unfold Tree._compute, Tree.depth, Tree.set_leaves.
  cbn [Tree._depth Tree._leaves Tree._hasher Tree._rows Tree._count].
  destruct (decide (0 = 0)%nat) as [_|]; [|done].
  rewrite length_dense, Hd. unfold Tree.set_depth, Tree.set_rows.
  cbn [mbind result_bind Tree._depth Tree._leaves Tree._hasher Tree._rows Tree._count length].
  destruct (decide (0 = 0)%nat) as [_|]; [|done].
  rewrite push_rows_replicate. cbn [app]. unfold Tree.assert. cbn [mbind result_bind].
  pose proof (aset_at_end (replicate d (Some ([] : array Buffer))) (Some (dense l))) as Hset.
  rewrite length_replicate in Hset. rewrite Hset. clear Hset.
  intros Hrun.
  edestruct (compute_rows_dense H d
               {| Tree._hasher := Tree.HashFunction H; Tree._leaves := dense l;
                  Tree._depth := d;
                  Tree._rows := replicate d (Some []) ++ [Some (dense l)];
                  Tree._count := 0 |} (replicate d (Some [])) l [])
    as (t1 & Hrun1 & Hrows1 & _ & _ & Hd1); [done|by rewrite length_replicate|done|].
  edestruct (compute_rows_count H d
               {| Tree._hasher := Tree.HashFunction H; Tree._leaves := dense l;
                  Tree._depth := d;
                  Tree._rows := replicate d (Some []) ++ [Some (dense l)];
                  Tree._count := 0 |} (replicate d (Some [])) l [])
    as (t2 & Hrun2 & Hcount); [done|by rewrite length_replicate|done|].
  rewrite Hrun in Hrun1, Hrun2. simplify_eq. cbn [Tree._depth Tree._count] in *.
  by split_and!.
Qed.

Lemma spec_next_row_nonempty H e : e <> [] -> spec_next_row H e <> [].
Proof. by destruct e as [|a [|b e]]. Qed.

(** Over at least one leaf no row is empty. *)
Lemma spec_rows_nonempty H j first below :
  first <> [] -> Forall (fun r => r <> []) below ->
  Forall (fun r => r <> []) (spec_rows H j first below).
Proof.
  revert first below. induction j as [|j IH]; intros first below Hfirst Hbelow.
  - by constructor.
  - cbn [spec_rows]. apply IH; [by apply spec_next_row_nonempty|by constructor].
Qed.

End more_tree_facts.

(** X1.  On a tree the constructor returned, [depth()] is the least [d]
    with [leafCount <= 2^d], asking for it again returns the same number and
    leaves the tree as it is, [levels()] is one more, and that is the number
    of rows. *)
Theorem X1_depth_is_least_covering_power {rt : Runtime}
    (leaves : list Buffer) (h : Tree.hasher_arg) :
  h <> Tree.HashNotCallable ->
  exists t,
    Tree.new (Tree.LeavesArray leaves) h = Ok t
    /\ Tree.depth t = Ok (Tree._depth t, t)
    /\ Tree.levels t = Ok (S (Tree._depth t), t)
    /\ length (Tree._rows t) = S (Tree._depth t)
    /\ (length leaves <= 2 ^ Tree._depth t)%nat
    /\ (forall d', (d' < Tree._depth t)%nat -> (2 ^ d' < length leaves)%nat).
Proof.
  intros Hh.
  assert (exists H, Tree.hasher_or h Tree.DEFAULT_HASH_FUNC = Tree.HashFunction H) as [H HH].
  { destruct h; [by eexists..|done]. }
  destruct (new_full H leaves h HH) as (t & d & Hnew & Hloop & Hd & Hrows & Hleaves & _).
  destruct (depth_loop_least _ _ _ _ Hloop) as (_ & Hcover & Hleast).
  assert (Tree.depth t = Ok (Tree._depth t, t)) as Hdepth.
  { unfold Tree.depth. destruct (decide (Tree._depth t = 0%nat)) as [Hzero|]; [|done].
    rewrite Hleaves, length_dense, Hloop. cbn [mbind result_bind].
    rewrite Hd in Hzero. subst d. rewrite Hzero. by destruct t; simplify_eq/=. }
  exists t. split_and!; try done.
  - unfold Tree.levels. by rewrite Hdepth.
  - rewrite Hrows. unfold dense_rows. rewrite length_fmap, length_spec_rows. simpl. lia.
  - by rewrite Hd.
  - intros d' Hd'. apply Hleast. lia.
Qed.

Lemma X1_witness :
  exists t,
    Tree.new (rt := Sample.runtime Sample.zero_pool)
      (Tree.LeavesArray [[x01]; [x02]; [x03]; [x04]; [x05]]) Tree.HashFalsy = Ok t
    /\ Tree.levels t = Ok (S (Tree._depth t), t)
    /\ (5 <= 2 ^ Tree._depth t)%nat.
Proof.
  destruct (X1_depth_is_least_covering_power (rt := Sample.runtime Sample.zero_pool)
              [[x01]; [x02]; [x03]; [x04]; [x05]] Tree.HashFalsy)
    as (t & Hnew & _ & Hlevels & _ & Hcover & _).
  - discriminate.
  - exists t. split_and!; [exact Hnew|exact Hlevels|exact Hcover].
Defined.

(** X2.  A tree over at least one leaf has a top row of exactly one
    element, and [root()] returns it; a tree over no leaf has an empty top
    row and [root()] returns [undefined]. *)
Theorem X2_top_row_is_the_root {rt : Runtime}
    (leaves : list Buffer) (h : Tree.hasher_arg) :
  h <> Tree.HashNotCallable ->
  exists t,
    Tree.new (Tree.LeavesArray leaves) h = Ok t
    /\ (leaves <> [] ->
        exists r, Tree.level t 0 = Some [Some r] /\ Tree.root t = Ok (Some r))
    /\ (leaves = [] -> Tree.level t 0 = Some [] /\ Tree.root t = Ok None).
Proof.
  intros Hh.
  assert (exists H, Tree.hasher_or h Tree.DEFAULT_HASH_FUNC = Tree.HashFunction H) as [H HH].
  { destruct h; [by eexists..|done]. }
  destruct (new_dense H leaves h HH) as (t & Hnew & Hrows & _ & _ & Hcover).
  exists t. split; [done|].
  pose proof (level_dense_rows t _ 0 Hrows) as Hlevel.
  pose proof (root_dense_rows t H _ leaves Hrows) as Hroot.
  rewrite spec_rows_head in Hlevel. cbn [fmap option_fmap option_map] in Hlevel.
  split.
  - intros Hne.
    pose proof (length_iter_next_row H (Tree._depth t) leaves) as Hone.
    destruct (Nat.iter (Tree._depth t) (spec_next_row H) leaves) as [|r [|r' rest]] eqn:Hiter.
    + destruct leaves; [done|]. simpl in Hone. specialize (Hone ltac:(lia) Hcover). done.
    + exists r. by rewrite Hlevel, Hroot.
    + destruct leaves; [done|]. simpl in Hone. specialize (Hone ltac:(lia) Hcover). done.
  - intros ->. rewrite (new_empty H) in Hnew by done. by simplify_eq.
Qed.

Lemma X2_witness :
  exists t r,
    Tree.new (rt := Sample.runtime Sample.zero_pool)
      (Tree.LeavesArray [[x01]; [x02]; [x03]]) Tree.HashFalsy = Ok t
    /\ Tree.level t 0 = Some [Some r].
Proof.
  destruct (X2_top_row_is_the_root (rt := Sample.runtime Sample.zero_pool)
              [[x01]; [x02]; [x03]] Tree.HashFalsy) as (t & Hnew & Hsome & _).
  - discriminate.
  - destruct Hsome as (r & Hlevel & _); [discriminate|].
    exists t, r. split; [exact Hnew|exact Hlevel].
Defined.

(** X3.  [nodes()] is the number of elements of all the rows above the
    leaf row, the carried ones included; a tree over at most one leaf has
    none. *)
Theorem X3_nodes_counts_rows_above_leaves {rt : Runtime}
    (leaves : list Buffer) (h : Tree.hasher_arg) :
  h <> Tree.HashNotCallable ->
  exists t,
    Tree.new (Tree.LeavesArray leaves) h = Ok t
    /\ Tree.nodes t
       = sum_list ((fun j => length (default [] (Tree.level t j))) <$> seq 0 (Tree._depth t))
    /\ ((length leaves <= 1)%nat -> Tree.nodes t = 0%nat)
    /\ ((2 <= length leaves)%nat -> (Tree._depth t <= Tree.nodes t)%nat).
Proof.
  intros Hh.
  assert (exists H, Tree.hasher_or h Tree.DEFAULT_HASH_FUNC = Tree.HashFunction H) as [H HH].
  { destruct h; [by eexists..|done]. }
  destruct (new_full H leaves h HH) as (t & d & Hnew & Hloop & Hd & Hrows & _ & Hcount).
  destruct (depth_loop_least _ _ _ _ Hloop) as (_ & Hcover & Hleast).
  exists t. split; [done|]. unfold Tree.nodes. rewrite Hcount, Hd.
  pose proof (length_spec_rows H d leaves []) as Hlen. simpl in Hlen.
  assert (forall j, (j < d)%nat ->
            exists r, spec_rows H d leaves [] !! j = Some r
                      /\ length (default [] (Tree.level t j)) = length r
                      /\ (leaves <> [] -> (1 <= length r)%nat)) as Hrow.
  { intros j Hj.
    destruct (lookup_lt_is_Some_2 (spec_rows H d leaves []) j) as [r Hr]; [lia|].
    exists r. split; [done|]. rewrite (level_dense_rows t _ j Hrows), Hr. simpl.
    split; [by rewrite length_dense|]. intros Hne.
    pose proof (spec_rows_nonempty H d leaves [] Hne ltac:(constructor)) as Hall.
    rewrite Forall_lookup in Hall. specialize (Hall j r Hr).
    destruct r; [done|simpl; lia]. }
  split_and!.
  - apply (f_equal sum_list). apply list_eq. intros j.
    rewrite !list_lookup_fmap.
    destruct (decide (j < d)%nat) as [Hj|Hj].
    + destruct (Hrow j Hj) as (r & Hr & Hlevel & _).
      rewrite lookup_take_lt, lookup_seq_lt, Hr by done. simpl. by rewrite Hlevel.
    + by rewrite lookup_take_ge, lookup_seq_ge by lia.
  - intros Hsmall. destruct d as [|d]; [by rewrite take_0|].
    specialize (Hleast 0%nat ltac:(lia)). simpl in Hleast. lia.
  - intros Hbig.
    assert (leaves <> []) as Hne by (intros ->; simpl in Hbig; lia).
    assert (forall n, (n <= d)%nat ->
              (n <= sum_list (length <$> take n (spec_rows H d leaves [])))%nat) as Hsum.
    { induction n as [|n IHn]; intros Hn; [lia|].
      destruct (Hrow n ltac:(lia)) as (r & Hr & _ & Hpos).
      rewrite (take_S_r _ _ _ Hr), fmap_app, sum_list_with_app. simpl.
      specialize (IHn ltac:(lia)). specialize (Hpos Hne). lia. }
    by apply Hsum.
Qed.

Lemma X3_witness :
  exists t,
    Tree.new (rt := Sample.runtime Sample.zero_pool)
      (Tree.LeavesArray [[x01]; [x02]; [x03]]) Tree.HashFalsy = Ok t
    /\ (Tree._depth t <= Tree.nodes t)%nat.
Proof.
  destruct (X3_nodes_counts_rows_above_leaves (rt := Sample.runtime Sample.zero_pool)
              [[x01]; [x02]; [x03]] Tree.HashFalsy) as (t & Hnew & _ & _ & Hbig).
  - discriminate.
  - exists t. split; [exact Hnew|]. apply Hbig. simpl. lia.
Defined.

Section root_algebra.
Context {rt : Runtime}.
Implicit Types (H : Buffer -> Buffer) (l e : list Buffer).

Lemma spec_next_row_app H l1 l2 :
  (length l1 mod 2 = 0)%nat ->
  spec_next_row H (l1 ++ l2) = spec_next_row H l1 ++ spec_next_row H l2.
Proof.
  induction l1 as [|a|a b l1 IH] using list_pair_ind; intros Heven; try done.
  cbn [length] in Heven. rewrite mod2_SS in Heven.
  cbn [app spec_next_row]. by rewrite IH.
Qed.

Lemma iter_next_row_app H k l1 l2 :
  length l1 = (2 ^ k)%nat ->
  Nat.iter k (spec_next_row H) (l1 ++ l2)
  = Nat.iter k (spec_next_row H) l1 ++ Nat.iter k (spec_next_row H) l2.
Proof.
  revert l1 l2. induction k as [|k IH]; intros l1 l2 Hlen; [done|].
  rewrite !Nat.iter_succ_r. rewrite Nat.pow_succ_r' in Hlen.
  rewrite spec_next_row_app.
  - apply IH. rewrite length_spec_next_row, Hlen.
    replace (2 * 2 ^ k + 1)%nat with (1 + 2 ^ k * 2)%nat by lia.
    by rewrite Nat.div_add.
  - rewrite Hlen, Nat.mul_comm. apply Nat.Div0.mod_mul.
Qed.

(** Once a single element is reached, further rows repeat it. *)
Lemma iter_next_row_stable H a b l r :
  (a <= b)%nat -> Nat.iter a (spec_next_row H) l = [r] ->
  Nat.iter b (spec_next_row H) l = [r].
Proof.
  intros Hab Ha. replace b with ((b - a) + a)%nat by lia.
  by rewrite Nat.iter_add, Ha, iter_next_row_singleton.
Qed.

(** The root of a tree the constructor returned, from any number of rows
    that covers the leaves. *)
Lemma root_from_cover H l h k r :
  Tree.hasher_or h Tree.DEFAULT_HASH_FUNC = Tree.HashFunction H ->
  Nat.iter k (spec_next_row H) l = [r] ->
  exists t, Tree.new (Tree.LeavesArray l) h = Ok t /\ Tree.root t = Ok (Some r).
Proof.
  intros Hh Hk.
  destruct (new_dense H l h Hh) as (t & Hnew & Hrows & _ & _ & Hcover).
  exists t. split; [done|]. rewrite (root_dense_rows t H _ l Hrows).
  assert (l <> []) as Hne.
  { intros ->. clear -Hk. induction k as [|k IH]; [done|].
    rewrite Nat.iter_succ_r in Hk. by apply IH. }
  pose proof (length_iter_next_row H (Tree._depth t) l) as Hone.
  destruct (Nat.iter (Tree._depth t) (spec_next_row H) l) as [|r' [|? ?]] eqn:Hd.
  - destruct l; [done|]. simpl in Hone. specialize (Hone ltac:(lia) Hcover). done.
  - destruct (decide (k <= Tree._depth t)%nat).
    + rewrite (iter_next_row_stable H k (Tree._depth t) l r) in Hd by done. by simplify_eq.
    + rewrite (iter_next_row_stable H (Tree._depth t) k l r') in Hk by (done || lia).
      by simplify_eq.
  - destruct l; [done|]. simpl in Hone. specialize (Hone ltac:(lia) Hcover). done.
Qed.

End root_algebra.

(** X4.  When the first [2^k] leaves are followed by at least one and at
    most [2^k] more, the root of the whole is the hash of the root over the
    first [2^k] leaves followed by the root over the others; a single
    leaf that follows is its own root, so it enters that hash as it is. *)
Theorem X4_root_of_two_halves {rt : Runtime}
    (H : Buffer -> Buffer) (l1 l2 : list Buffer) (k : nat) :
  length l1 = (2 ^ k)%nat -> (1 <= length l2 <= 2 ^ k)%nat ->
  exists t t1 t2 r1 r2,
    Tree.new (Tree.LeavesArray (l1 ++ l2)) (Tree.HashFunction H) = Ok t
    /\ Tree.new (Tree.LeavesArray l1) (Tree.HashFunction H) = Ok t1
    /\ Tree.new (Tree.LeavesArray l2) (Tree.HashFunction H) = Ok t2
    /\ Tree.root t1 = Ok (Some r1)
    /\ Tree.root t2 = Ok (Some r2)
    /\ Tree.root t = Ok (Some (H (r1 ++ r2)))
    /\ (forall a, l2 = [a] -> r2 = a).
Proof.
  intros Hl1 Hl2.
  assert (1 <= 2 ^ k)%nat as Hpow by lia.
  pose proof (length_iter_next_row H k l1 ltac:(lia) ltac:(lia)) as Hone1.
  pose proof (length_iter_next_row H k l2 ltac:(lia) ltac:(lia)) as Hone2.
  destruct (Nat.iter k (spec_next_row H) l1) as [|r1 [|? ?]] eqn:Hr1; try done.
  destruct (Nat.iter k (spec_next_row H) l2) as [|r2 [|? ?]] eqn:Hr2; try done.
  destruct (root_from_cover H l1 (Tree.HashFunction H) k r1) as (t1 & Hnew1 & Hroot1);
    [done..|].
  destruct (root_from_cover H l2 (Tree.HashFunction H) k r2) as (t2 & Hnew2 & Hroot2);
    [done..|].
  destruct (root_from_cover H (l1 ++ l2) (Tree.HashFunction H) (S k) (H (r1 ++ r2)))
    as (t & Hnew & Hroot); [done| |].
  { by rewrite Nat.iter_succ, iter_next_row_app, Hr1, Hr2. }
  exists t, t1, t2, r1, r2. split_and!; try done.
  intros a ->. rewrite iter_next_row_singleton in Hr2. by simplify_eq.
Qed.

Lemma X4_witness :
  exists t r1,
    Tree.new (rt := Sample.runtime Sample.zero_pool)
      (Tree.LeavesArray ([[x01]; [x02]] ++ [[x03]])) (Tree.HashFunction Sha256.digest) = Ok t
    /\ Tree.root t = Ok (Some (Sha256.digest (r1 ++ [x03]))).
Proof.
  destruct (X4_root_of_two_halves (rt := Sample.runtime Sample.zero_pool)
              Sha256.digest [[x01]; [x02]] [[x03]] 1)
    as (t & t1 & t2 & r1 & r2 & Hnew & _ & _ & _ & _ & Hroot & Hcarry).
  - reflexivity.
  - simpl. lia.
  - exists t, r1. split; [exact Hnew|].
    rewrite (Hcarry [x03] eq_refl) in Hroot. exact Hroot.
Defined.

(** X5.  A tree does not tell leaves from inner nodes: for two leaves or
    more, the row just above the leaves is a shorter sequence which, given
    as leaves, yields the same root. *)
Theorem X5_second_row_has_the_same_root {rt : Runtime}
    (H : Buffer -> Buffer) (leaves : list Buffer) :
  (2 <= length leaves)%nat ->
  exists t e t',
    Tree.new (Tree.LeavesArray leaves) (Tree.HashFunction H) = Ok t
    /\ Tree.level t (Tree._depth t - 1) = Some (dense e)
    /\ (length e < length leaves)%nat
    /\ Tree.new (Tree.LeavesArray e) (Tree.HashFunction H) = Ok t'
    /\ Tree.root t' = Tree.root t
    /\ (forall a b c, leaves = [a; b; c] -> e = [H (a ++ b); c]).
Proof.
  intros Hlen.
  destruct (new_dense H leaves (Tree.HashFunction H)) as (t & Hnew & Hrows & _ & _ & Hcover);
    [done|].
  destruct (Tree._depth t) as [|d] eqn:Hd; [simpl in Hcover; lia|].
  pose proof (length_iter_next_row H (S d) leaves ltac:(lia) Hcover) as Hone.
  destruct (Nat.iter (S d) (spec_next_row H) leaves) as [|r [|? ?]] eqn:Hr; try done.
  destruct (root_from_cover H (spec_next_row H leaves) (Tree.HashFunction H) d r)
    as (t' & Hnew' & Hroot'); [done|by rewrite <- Nat.iter_succ_r|].
  exists t, (spec_next_row H leaves), t'. split_and!; try done.
  - rewrite (level_dense_rows t _ _ Hrows), Hd.
    replace (S d - 1)%nat with d by lia.
    assert (spec_rows H (S d) leaves [] !! d = Some (spec_next_row H leaves)) as ->; [|done].
    cbn [spec_rows].
    pose proof (spec_rows_below H d (spec_next_row H leaves) [leaves] 0) as Hat.
    by rewrite Nat.add_0_r in Hat.
  - rewrite length_spec_next_row.
    apply Nat.Div0.div_lt_upper_bound. lia.
  - by rewrite Hroot', (root_dense_rows t H _ leaves Hrows), Hr.
  - by intros a b c ->.
Qed.

Lemma X5_witness :
  exists t t',
    Tree.new (rt := Sample.runtime Sample.zero_pool)
      (Tree.LeavesArray [[x01]; [x02]; [x03]]) (Tree.HashFunction Sha256.digest) = Ok t
    /\ Tree.new (rt := Sample.runtime Sample.zero_pool)
         (Tree.LeavesArray [Sha256.digest ([x01] ++ [x02]); [x03]])
         (Tree.HashFunction Sha256.digest) = Ok t'
    /\ Tree.root t' = Tree.root t.
Proof.
  destruct (X5_second_row_has_the_same_root (rt := Sample.runtime Sample.zero_pool)
              Sha256.digest [[x01]; [x02]; [x03]])
    as (t & e & t' & Hnew & _ & _ & Hnew' & Hroot & Hshape).
  - simpl. lia.
  - exists t, t'. rewrite (Hshape _ _ _ eq_refl) in Hnew'.
    split_and!; [exact Hnew|exact Hnew'|exact Hroot].
Defined.

(** * Further properties of the splitter *)

Section line_facts.
Implicit Types (buffer pre scanned rest p : Buffer).

Lemma count_LF_app p1 p2 : count_LF (p1 ++ p2) = (count_LF p1 + count_LF p2)%nat.
Proof. unfold count_LF. by rewrite List.filter_app, length_app. Qed.

Lemma count_LF_one c : count_LF [c] = if Byte.eqb c Split.LF then 1%nat else 0%nat.
Proof. unfold count_LF. simpl. by destruct (Byte.eqb c Split.LF). Qed.

Lemma line_pieces_nil (lines_ : Z) : line_pieces lines_ [].
Proof. by intros []. Qed.

Lemma line_pieces_one (lines_ : Z) p :
  p <> [] -> Z.of_nat (count_LF p) < lines_ -> line_pieces lines_ [p].
Proof.
  intros Hp Hcount [|i] p' Hlook; [|done]. simplify_eq/=.
  split_and!; [done|lia|lia|lia].
Qed.

Lemma line_pieces_cons (lines_ : Z) p pieces :
  Z.of_nat (count_LF p) = lines_ -> last p = Some Split.LF ->
  line_pieces lines_ pieces -> line_pieces lines_ (p :: pieces).
Proof.
  intros Hcount Hlast Hrest [|i] p' Hlook; simplify_eq/=.
  - split_and!; [by intros ->|lia|done|done].
  - destruct (Hrest i p' Hlook) as (? & ? & ? & Hfull).
    split_and!; [done..|]. intros Hi. apply Hfull. lia.
Qed.

Lemma splitByLines_loop_unfold fuel buffer lines_ begin index lineCount splitted :
  Split.splitByLines_loop (S fuel) buffer lines_ begin index lineCount splitted
  = if decide (begin = length buffer) then Ok splitted
    else if decide (length buffer < index)%nat
    then Ok (splitted ++ [Buffer_slice buffer (Z.of_nat begin) None])
    else if Split.is_LF (buffer !! index) then
      if lineCount =? lines_
      then Split.splitByLines_loop fuel buffer lines_ (index + 1) (S index) 1
             (splitted ++ [Buffer_slice buffer (Z.of_nat begin) (Some (Z.of_nat index + 1))])
      else Split.splitByLines_loop fuel buffer lines_ begin (S index) (lineCount + 1) splitted
    else Split.splitByLines_loop fuel buffer lines_ begin (S index) lineCount splitted.
Proof. done. Qed.

(** The loop, from a state in which the bytes [scanned] of the piece that
    begins after [pre] have been passed. *)
Lemma splitByLines_loop_spec (lines_ : Z) rest :
  forall fuel pre scanned splitted begin index lineCount,
  (length rest + 2 <= fuel)%nat ->
  begin = length pre -> index = (length pre + length scanned)%nat ->
  lineCount = 1 + Z.of_nat (count_LF scanned) ->
  exists pieces,
    Split.splitByLines_loop fuel (pre ++ scanned ++ rest) lines_ begin index lineCount splitted
    = Ok (splitted ++ pieces)
    /\ mjoin pieces = scanned ++ rest
    /\ Forall (fun p => p <> []) pieces
    /\ (Z.of_nat (count_LF scanned) < lines_ -> line_pieces lines_ pieces)
    /\ (lines_ < 1 -> scanned ++ rest <> [] -> pieces = [scanned ++ rest]).
Proof.
  induction rest as [|c rest IH];
    intros fuel pre scanned splitted begin index lineCount Hfuel -> -> ->.
  - destruct fuel as [|[|fuel]]; [simpl in Hfuel; lia..|].
    rewrite app_nil_r, splitByLines_loop_unfold, length_app.
    destruct (decide (length pre = length pre + length scanned)%nat) as [Hend|Hmore].
    { destruct scanned; [|simpl in Hend; lia].
      exists []. rewrite app_nil_r.
      split_and!; [done|done|done|intros; apply line_pieces_nil|done]. }
    rewrite decide_False by lia.
    rewrite (lookup_ge_None_2 (pre ++ scanned)) by (rewrite length_app; lia).
    cbn [Split.is_LF].
    rewrite splitByLines_loop_unfold, length_app.
    rewrite decide_False by done. rewrite decide_True by lia.
    rewrite slice_to_end.
    assert (scanned <> []) as Hne by (intros ->; simpl in Hmore; lia).
    exists [scanned]. split_and!.
    + done.
    + simpl. by rewrite app_nil_r.
    + by constructor.
    + intros Hlt. by apply line_pieces_one.
    + done.
  - destruct fuel as [|fuel]; [lia|]. simpl in Hfuel.
    rewrite splitByLines_loop_unfold, !length_app. cbn [length].
    rewrite decide_False by lia. rewrite decide_False by lia.
    assert (((pre ++ scanned ++ c :: rest) : Buffer) !! (length pre + length scanned)%nat
            = Some c) as ->.
    { rewrite app_assoc. apply list_lookup_middle. by rewrite length_app. }
    cbn [Split.is_LF].
    assert (pre ++ scanned ++ c :: rest = pre ++ (scanned ++ [c]) ++ rest) as Hsame
      by (by rewrite <- (app_assoc scanned)).
    assert (S (length pre + length scanned) = length pre + length (scanned ++ [c]))%nat
      as Hindex by (rewrite length_app; simpl; lia).
    destruct (Byte.eqb c Split.LF) eqn:Hc.
    + destruct (Z.eqb_spec (1 + Z.of_nat (count_LF scanned)) lines_) as [Hcut|Hgo].
      * assert (Buffer_slice (pre ++ scanned ++ c :: rest) (Z.of_nat (length pre))
                  (Some (Z.of_nat (length pre + length scanned) + 1)) = scanned ++ [c]) as ->.
        { replace (Z.of_nat (length pre + length scanned) + 1)
            with (Z.of_nat (length pre) + Z.of_nat (S (length scanned))) by lia.
          rewrite slice_chunk by lia. rewrite Nat2Z.id.
          replace (scanned ++ c :: rest) with ((scanned ++ [c]) ++ rest)
            by (by rewrite <- app_assoc).
          rewrite take_app_length'; [done|]. rewrite length_app. simpl. lia. }
        destruct (IH fuel (pre ++ scanned ++ [c]) [] (splitted ++ [scanned ++ [c]])
                    (length pre + length scanned + 1)%nat (S (length pre + length scanned)) 1)
          as (pieces & Hrun & Hjoin & Hne & Hlines & _).
        { lia. }
        { rewrite !length_app. simpl. lia. }
        { rewrite !length_app. simpl. lia. }
        { done. }
        replace ((pre ++ scanned ++ [c]) ++ [] ++ rest) with (pre ++ scanned ++ c :: rest)
          in Hrun by (by rewrite <- !app_assoc).
        exists ((scanned ++ [c]) :: pieces). split_and!.
        -- etrans; [exact Hrun|]. by rewrite <- app_assoc.
        -- simpl. rewrite Hjoin. by rewrite <- app_assoc.
        -- constructor; [by destruct scanned|done].
        -- intros Hlt. apply line_pieces_cons.
           ++ rewrite count_LF_app, count_LF_one, Hc. lia.
           ++ rewrite last_snoc. f_equal. by apply Byte.byte_dec_bl.
           ++ apply Hlines. unfold count_LF. simpl. lia.
        -- intros Hlow. lia.
      * destruct (IH fuel pre (scanned ++ [c]) splitted (length pre)
                    (S (length pre + length scanned)) (1 + Z.of_nat (count_LF scanned) + 1))
          as (pieces & Hrun & Hjoin & Hne & Hlines & Hone); [lia|done|done| |].
        { rewrite count_LF_app, count_LF_one, Hc. lia. }
        rewrite <- Hsame in Hrun. rewrite <- app_assoc in Hjoin, Hone.
        exists pieces. split_and!; [done..| |].
        -- intros Hlt. apply Hlines. rewrite count_LF_app, count_LF_one, Hc. lia.
        -- intros Hlow _. apply Hone; [done|]. by destruct scanned.
    + destruct (IH fuel pre (scanned ++ [c]) splitted (length pre)
                  (S (length pre + length scanned)) (1 + Z.of_nat (count_LF scanned)))
        as (pieces & Hrun & Hjoin & Hne & Hlines & Hone); [lia|done|done| |].
      { rewrite count_LF_app, count_LF_one, Hc. lia. }
      rewrite <- Hsame in Hrun. rewrite <- app_assoc in Hjoin, Hone.
      exists pieces. split_and!; [done..| |].
      * intros Hlt. apply Hlines. rewrite count_LF_app, count_LF_one, Hc. lia.
      * intros Hlow _. apply Hone; [done|]. by destruct scanned.
Qed.

Lemma splitByLines_spec buffer (lines_ : Z) :
  exists pieces,
    Split.splitByLines buffer lines_ = Ok pieces
    /\ mjoin pieces = buffer
    /\ Forall (fun p => p <> []) pieces
    /\ (1 <= lines_ -> line_pieces lines_ pieces)
    /\ (lines_ < 1 -> buffer <> [] -> pieces = [buffer]).
Proof.
  unfold Split.splitByLines.
  destruct (splitByLines_loop_spec lines_ buffer (length buffer + 2) [] [] [] 0%nat 0%nat 1)
    as (pieces & Hrun & Hjoin & Hne & Hlines & Hone); [done..|].
  exists pieces. split_and!; [done..| |done].
  intros Hpos. apply Hlines. unfold count_LF. simpl. lia.
Qed.

End line_facts.

(** X6.  Splitting by lines returns for every buffer and every line count,
    and the pieces, put together in order, are the buffer; none is empty.
    For a count of at least one, no piece holds more line feeds than the
    count, a piece that holds as many ends with the last of them, and every
    piece but the last holds as many: the pieces are the runs of [lines]
    lines, the last run being possibly shorter or unterminated.  For a count
    below one the buffer is never cut. *)
Theorem X6_splitByLines_partitions (buffer : Buffer) (lines_ : Z) :
  exists pieces,
    Split.splitByLines buffer lines_ = Ok pieces
    /\ mjoin pieces = buffer
    /\ (forall p, p ∈ pieces -> p <> [])
    /\ (1 <= lines_ ->
        forall i p, pieces !! i = Some p ->
          Z.of_nat (count_LF p) <= lines_
          /\ (Z.of_nat (count_LF p) = lines_ -> last p = Some Split.LF)
          /\ ((S i < length pieces)%nat -> Z.of_nat (count_LF p) = lines_))
    /\ (lines_ < 1 -> buffer <> [] -> pieces = [buffer])
    /\ (buffer = [] -> pieces = []).
Proof.
  destruct (splitByLines_spec buffer lines_) as (pieces & Hrun & Hjoin & Hne & Hlines & Hone).
  exists pieces. split_and!; try done.
  - intros p Hp. by apply (proj1 (Forall_forall _ _) Hne).
  - intros Hpos i p Hlook. by destruct (Hlines Hpos i p Hlook) as (_ & ? & ? & ?).
  - intros ->. destruct pieces as [|p pieces]; [done|].
    apply Forall_cons in Hne as [Hp _]. simpl in Hjoin.
    by apply app_eq_nil in Hjoin as [-> _].
Qed.

Section line_bytes_facts.
Context {rt : Runtime}.
Implicit Types (buffer line p : Buffer).

Lemma count_LF_middle pre post : (1 <= count_LF (pre ++ Split.LF :: post))%nat.
Proof.
  rewrite count_LF_app. change (Split.LF :: post) with ([Split.LF] ++ post).
  rewrite count_LF_app, count_LF_one. simpl. lia.
Qed.

(** A line that the split by one line returned has its line feed, if any,
    at the end. *)
Lemma single_line_LF_only_last line :
  (count_LF line <= 1)%nat -> (count_LF line = 1%nat -> last line = Some Split.LF) ->
  LF_only_last line.
Proof.
  intros Hle Hlast i Hi.
  pose proof (take_drop_middle line i Split.LF Hi) as Hsplit.
  pose proof (lookup_lt_Some _ _ _ Hi) as Hlt.
  destruct (drop (S i) line) as [|b post] eqn:Hdrop.
  - rewrite <- Hsplit, length_app, length_take_le by lia. simpl. lia.
  - exfalso.
    pose proof (count_LF_middle (take i line) (b :: post)) as Hone.
    rewrite Hsplit in Hone.
    assert (last line = Some Split.LF) as Hend by (apply Hlast; lia).
    rewrite <- Hsplit in Hend. rewrite last_app_cons, last_cons_cons in Hend.
    apply last_Some in Hend as [post' Hpost].
    pose proof (count_LF_middle (take i line ++ Split.LF :: post') []) as Htwo.
    rewrite <- app_assoc in Htwo. cbn [app] in Htwo.
    rewrite <- Hsplit, Hpost in Hle.
    rewrite count_LF_app in Hle.
    change (Split.LF :: post' ++ [Split.LF]) with ([Split.LF] ++ post' ++ [Split.LF]) in Hle.
    rewrite !count_LF_app, !count_LF_one in Hle. simpl in Hle. lia.
Qed.

(** A part of such a line is such a line. *)
Lemma LF_only_last_part pre p post :
  LF_only_last (pre ++ p ++ post) -> LF_only_last p.
Proof.
  intros Hline i Hi.
  pose proof (lookup_lt_Some _ _ _ Hi) as Hlt.
  assert ((pre ++ p ++ post) !! (length pre + i)%nat = Some Split.LF) as Hlook.
  { rewrite lookup_app_r by lia. rewrite lookup_app_l by lia.
    by replace (length pre + i - length pre)%nat with i by lia. }
  apply Hline in Hlook. rewrite !length_app in Hlook. lia.
Qed.

Lemma LF_only_last_pieces (line : list byte) (pieces : list (list byte)) :
  LF_only_last line -> mjoin pieces = line -> Forall LF_only_last pieces.
Proof.
  intros Hline Hjoin. apply Forall_forall. intros p Hp.
  apply list_elem_of_split in Hp as (l1 & l2 & ->).
  subst line. apply (LF_only_last_part (mjoin l1) p (mjoin l2)).
  replace (mjoin l1 ++ p ++ mjoin l2) with (mjoin (l1 ++ p :: l2)); [done|].
  apply (join_app l1 (p :: l2)).
Qed.

(** [splitByLines(buffer, 1).map(line => splitByBytes(line, n))], flattened. *)
Lemma split_each_line_spec (ls : list Buffer) (n : Z) :
  1 <= n -> Forall LF_only_last ls ->
  exists pieces,
    Split.split_each_line ls n = Ok pieces
    /\ mjoin pieces = mjoin ls
    /\ Forall (fun p => 1 <= Z.of_nat (length p) <= n /\ LF_only_last p) pieces.
Proof.
  intros Hn. induction ls as [|line ls IH]; intros Hls.
  - exists []. by split_and!.
  - apply Forall_cons in Hls as [Hline Hls].
    destruct (IH Hls) as (others & Hrun & Hjoin & Hall).
    destruct (splitByBytes_spec line n Hn) as (pieces & Hsplit & Hjoin' & Huni & _).
    exists (pieces ++ others). cbn [Split.split_each_line].
    rewrite Hsplit. cbn [mbind result_bind]. rewrite Hrun. cbn [mbind result_bind].
    split_and!; [done| |].
    + etrans; [apply (join_app pieces others)|].
      change (mjoin (line :: ls)) with (line ++ mjoin ls). congruence.
    + apply Forall_app. split; [|done].
      pose proof (uniform_pieces_bounds (Z.to_nat n) pieces ltac:(lia) Huni) as Hbounds.
      pose proof (LF_only_last_pieces line pieces Hline Hjoin') as Hlast.
      apply Forall_forall. intros p Hp.
      destruct (proj1 (Forall_forall _ _) Hbounds p Hp) as [Hne Hle].
      split; [|by apply (proj1 (Forall_forall _ _) Hlast)].
      destruct p; [done|]. simpl in *. lia.
Qed.

Lemma checkOptions_lines l :
  Split.checkOptions (Split.Object (lines_options l))
  = n ← Split.check_lines (lines_options l); Ok (Split.Build_options_of Z n None None).
Proof. cbn. by destruct (Split.check_lines (lines_options l)). Qed.

End line_bytes_facts.

(** X7.  A split by lines is refused with "Invalid number of lines" when
    the count is [NaN], infinite, below [1] or above [2^53 - 1]; a count
    from [1] to [2^53 - 1] is rounded down, and the buffer is then always
    split, into pieces that make it up. *)
Theorem X7_lines_option {rt : Runtime} (buffer : Buffer) :
  (forall x, x = NaN \/ x = PosInf \/ x = NegInf ->
     Split.splitSync buffer (Split.Object (lines_options (VNumber x)))
     = Throw (Error "Invalid number of lines"))
  /\ (forall q, (q < 1)%Q \/ (inject_Z MAX_SAFE_INTEGER < q)%Q ->
        Split.splitSync buffer (Split.Object (lines_options (VNumber (Fin q))))
        = Throw (Error "Invalid number of lines"))
  /\ (forall q, (1 <= q)%Q -> (q <= inject_Z MAX_SAFE_INTEGER)%Q ->
        Split.splitSync buffer (Split.Object (lines_options (VNumber (Fin q))))
        = Split.splitByLines buffer (Qfloor q)
        /\ exists pieces,
             Split.splitByLines buffer (Qfloor q) = Ok pieces
             /\ mjoin pieces = buffer /\ line_pieces (Qfloor q) pieces).
Proof.
  split_and!.
  - intros x [-> | [-> | ->]]; reflexivity.
  - intros q Hq. unfold Split.splitSync. rewrite checkOptions_lines.
    unfold Split.check_lines. cbn [Split.lines lines_options isNaN ToNumber].
    destruct Hq as [Hq|Hq].
    + assert (js_lt (VNumber (Fin q)) (num_of_Z 1) = true) as -> by (by apply js_lt_Fin).
      by rewrite orb_true_r.
    + destruct (Split.isSafe (VNumber (Fin q))) eqn:Hsafe; [|done].
      apply isSafe_Fin in Hsafe as [_ Hle]. by apply Qlt_not_le in Hq.
  - intros q Hlo Hhi. split.
    + unfold Split.splitSync. rewrite checkOptions_lines.
      unfold Split.check_lines. cbn [Split.lines lines_options isNaN ToNumber].
      assert (Split.isSafe (VNumber (Fin q)) = true) as ->.
      { apply isSafe_Fin. split; [|done]. eapply Qle_trans; [|exact Hlo]. done. }
      destruct (js_lt (VNumber (Fin q)) (num_of_Z 1)) eqn:Hlt.
      { apply js_lt_Fin in Hlt. by apply Qlt_not_le in Hlt. }
      reflexivity.
    + destruct (splitByLines_spec buffer (Qfloor q)) as (pieces & Hrun & Hjoin & _ & Hlines & _).
      exists pieces. split_and!; [done..|]. apply Hlines. by apply Qfloor_ge_1.
Qed.

Lemma X7_witness :
  Split.splitSync (rt := Sample.runtime Sample.zero_pool) [x61; x0a; x62; x0a; x63]
    (Split.Object (lines_options (VNumber (Fin (5 # 2)))))
  = Ok [[x61; x0a; x62; x0a]; [x63]]
  /\ Split.splitSync (rt := Sample.runtime Sample.zero_pool) [x61; x0a; x62; x0a; x63]
       (Split.Object (lines_options (VNumber (Fin (1 # 2)))))
     = Throw (Error "Invalid number of lines").
Proof.
  destruct (X7_lines_option (rt := Sample.runtime Sample.zero_pool)
              [x61; x0a; x62; x0a; x63]) as (_ & Hbad & Hok).
  split.
  - destruct (Hok (5 # 2)) as [-> _]; [discriminate..|]. reflexivity.
  - apply Hbad. left. reflexivity.
Defined.

(** X8.  A split by line-bounded bytes with a size from [1] to [2^53 - 1]
    always returns; its pieces make up the buffer, each has between one byte
    and the size (rounded down), and a line feed is always the last byte of
    its piece, so that no piece runs across the end of a line. *)
Theorem X8_line_bytes_pieces {rt : Runtime} (buffer : Buffer) (q : Q) :
  (1 <= q)%Q -> (q <= inject_Z MAX_SAFE_INTEGER)%Q ->
  exists pieces,
    Split.splitSync buffer (Split.Object (size_options false (VNumber (Fin q)))) = Ok pieces
    /\ mjoin pieces = buffer
    /\ (forall p, p ∈ pieces ->
          1 <= Z.of_nat (length p) <= Qfloor q
          /\ forall i, p !! i = Some Split.LF -> S i = length p).
Proof.
  intros Hlo Hhi. unfold Split.splitSync.
  rewrite checkOptions_size, check_size_number_ok by done.
  cbn [mbind result_bind Split._split size_options Split.lines Split.bytes Split.line_bytes].
  destruct (splitByLines_spec buffer 1) as (ls & Hrun & Hjoin & _ & Hlines & _).
  rewrite Hrun. cbn [mbind result_bind].
  destruct (split_each_line_spec ls (Qfloor q)) as (pieces & Hsplit & Hjoin' & Hall).
  { by apply Qfloor_ge_1. }
  { apply Forall_forall. intros line Hline.
    apply list_elem_of_lookup in Hline as [i Hi].
    destruct (Hlines ltac:(lia) i line Hi) as (_ & Hle & Hend & _).
    apply single_line_LF_only_last; [lia|]. intros Hone. apply Hend. lia. }
  exists pieces. split_and!; [done|congruence|].
  intros p Hp. exact (proj1 (Forall_forall _ _) Hall p Hp).
Qed.

Lemma X8_witness :
  exists pieces,
    Split.splitSync (rt := Sample.runtime Sample.zero_pool) [x61; x62; x63; x0a; x64]
      (Split.Object (size_options false (VNumber (Fin 2)))) = Ok pieces
    /\ mjoin pieces = [x61; x62; x63; x0a; x64].
Proof.
  destruct (X8_line_bytes_pieces (rt := Sample.runtime Sample.zero_pool)
              [x61; x62; x63; x0a; x64] 2) as (pieces & Hrun & Hjoin & _);
    [discriminate..|].
  exists pieces. split; [exact Hrun|exact Hjoin].
Defined.

(** ** Sizes in shorthand *)

Section shorthand_facts.
Context {rt : Runtime}.

Lemma span_digits_app (digits unit : string) :
  Sample.all_digits digits = true ->
  Split.span_digits unit = (EmptyString, unit) ->
  Split.span_digits (digits ++ unit) = (digits, unit).
Proof.
  intros Hdigits Hunit. induction digits as [|c digits IH]; [done|].
  cbn [Sample.all_digits] in Hdigits. apply andb_true_iff in Hdigits as [Hc Hdigits].
  cbn [String.append Split.span_digits]. by rewrite Hc, IH.
Qed.

Lemma is_digit_value c : Split.is_digit c = true -> 0 <= Z.of_N (N_of_ascii c) - 48 <= 9.
Proof.
  unfold Split.is_digit. cbv zeta.
  rewrite andb_true_iff, !N.leb_le. lia.
Qed.

Lemma decimal_value_nonneg (digits : string) :
  Sample.all_digits digits = true -> 0 <= Split.decimal_value digits.
Proof.
  assert (forall acc, 0 <= acc -> Sample.all_digits digits = true ->
          0 <= (fix go (acc : Z) (s : string) {struct s} : Z :=
                  match s with
                  | EmptyString => acc
                  | String c rest => go (10 * acc + (Z.of_N (N_of_ascii c) - 48)) rest
                  end) acc digits) as Hgo.
  { induction digits as [|c digits IH]; intros acc Hacc Hdigits; [done|].
    cbn [Sample.all_digits] in Hdigits. apply andb_true_iff in Hdigits as [Hc Hdigits].
    apply IH; [|done]. apply is_digit_value in Hc. lia. }
  intros Hdigits. by apply (Hgo 0).
Qed.

(** The units the [switch] knows. *)
Lemma unit_factor_Some unit u :
  Split.unit_factor unit = Some u ->
  (unit = "k" \/ unit = "K" \/ unit = "m" \/ unit = "M"
   \/ unit = "kb" \/ unit = "KB" \/ unit = "mb" \/ unit = "MB")%string
  /\ 1000 <= u.
Proof.
  unfold Split.unit_factor.
  destruct (String.eqb_spec unit "k") as [->|_]; [intros [= <-]; split; [tauto|lia]|].
  destruct (String.eqb_spec unit "K") as [->|_]; [intros [= <-]; split; [tauto|lia]|].
  destruct (String.eqb_spec unit "m") as [->|_]; [intros [= <-]; split; [tauto|lia]|].
  destruct (String.eqb_spec unit "M") as [->|_]; [intros [= <-]; split; [tauto|lia]|].
  destruct (String.eqb_spec unit "kb") as [->|_]; [intros [= <-]; split; [tauto|lia]|].
  destruct (String.eqb_spec unit "KB") as [->|_]; [intros [= <-]; split; [tauto|lia]|].
  destruct (String.eqb_spec unit "mb") as [->|_]; [intros [= <-]; split; [tauto|lia]|].
  destruct (String.eqb_spec unit "MB") as [->|_]; [intros [= <-]; split; [tauto|lia]|].
  done.
Qed.

Lemma shorthand_digits_unit (digits unit : string) u :
  digit_string digits -> Split.unit_factor unit = Some u ->
  Split.shorthand (digits ++ unit) = Some (digits, unit).
Proof.
  intros [Hne Hdigits] Hunit.
  apply unit_factor_Some in Hunit as [Hunit _].
  unfold Split.shorthand.
  rewrite span_digits_app; [|done|].
  - destruct digits; [done|].
    destruct Hunit as [-> | [-> | [-> | [-> | [-> | [-> | [-> | ->]]]]]]]; reflexivity.
  - destruct Hunit as [-> | [-> | [-> | [-> | [-> | [-> | [-> | ->]]]]]]]; reflexivity.
Qed.

Lemma isSafe_of_Z z :
  Split.isSafe (VNumber (num_of_Z z)) = true <-> MIN_SAFE_INTEGER <= z <= MAX_SAFE_INTEGER.
Proof.
  unfold Split.isSafe. cbn [ToNumber]. by rewrite andb_true_iff, !num_le_of_Z.
Qed.

Lemma check_size_shorthand (digits unit : string) u :
  digit_string digits -> Split.unit_factor unit = Some u ->
  StringToNumber (digits ++ unit) = NaN ->
  Split.check_size (VString (digits ++ unit))
  = if Split.decimal_value digits * u <=? MAX_SAFE_INTEGER
    then Ok (Split.decimal_value digits * u)
    else Throw (Error "Invalid number of bytes").
Proof.
  intros Hdigits Hunit Hnan.
  unfold Split.check_size, isNaN. cbn [ToNumber Split.exec_shorthand].
  rewrite Hnan, (shorthand_digits_unit digits unit u) by done.
  unfold Split.shorthand_product. rewrite Hunit.
  pose proof (decimal_value_nonneg digits (proj2 Hdigits)) as Hpos.
  apply unit_factor_Some in Hunit as [_ Hu].
  destruct (Z.leb_spec (Split.decimal_value digits * u) MAX_SAFE_INTEGER) as [Hle|Hgt].
  - assert (Split.isSafe (VNumber (num_of_Z (Split.decimal_value digits * u))) = true) as ->.
    { apply isSafe_of_Z. split; [|done]. unfold MIN_SAFE_INTEGER. nia. }
    cbn [negb Math_floor num_of_Z]. by rewrite Qfloor_inject_Z.
  - destruct (Split.isSafe (VNumber (num_of_Z (Split.decimal_value digits * u)))) eqn:Hsafe;
      [|done].
    apply isSafe_of_Z in Hsafe. lia.
Qed.

(** With a size that is not positive the byte loop makes no progress on a
    buffer that is not empty. *)
Lemma splitByBytes_loop_stuck fuel buffer size begin end_ splitted :
  buffer <> [] -> size <= 0 -> begin <= 0 -> end_ <= 0 ->
  Split.splitByBytes_loop fuel buffer size begin end_ splitted = OutOfFuel.
Proof.
  intros Hne Hsize. revert begin end_ splitted.
  induction fuel as [|fuel IH]; intros begin end_ splitted Hbegin Hend; [done|].
  cbn [Split.splitByBytes_loop].
  assert (0 < Z.of_nat (length buffer)) by (destruct buffer; [done|simpl; lia]).
  destruct (Z.eqb_spec begin (Z.of_nat (length buffer))); [lia|].
  destruct (Z.ltb_spec (Z.of_nat (length buffer)) end_); [lia|].
  apply IH; lia.
Qed.

End shorthand_facts.

(** X9.  A size written as digits followed by one of the units [k], [K],
    [m], [M], [kb], [KB], [mb], [MB] (a string the host does not read as a
    number) stands for the digits times 1024, 1048576, 1000 or 1000000: it
    is accepted as that product when the product is at most [2^53 - 1], and
    every larger one is refused.  A unit in mixed case ([Kb], [kB], [Mb],
    [mB]) passes the pattern but none of the cases, and is refused. *)
Theorem X9_shorthand_size {rt : Runtime} (by_bytes : bool) (digits unit : string) :
  digit_string digits ->
  StringToNumber (digits ++ unit) = NaN ->
  (forall u, Split.unit_factor unit = Some u ->
     u = (if String.eqb (Split.lower unit) "k" then 1024
          else if String.eqb (Split.lower unit) "m" then 1048576
          else if String.eqb (Split.lower unit) "kb" then 1000 else 1000000)
     /\ Split.checkOptions (Split.Object (size_options by_bytes (VString (digits ++ unit))))
        = if Split.decimal_value digits * u <=? MAX_SAFE_INTEGER
          then Ok (size_options by_bytes (Split.decimal_value digits * u))
          else Throw (Error "Invalid number of bytes"))
  /\ ((unit = "Kb" \/ unit = "kB" \/ unit = "Mb" \/ unit = "mB")%string ->
      Split.checkOptions (Split.Object (size_options by_bytes (VString (digits ++ unit))))
      = Throw (Error "Invalid number of bytes")).
Proof.
  intros Hdigits Hnan. split.
  - intros u Hunit. split.
    + pose proof (unit_factor_Some unit u Hunit) as [Hcases _].
      destruct Hcases as [-> | [-> | [-> | [-> | [-> | [-> | [-> | ->]]]]]]];
        by injection Hunit as <-.
    + rewrite checkOptions_size, (check_size_shorthand digits unit u) by done.
      by destruct (Split.decimal_value digits * u <=? MAX_SAFE_INTEGER).
  - intros Hunit. rewrite checkOptions_size.
    assert (Split.check_size (VString (digits ++ unit))
            = Throw (Error "Invalid number of bytes")) as ->; [|done].
    unfold Split.check_size, isNaN. cbn [ToNumber Split.exec_shorthand].
    rewrite Hnan. unfold Split.shorthand.
    destruct Hdigits as [Hne Hdigits].
    rewrite span_digits_app; [|done|].
    + destruct digits; [done|].
      destruct Hunit as [-> | [-> | [-> | ->]]]; reflexivity.
    + destruct Hunit as [-> | [-> | [-> | ->]]]; reflexivity.
Qed.

Lemma X9_witness :
  Split.checkOptions (rt := Sample.runtime Sample.zero_pool)
    (Split.Object (size_options true (VString "4M")))
  = Ok (size_options true 4194304)
  /\ Split.checkOptions (rt := Sample.runtime Sample.zero_pool)
       (Split.Object (size_options true (VString "4Kb")))
     = Throw (Error "Invalid number of bytes").
Proof.
  split.
  - destruct (X9_shorthand_size (rt := Sample.runtime Sample.zero_pool) true "4" "M")
      as [Hok _]; [by split|reflexivity|].
    destruct (Hok 1048576 eq_refl) as [_ Hrun]. exact Hrun.
  - destruct (X9_shorthand_size (rt := Sample.runtime Sample.zero_pool) true "4" "Kb")
      as [_ Hbad]; [by split|reflexivity|].
    apply Hbad. left. reflexivity.
Defined.

(** X10.  The shorthand path has no lower bound: digits that denote zero
    ("0K", "00MB") are accepted as a size of [0] bytes.  With that size the
    byte loop never leaves on a buffer that is not empty - no number of
    passes returns - so neither the splitter nor [fromBuffer] returns; the
    empty buffer is split into no piece. *)
Theorem X10_zero_shorthand_never_returns {rt : Runtime} (digits unit : string) (u : Z)
    (buffer : Buffer) :
  digit_string digits -> Split.decimal_value digits = 0 ->
  Split.unit_factor unit = Some u ->
  StringToNumber (digits ++ unit) = NaN ->
  Split.checkOptions (Split.Object (size_options true (VString (digits ++ unit))))
  = Ok (size_options true 0)
  /\ Split.splitSync [] (Split.Object (size_options true (VString (digits ++ unit)))) = Ok []
  /\ (buffer <> [] ->
      (forall fuel, Split.splitByBytes_loop fuel buffer 0 0 0 [] = OutOfFuel)
      /\ Split.splitSync buffer (Split.Object (size_options true (VString (digits ++ unit))))
         = OutOfFuel
      /\ forall h padLastSlice rnd draws,
           Dag.fromBuffer buffer (Some (VString (digits ++ unit))) h padLastSlice rnd draws
           = OutOfFuel).
Proof.
  intros Hdigits Hzero Hunit Hnan.
  assert (Split.checkOptions (Split.Object (size_options true (VString (digits ++ unit))))
          = Ok (size_options true 0)) as Hcheck.
  { rewrite checkOptions_size, (check_size_shorthand digits unit u) by done.
    by rewrite Hzero. }
  split_and!; [done| |].
  - unfold Split.splitSync. by rewrite Hcheck.
  - intros Hne.
    assert (Split.splitSync buffer
              (Split.Object (size_options true (VString (digits ++ unit)))) = OutOfFuel)
      as Hsplit.
    { unfold Split.splitSync. rewrite Hcheck.
      cbn [mbind result_bind Split._split size_options Split.lines Split.bytes].
      by apply splitByBytes_loop_stuck. }
    split_and!; [|done|].
    + intros fuel. by apply splitByBytes_loop_stuck.
    + intros h padLastSlice rnd draws. unfold Dag.fromBuffer.
      cbn [default from_option id].
      change {| Split.lines := None; Split.bytes := Some (VString (digits ++ unit));
                Split.line_bytes := None |}
        with (size_options true (VString (digits ++ unit))).
      by rewrite Hsplit.
Qed.

Lemma X10_witness :
  Split.checkOptions (rt := Sample.runtime Sample.zero_pool)
    (Split.Object (size_options true (VString "0K")))
  = Ok (size_options true 0)
  /\ forall fuel, Split.splitByBytes_loop fuel [x01] 0 0 0 [] = OutOfFuel.
Proof.
  destruct (X10_zero_shorthand_never_returns (rt := Sample.runtime Sample.zero_pool)
              "0" "K" 1024 [x01]) as (Hcheck & _ & Hstuck).
  - by split.
  - reflexivity.
  - reflexivity.
  - reflexivity.
  - split; [exact Hcheck|]. destruct Hstuck as (Hloop & _); [discriminate|]. exact Hloop.
Defined.

(** * Further properties of the DAG *)

Section round_trip.
Context {rt : Runtime}.

Lemma Buffer_fill_prefix (buf value : Buffer) k buf' :
  Buffer_fill buf value (Some (VNumber (num_of_Z (Z.of_nat k)))) = Ok buf' ->
  take k buf' = take k buf.
Proof.
  unfold Buffer_fill. cbn [fill_start]. rewrite validateOffset_nat.
  cbn [mbind result_bind].
  destruct (decide (length buf <= k)%nat); [by intros [= <-]|].
  destruct value; [done|]. intros [= <-].
  rewrite take_app_le by (rewrite length_take; lia).
  rewrite take_take. f_equal. lia.
Qed.

Lemma Buffer_fill_byte_prefix (buf : Buffer) b k buf' :
  Buffer_fill_byte buf b (Some (VNumber (num_of_Z (Z.of_nat k)))) = Ok buf' ->
  take k buf' = take k buf.
Proof.
  unfold Buffer_fill_byte. cbn [fill_start]. rewrite validateOffset_nat.
  cbn [mbind result_bind].
  destruct (decide (length buf <= k)%nat); [by intros [= <-]|]. intros [= <-].
  rewrite take_app_le by (rewrite length_take; lia).
  rewrite take_take. f_equal. lia.
Qed.

(** Whatever the fill, a padded piece begins with the piece. *)
Lemma pad_prefix size rnd (s : Buffer) draws buf draws' :
  Dag.pad size rnd s draws = Ok (buf, draws') ->
  s <> [] -> (length s <= length buf)%nat -> take (length s) buf = s.
Proof.
  intros Hrun Hs Hlen. revert Hrun. unfold Dag.pad.
  destruct (Buffer_alloc size) as [bufN| |] eqn:Halloc; [|done..].
  cbn [mbind result_bind].
  destruct (Buffer_fill bufN s None) as [buf1| |] eqn:Hfill1; [|done..].
  cbn [mbind result_bind].
  pose proof (Buffer_fill_length _ _ _ _ Hfill1) as Hlen1.
  intros Hrun.
  assert (take (length s) buf = take (length s) buf1 /\ length buf = length buf1) as [-> Hsame].
  { destruct (rnd && bool_decide (length s < length buf1)%nat).
    - destruct (Dag.randomFill (length buf1 - length s) draws) as [[noise d1]| |]; [|done..].
      cbn [mbind result_bind] in Hrun.
      destruct (Buffer_fill buf1 noise _) as [buf2| |] eqn:Hfill2; [|done..].
      simplify_eq/=. split; [by eapply Buffer_fill_prefix|by eapply Buffer_fill_length].
    - destruct (Buffer_fill_byte buf1 x00 _) as [buf2| |] eqn:Hfill2; [|done..].
      simplify_eq/=.
      split; [by eapply Buffer_fill_byte_prefix|by eapply Buffer_fill_byte_length]. }
  revert Hfill1. unfold Buffer_fill. cbn [fill_start mbind result_bind].
  destruct (decide (length bufN <= 0)%nat).
  { destruct s; [done|]. simpl in Hlen. lia. }
  destruct s as [|c s]; [done|]. intros [= <-].
  apply cyclic_prefix; [done|lia].
Qed.

Lemma map_pad_prefix size rnd pieces draws bufs draws' :
  Dag.map_pad size rnd pieces draws = Ok (bufs, draws') ->
  Forall2 (fun (s buf : Buffer) =>
             s <> [] -> (length s <= length buf)%nat -> take (length s) buf = s)
    pieces bufs.
Proof.
  revert draws bufs draws'.
  induction pieces as [|s pieces IH]; intros draws bufs draws' Hrun.
  - simplify_eq/=. constructor.
  - cbn [Dag.map_pad] in Hrun.
    destruct (Dag.pad size rnd s draws) as [[buf d1]| |] eqn:Hpad; [|done..].
    cbn [mbind result_bind] in Hrun.
    destruct (Dag.map_pad size rnd pieces d1) as [[others d2]| |] eqn:Hrest; [|done..].
    simplify_eq/=. constructor; [|by eapply IH].
    intros Hs Hlen. by eapply pad_prefix.
Qed.

Lemma uniform_pieces_tail n (s : Buffer) pieces :
  uniform_pieces n (s :: pieces) -> uniform_pieces n pieces.
Proof.
  intros [Hfull Hlast]. split.
  - intros i p Hp Hi. apply (Hfull (S i) p Hp). simpl. lia.
  - intros p Hp. apply Hlast. destruct pieces; [done|]. by rewrite last_cons_cons.
Qed.

Lemma uniform_pieces_head n (s p : Buffer) pieces :
  uniform_pieces n (s :: p :: pieces) -> length s = n.
Proof. intros [Hfull _]. apply (Hfull 0%nat s eq_refl). simpl. lia. Qed.

(** Shards of [n] bytes that begin with uniform pieces begin, put
    together, with the pieces put together. *)
Lemma shards_begin_with_pieces n (pieces bufs : list (list byte)) :
  (1 <= n)%nat -> uniform_pieces n pieces ->
  Forall (fun buf => length buf = n) bufs ->
  Forall2 (fun (s buf : Buffer) =>
             s <> [] -> (length s <= length buf)%nat -> take (length s) buf = s)
    pieces bufs ->
  take (length (mjoin pieces)) (mjoin bufs) = mjoin pieces.
Proof.
  intros Hn Huni Hlens Hpre. revert Huni Hlens.
  induction Hpre as [|s buf pieces bufs Hs _ IH]; intros Huni Hlens; [done|].
  apply Forall_cons in Hlens as [Hbuf Hlens].
  pose proof (uniform_pieces_bounds n _ Hn Huni) as Hbounds.
  apply Forall_cons in Hbounds as [[Hne Hle] _].
  specialize (Hs Hne ltac:(lia)).
  change (mjoin (s :: pieces)) with (s ++ mjoin pieces).
  change (mjoin (buf :: bufs)) with (buf ++ mjoin bufs).
  destruct pieces as [|p pieces].
  - change (mjoin []) with (@nil byte). rewrite app_nil_r.
    rewrite take_app_le by lia. done.
  - pose proof (uniform_pieces_head n s p pieces Huni) as Hfull.
    assert (buf = s) as -> by (rewrite <- Hs; symmetry; apply take_ge; lia).
    rewrite length_app, take_app_add.
    f_equal. apply IH; [by eapply uniform_pieces_tail|done].
Qed.

(** The number of uniform pieces. *)
Lemma uniform_pieces_count n (pieces : list (list byte)) :
  (1 <= n)%nat -> uniform_pieces n pieces ->
  length pieces = ((length (mjoin pieces) + n - 1) / n)%nat.
Proof.
  intros Hn. induction pieces as [|s pieces IH]; intros Huni.
  - simpl. symmetry. apply Nat.div_small. lia.
  - pose proof (uniform_pieces_bounds n _ Hn Huni) as Hbounds.
    apply Forall_cons in Hbounds as [[Hne Hle] _].
    change (mjoin (s :: pieces)) with (s ++ mjoin pieces). rewrite length_app.
    destruct pieces as [|p pieces].
    + change (mjoin []) with (@nil byte). simpl.
      assert (length s <> 0)%nat by (by destruct s).
      apply (Nat.div_unique _ _ _ (length s - 1)); lia.
    + rewrite (uniform_pieces_head n s p pieces Huni).
      change (length (s :: p :: pieces)) with (S (length (p :: pieces))).
      rewrite (IH (uniform_pieces_tail _ _ _ Huni)).
      replace (n + length (mjoin (p :: pieces)) + n - 1)%nat
        with (1 * n + (length (mjoin (p :: pieces)) + n - 1))%nat by lia.
      rewrite Nat.div_add_l by lia. done.
Qed.

Lemma splitByBytes_empty size : Split.splitByBytes [] size = Ok [].
Proof. done. Qed.

(** What a split by bytes returned, whatever the size was. *)
Lemma splitSync_bytes_inv (buffer : Buffer) size pieces :
  Split.splitSync buffer (Split.Object (size_options true size)) = Ok pieces ->
  mjoin pieces = buffer
  /\ (buffer = [] -> pieces = [])
  /\ (buffer <> [] ->
      exists n, 1 <= n /\ Split.check_size size = Ok n
                /\ uniform_pieces (Z.to_nat n) pieces).
Proof.
  unfold Split.splitSync. rewrite checkOptions_size.
  destruct (Split.check_size size) as [n| |]; [|done..].
  cbn [mbind result_bind Split._split size_options Split.lines Split.bytes].
  destruct (decide (1 <= n)) as [Hn|Hn].
  - destruct (splitByBytes_spec buffer n Hn) as (pieces' & -> & Hjoin & Huni & Hnil).
    intros [= <-]. split_and!; [done..|]. intros _. by exists n.
  - destruct buffer as [|b buffer].
    + rewrite splitByBytes_empty. intros [= <-]. by split_and!.
    + unfold Split.splitByBytes. rewrite splitByBytes_loop_stuck; [done|done|lia..].
Qed.

Lemma check_size_number x n :
  Split.check_size (VNumber x) = Ok n -> n = Math_floor x.
Proof.
  unfold Split.check_size, isNaN. cbn [ToNumber Split.exec_shorthand].
  destruct x; try done.
  destruct (negb _ || _); [done|]. by intros [= <-].
Qed.

(** What a DAG that [fromBuffer] returned says about the buffer. *)
Lemma fromBuffer_inv (buffer : Buffer) (size : option jsval)
    (h : Tree.hasher_arg) (padLastSlice rnd : bool) (draws : nat) (d : Dag.DAG)
    (draws' : nat) :
  Dag.fromBuffer buffer size h padLastSlice rnd draws = Ok (d, draws') ->
  Dag.sliceIndex d = Z.of_nat (length buffer)
  /\ take (Z.to_nat (Dag.sliceIndex d)) (mjoin (Dag.toArray d)) = buffer
  /\ (buffer = [] -> Dag.toArray d = [])
  /\ (buffer <> [] ->
      exists x n, size = Some (VNumber x) /\ Math_floor x = Z.of_nat n /\ (1 <= n)%nat
        /\ Forall (fun s => length s = n) (Dag.toArray d)
        /\ length (Dag.toArray d) = ((length buffer + n - 1) / n)%nat).
Proof.
  intros Hrun.
  assert (Dag.sliceIndex d = Z.of_nat (length buffer)) as Hindex.
  { revert Hrun. unfold Dag.fromBuffer.
    destruct (Split.splitSync buffer _) as [pieces| |]; [|done..].
    cbn [mbind result_bind].
    destruct (Dag.map_pad _ rnd pieces draws) as [[shards_ d1]| |]; [|done..].
    cbn [mbind result_bind].
    destruct (Dag.new shards_ _) as [dag| |] eqn:Hnew; [|done..].
    intros [= <- <-]. by apply new_dag_inv in Hnew as (_ & -> & _). }
  apply fromBuffer_shards in Hrun as (pieces & Hsplit & Hmap).
  apply splitSync_bytes_inv in Hsplit as (Hjoin & Hnil & Hsome).
  pose proof (map_pad_length _ _ _ _ _ _ Hmap) as [Hcount Hlens].
  pose proof (map_pad_prefix _ _ _ _ _ _ Hmap) as Hpre.
  unfold Dag.toArray. rewrite Hindex, Nat2Z.id.
  destruct buffer as [|b buffer].
  - rewrite (Hnil eq_refl) in Hcount.
    destruct (Dag.shards d); [|done]. by split_and!.
  - destruct Hsome as (n & Hn & Hcheck & Huni); [done|].
    assert (pieces <> []) as Hpieces by (by intros ->).
    destruct (Hlens Hpieces) as (x & Hsize & _ & Hall).
    rewrite Hsize in Hcheck. apply check_size_number in Hcheck as ->.
    assert (take (length (b :: buffer)) (mjoin (Dag.shards d)) = b :: buffer) as Hround.
    { rewrite <- Hjoin.
      apply (shards_begin_with_pieces (Z.to_nat (Math_floor x))); [lia|done..]. }
    split_and!; [done|done|done|]. intros _.
    exists x, (Z.to_nat (Math_floor x)). split_and!.
    + destruct size as [size|]; [|done]. simpl in Hsize. by subst.
    + lia.
    + lia.
    + done.
    + rewrite Hcount, <- Hjoin. apply uniform_pieces_count; [lia|done].
Qed.

(** The shards of a DAG that [fromBuffer] returned for a number [n]: the
    pieces of the split by [n] bytes, in order, each extended to [n]
    bytes. *)
Lemma fromBuffer_pads_the_pieces (buffer : Buffer) (n : Z) (h : Tree.hasher_arg)
    (padLastSlice rnd : bool) (draws : nat) (d : Dag.DAG) (draws' : nat) :
  Dag.fromBuffer buffer (Some (VNumber (num_of_Z n))) h padLastSlice rnd draws
  = Ok (d, draws') ->
  1 <= n
  /\ exists pieces,
       Split.splitByBytes buffer n = Ok pieces
       /\ mjoin pieces = buffer
       /\ uniform_pieces (Z.to_nat n) pieces
       /\ length (Dag.shards d) = length pieces
       /\ Forall (fun shard => Z.of_nat (length shard) = n) (Dag.shards d)
       /\ Forall2 (fun (s shard : Buffer) => take (length s) shard = s)
            pieces (Dag.shards d).
Proof.
  intros Hrun.
  apply fromBuffer_shards in Hrun as (pieces & Hsplit & Hmap).
  cbn [default from_option id] in Hsplit, Hmap.
  unfold Split.splitSync in Hsplit. rewrite checkOptions_size in Hsplit.
  destruct (decide (1 <= n)) as [Hn|Hn].
  2:{ pose proof (check_size_number_small (inject_Z n)) as Hsmall.
      change (VNumber (Fin (inject_Z n))) with (VNumber (num_of_Z n)) in Hsmall.
      rewrite Hsmall in Hsplit; [done|].
      change 1%Q with (inject_Z 1). rewrite <- Zlt_Qlt. lia. }
  destruct (Split.check_size (VNumber (num_of_Z n))) as [n'| |] eqn:Hsize; [|done..].
  apply check_size_number in Hsize. unfold Math_floor, num_of_Z in Hsize.
  rewrite Qfloor_Z in Hsize. subst n'.
  cbn [mbind result_bind Split._split size_options Split.lines Split.bytes] in Hsplit.
  destruct (splitByBytes_spec buffer n Hn) as (pieces' & Hsplit' & Hjoin & Huni & _).
  rewrite Hsplit' in Hsplit. injection Hsplit as ->.
  split; [done|]. exists pieces.
  pose proof (map_pad_length _ _ _ _ _ _ Hmap) as [Hcount Hlens].
  pose proof (map_pad_prefix _ _ _ _ _ _ Hmap) as Hpre.
  pose proof (uniform_pieces_bounds (Z.to_nat n) pieces ltac:(lia) Huni) as Hbounds.
  assert (Forall (fun shard => Z.of_nat (length shard) = n) (Dag.shards d)) as Hall.
  { destruct pieces as [|p pieces].
    - destruct (Dag.shards d); [constructor|done].
    - destruct Hlens as (x & [= <-] & _ & Hall); [done|].
      eapply Forall_impl; [exact Hall|]. intros shard Hshard.
      unfold Math_floor, num_of_Z in Hshard. rewrite Qfloor_Z in Hshard. lia. }
  split_and!; [done..|].
  clear Hmap Hlens Hcount Hjoin Huni Hsplit'.
  induction Hpre as [|s shard pieces shards_ Hs Hpre IH]; [constructor|].
  apply Forall_cons in Hbounds as [[Hne Hle] Hbounds].
  apply Forall_cons in Hall as [Hshard Hall].
  constructor; [apply Hs; [done|lia]|by apply IH].
Qed.

End round_trip.

(** ** C4: every shard of a DAG has the slice size *)

(** C4.  For every buffer and every integer shard size [n], whatever the
    [padLastSlice] and [randomFill] flags, the shards of a DAG that
    [fromBuffer] returns are the pieces of the buffer, one shard for each
    piece of the split by [n] bytes and in the same order - as many as the
    length divided by [n], rounded up, hence at least one for a buffer that
    is not empty - and every one of them is padded: it has exactly [n]
    bytes, it begins with its piece, and it is its piece when that already
    has [n] bytes.  [padLastSlice] does not change the outcome; padding a
    piece that already has [n] bytes returns it as it is, with or without
    random fill; and with a size from [1] to [2^53 - 1] that a buffer may
    have, and no random fill, a DAG is returned, whose shards are the
    pieces followed by zero bytes. *)
Theorem C4_every_shard_has_slice_size {rt : Runtime} (n : Z) :
  (forall buffer h padLastSlice rnd draws d draws',
     Dag.fromBuffer buffer (Some (VNumber (num_of_Z n))) h padLastSlice rnd draws
     = Ok (d, draws') ->
     Forall (fun s => Z.of_nat (length s) = n) (Dag.shards d)
     /\ exists pieces,
          Split.splitByBytes buffer n = Ok pieces
          /\ mjoin pieces = buffer
          /\ length (Dag.shards d) = length pieces
          /\ Z.of_nat (length (Dag.shards d)) = (Z.of_nat (length buffer) + n - 1) / n
          /\ (buffer <> [] -> Dag.shards d <> [])
          /\ (forall i s, pieces !! i = Some s ->
                exists shard,
                  Dag.shards d !! i = Some shard
                  /\ Z.of_nat (length shard) = n
                  /\ take (length s) shard = s
                  /\ (Z.of_nat (length s) = n -> shard = s)))
  /\ (forall buffer size h rnd draws,
        Dag.fromBuffer buffer size h true rnd draws
        = Dag.fromBuffer buffer size h false rnd draws)
  /\ (forall s rnd draws,
        s <> [] -> Z.of_nat (length s) = n -> n <= kMaxLength ->
        Dag.pad (VNumber (num_of_Z n)) rnd s draws = Ok (s, draws))
  /\ (forall buffer h padLastSlice draws,
        1 <= n <= MAX_SAFE_INTEGER -> n <= kMaxLength ->
        is_Some (effective_hash h) ->
        exists d pieces,
          Dag.fromBuffer buffer (Some (VNumber (num_of_Z n))) h padLastSlice false draws
          = Ok (d, draws)
          /\ Split.splitByBytes buffer n = Ok pieces
          /\ Dag.shards d = zero_padded (Z.to_nat n) pieces).
Proof.
  split_and!.
  - intros buffer h padLastSlice rnd draws d draws' Hrun.
    destruct (fromBuffer_pads_the_pieces _ _ _ _ _ _ _ _ Hrun)
      as (Hn & pieces & Hsplit & Hjoin & Huni & Hcount & Hall & Hpre).
    split; [done|]. exists pieces.
    assert (Z.of_nat (length (Dag.shards d)) = (Z.of_nat (length buffer) + n - 1) / n)
      as Hceil.
    { rewrite Hcount, <- Hjoin, (uniform_pieces_count (Z.to_nat n)) by (done || lia).
      rewrite Nat2Z.inj_div, Nat2Z.inj_sub, Nat2Z.inj_add, Z2Nat.id by lia. done. }
    split_and!; [done..| |].
    + intros Hne Hnil. rewrite Hnil in Hcount. destruct pieces; [|done].
      by rewrite <- Hjoin in Hne.
    + intros i s Hs.
      destruct (Forall2_lookup_l _ _ _ _ _ Hpre Hs) as (shard & Hshard & Htake).
      pose proof (proj1 (Forall_lookup _ _) Hall i shard Hshard) as Hlen.
      exists shard. split_and!; [done..|].
      intros Hfull. etrans; [|exact Htake]. symmetry. apply take_ge.
      simpl in Hlen. lia.
  - done.
  - intros s rnd draws Hs Hlen Hfit.
    assert (Buffer_alloc (VNumber (num_of_Z n)) = Ok (replicate (length s) x00)) as Halloc.
    { rewrite Buffer_alloc_ok by lia. by rewrite <- Hlen, Nat2Z.id. }
    rewrite (pad_zero _ (length s)); [|done|done|lia|by right].
    by rewrite Nat.sub_diag, app_nil_r.
  - intros buffer h padLastSlice draws [Hlo Hhi] Hfit [H Hh].
    destruct (fromBuffer_zero_fill buffer (inject_Z n) h H padLastSlice draws)
      as (pieces & tree & Hsplit & _ & Hrun);
      [by apply (inject_Z_le 1 n)|by apply inject_Z_le..|done|].
    rewrite Qfloor_Z in Hsplit, Hrun.
    eexists _, pieces. split_and!; [exact Hrun|exact Hsplit|done].
Qed.

Lemma C4_witness :
  exists d,
    Dag.fromBuffer (rt := Sample.runtime Sample.zero_pool) [x01; x02; x03]
      (Some (VNumber (num_of_Z 2))) Tree.HashFalsy true false 0 = Ok (d, 0%nat)
    /\ Dag.shards d = [[x01; x02]; [x03; x00]]
    /\ Forall (fun s => Z.of_nat (length s) = 2) (Dag.shards d)
    /\ Z.of_nat (length (Dag.shards d)) = 2.
Proof.
  destruct (C4_every_shard_has_slice_size (rt := Sample.runtime Sample.zero_pool) 2)
    as (Hall & _ & _ & Hbuilt).
  destruct (Hbuilt [x01; x02; x03] Tree.HashFalsy true 0%nat)
    as (d & pieces & Hd & Hsplit & Hshards).
  - split; discriminate.
  - discriminate.
  - eexists; reflexivity.
  - injection Hsplit as <-.
    destruct (Hall _ _ _ _ _ _ _ Hd) as (Hlens & pieces & _ & _ & _ & Hceil & _).
    exists d. split_and!; [exact Hd|exact Hshards|exact Hlens|exact Hceil].
Defined.


(** X11.  Whatever the size, the hash and the flags, a DAG that
    [fromBuffer] returns gives the buffer back: the shards of [toArray], put
    together and cut at [sliceIndex], are the buffer, and [sliceIndex] is its
    length.  For a buffer that is not empty the size was a number, every
    shard has that many bytes (rounded down), and there are as many shards as
    the length divided by the size, rounded up; for the empty buffer there
    is no shard. *)
Theorem X11_fromBuffer_round_trip {rt : Runtime} (buffer : Buffer) (size : option jsval)
    (h : Tree.hasher_arg) (padLastSlice rnd : bool) (draws : nat) (d : Dag.DAG)
    (draws' : nat) :
  Dag.fromBuffer buffer size h padLastSlice rnd draws = Ok (d, draws') ->
  Dag.sliceIndex d = Z.of_nat (length buffer)
  /\ take (Z.to_nat (Dag.sliceIndex d)) (mjoin (Dag.toArray d)) = buffer
  /\ (buffer = [] -> Dag.toArray d = [])
  /\ (buffer <> [] ->
      exists x n, size = Some (VNumber x) /\ Math_floor x = Z.of_nat n /\ (1 <= n)%nat
        /\ Forall (fun s => length s = n) (Dag.toArray d)
        /\ length (Dag.toArray d) = ((length buffer + n - 1) / n)%nat).
Proof. apply fromBuffer_inv. Qed.

Lemma X11_witness :
  exists d,
    Dag.fromBuffer (rt := Sample.runtime Sample.zero_pool) [x01; x02; x03]
      (Some (VNumber (Fin 2))) Tree.HashFalsy false false 0 = Ok (d, 0%nat)
    /\ take (Z.to_nat (Dag.sliceIndex d)) (mjoin (Dag.toArray d)) = [x01; x02; x03].
Proof.
  destruct (fromBuffer_zero_fill (rt := Sample.runtime Sample.zero_pool)
              [x01; x02; x03] 2 Tree.HashFalsy Sha256.digest false 0)
    as (pieces & tree & _ & _ & Hrun); [discriminate..|reflexivity|].
  eexists. split; [exact Hrun|].
  exact (proj1 (proj2 (X11_fromBuffer_round_trip (rt := Sample.runtime Sample.zero_pool)
                         _ _ _ _ _ _ _ _ Hrun))).
Defined.

Section dag_facts.
Context {rt : Runtime}.

Lemma make_entries_lookup (H : Buffer -> Buffer) (shards_ : list Buffer) i s :
  shards_ !! i = Some s ->
  Dag.make_entries (H <$> shards_) shards_ !! i = Some (Some (H s), Some s).
Proof.
  intros Hs. unfold Dag.make_entries.
  pose proof (lookup_lt_Some _ _ _ Hs) as Hlt.
  rewrite list_lookup_fmap, lookup_seq_lt by done. cbn [fmap option_fmap option_map].
  rewrite Nat.add_0_l. by rewrite list_lookup_fmap, Hs.
Qed.

Lemma join_replicate_lookup (value : list byte) m i :
  (i < m * length value)%nat ->
  mjoin (replicate m value) !! i = value !! (i mod length value)%nat.
Proof.
  revert i. induction m as [|m IH]; intros i Hi; [simpl in Hi; lia|].
  change (mjoin (replicate (S m) value)) with (value ++ mjoin (replicate m value)).
  destruct (decide (i < length value)%nat) as [Hlt|Hge].
  - rewrite lookup_app_l by done. by rewrite Nat.mod_small.
  - rewrite lookup_app_r by lia. rewrite IH by (simpl in Hi; lia).
    f_equal.
    replace i with ((i - length value) + 1 * length value)%nat at 2 by lia.
    by rewrite Nat.Div0.mod_add.
Qed.

(** Byte [i] of a cyclic fill. *)
Lemma cyclic_lookup (value : list byte) n i :
  value <> [] -> (i < n)%nat -> cyclic value n !! i = value !! (i mod length value)%nat.
Proof.
  intros Hvalue Hi. unfold cyclic.
  etrans; [apply (lookup_take_lt (mjoin (replicate n value)) n i Hi)|].
  apply join_replicate_lookup.
  assert (1 <= length value)%nat by (destruct value; [done|simpl; lia]). nia.
Qed.

Lemma length_drawn_block draws : length (drawn_block draws) = Z.to_nat Dag.max.
Proof. unfold drawn_block. by rewrite length_fmap, length_seq. Qed.

Lemma drawn_block_lookup draws j :
  (j < Z.to_nat Dag.max)%nat -> drawn_block draws !! j = Some (entropy draws j).
Proof.
  intros Hj. unfold drawn_block.
  etrans; [apply (list_lookup_fmap (entropy draws))|].
  by rewrite lookup_seq_lt.
Qed.

Lemma Buffer_alloc_inv z buf :
  Buffer_alloc (VNumber (num_of_Z z)) = Ok buf -> 0 <= z <= kMaxLength.
Proof.
  unfold Buffer_alloc.
  destruct (num_le (num_of_Z 0) (num_of_Z z)) eqn:Hlo; [|done].
  destruct (num_le (num_of_Z z) (num_of_Z kMaxLength)) eqn:Hhi; [|done].
  apply num_le_of_Z in Hlo, Hhi. done.
Qed.

End dag_facts.

(** X12.  The constructor of the DAG, called directly.  A hasher that is
    neither absent nor callable makes it throw a type error, raised by the
    mapping of the shards before the tree is built.  Otherwise it returns a
    DAG that keeps the shards, whose leaves are the hashes of the shards in
    order, whose entries pair each leaf with its shard - one entry per
    shard, the second loop adding none - whose tree is the tree over the
    leaves, and whose [sliceIndex] is the one given (zero included), or else
    the sum of the lengths of the shards. *)
Theorem X12_dag_constructor {rt : Runtime} (shards_ : list Buffer) (opts : Dag.Options) :
  (Dag.opts_hashFunc opts = Tree.HashNotCallable ->
     exists msg, Dag.new shards_ opts = Throw (TypeError msg))
  /\ (forall H, effective_hash (Dag.opts_hashFunc opts) = Some H ->
        exists d,
          Dag.new shards_ opts = Ok d
          /\ Dag.toArray d = shards_
          /\ Dag.leaves d = H <$> shards_
          /\ length (Dag.entries d) = length shards_
          /\ (forall i s, shards_ !! i = Some s ->
                Dag.entries d !! i = Some (Some (H s), Some s))
          /\ Tree.new (Tree.LeavesArray (Dag.leaves d)) (Tree.HashFunction H)
             = Ok (Dag.merkle d)
          /\ Dag.sliceIndex d
             = default (Z.of_nat (sum_list (length <$> shards_))) (Dag.opts_sliceIndex opts)).
Proof.
  split.
  - intros Hh. unfold Dag.new. rewrite Hh. by eexists.
  - intros H Hh. destruct (new_dag shards_ opts H Hh) as (tree & Htree & Hnew).
    eexists. split; [exact Hnew|]. cbn [Dag.toArray Dag.shards Dag.leaves Dag.entries
                                          Dag.merkle Dag.sliceIndex].
    split_and!; [done|done| |by apply make_entries_lookup|done|by rewrite byteLength_sum].
    unfold Dag.make_entries. by rewrite length_fmap, length_seq.
Qed.

Lemma X12_witness :
  exists d,
    Dag.new (rt := Sample.runtime Sample.zero_pool) [[x01; x02]; [x03]]
      {| Dag.opts_sliceIndex := None; Dag.opts_hashFunc := Tree.HashFalsy |} = Ok d
    /\ Dag.sliceIndex d = 3
    /\ Dag.entries d = [(Some (Sha256.digest [x01; x02]), Some [x01; x02]);
                        (Some (Sha256.digest [x03]), Some [x03])].
Proof.
  destruct (X12_dag_constructor (rt := Sample.runtime Sample.zero_pool) [[x01; x02]; [x03]]
              {| Dag.opts_sliceIndex := None; Dag.opts_hashFunc := Tree.HashFalsy |})
    as [_ Hok].
  destruct (Hok Sha256.digest eq_refl) as (d & Hnew & _ & _ & Hlen & Hentries & _ & Hindex).
  exists d. split_and!; [exact Hnew|exact Hindex|].
  pose proof (Hentries 0%nat _ eq_refl) as H0.
  pose proof (Hentries 1%nat _ eq_refl) as H1.
  destruct (Dag.entries d) as [|e0 [|e1 [|e2 es]]]; try discriminate Hlen.
  injection H0 as ->. injection H1 as ->. reflexivity.
Defined.

(** X13.  [randomFill], when it returns, has [numBytes] bytes.  For no byte
    it draws nothing; otherwise it has drawn exactly once, a block of
    [max = 65536] bytes, and byte [i] of the result is byte [i mod max] of
    that block: beyond 65536 bytes the padding repeats itself. *)
Theorem X13_randomFill_repeats_one_block {rt : Runtime} (numBytes draws : nat)
    (buf : Buffer) (draws' : nat) :
  Dag.max <= kMaxLength ->
  Dag.randomFill numBytes draws = Ok (buf, draws') ->
  length buf = numBytes
  /\ (numBytes = 0%nat -> draws' = draws)
  /\ ((1 <= numBytes)%nat ->
      draws' = S draws
      /\ (forall i, (i < numBytes)%nat ->
            buf !! i = Some (entropy draws (i mod Z.to_nat Dag.max)))
      /\ (forall i, (i + Z.to_nat Dag.max < numBytes)%nat ->
            buf !! (i + Z.to_nat Dag.max)%nat = buf !! i)).
Proof.
  intros Hmax Hrun.
  assert (0 <= Z.of_nat numBytes <= kMaxLength) as Hfit.
  { revert Hrun. unfold Dag.randomFill.
    destruct (Buffer_alloc (VNumber (num_of_Z (Z.of_nat numBytes)))) as [b| |] eqn:Halloc;
      [|done..].
    intros _. by eapply Buffer_alloc_inv. }
  destruct numBytes as [|k].
  - revert Hrun. unfold Dag.randomFill. rewrite Buffer_alloc_ok by done.
    cbn [mbind result_bind].
    change (Dag.randomFill_loop 2 0 (replicate (Z.to_nat (Z.of_nat 0)) x00)
              (VNumber (num_of_Z 0)) draws)
      with (@Ok (Buffer * nat) ([], draws)).
    intros [= <- <-]. split_and!; [done|done|lia].
  - rewrite randomFill_outcome in Hrun by lia.
    destruct (js_lt _ _); [done|]. injection Hrun as <- <-.
    pose proof (max_pos) as Hpos.
    assert (forall i, (i < S k)%nat ->
              first_pass (S k) draws !! i = Some (entropy draws (i mod Z.to_nat Dag.max)))
      as Hbyte.
    { intros i Hi. unfold first_pass.
      rewrite cyclic_lookup by (apply drawn_block_not_nil || done).
      rewrite length_drawn_block. apply drawn_block_lookup.
      apply Nat.mod_upper_bound. lia. }
    split_and!; [apply length_first_pass|done|]. intros _.
    split_and!; [done|done|].
    intros i Hi. rewrite !Hbyte by lia. do 2 f_equal.
    replace (i + Z.to_nat Dag.max)%nat with (i + 1 * Z.to_nat Dag.max)%nat by lia.
    apply Nat.Div0.mod_add.
Qed.

Lemma X13_witness :
  Dag.randomFill (rt := Sample.runtime (fun _ _ => x41)) 3 0 = Ok ([x41; x41; x41], 1%nat)
  /\ (1 = S 0)%nat.
Proof.
  assert (Dag.randomFill (rt := Sample.runtime (fun _ _ => x41)) 3 0
          = Ok ([x41; x41; x41], 1%nat)) as Hrun by reflexivity.
  split; [exact Hrun|].
  destruct (X13_randomFill_repeats_one_block (rt := Sample.runtime (fun _ _ => x41))
              3 0 [x41; x41; x41] 1) as (_ & _ & Hone).
  - discriminate.
  - exact Hrun.
  - destruct Hone as [Hdraws _]; [repeat constructor|]. exact Hdraws.
Defined.

(** * The command *)

Section cli_facts.
Context {rt : Runtime}.

Lemma read_stdin_all (buffer : Buffer) (chunks : list Buffer) :
  Cli.read_stdin buffer chunks = Ok (buffer ++ mjoin chunks).
Proof.
  revert buffer. induction chunks as [|data chunks IH]; intros buffer.
  - by rewrite app_nil_r.
  - cbn [Cli.read_stdin Cli.on_data Buffer_concat mbind result_bind].
    rewrite IH, app_nil_r. change (mjoin (data :: chunks)) with (data ++ mjoin chunks).
    by rewrite <- app_assoc.
Qed.

Lemma fileIn_is_a_name argv2 :
  Dag.name_or_blob (Some (Cli.fileIn argv2)) = Cli.fileIn argv2.
Proof. by destruct argv2 as [[|c rest]|]. Qed.

Lemma main_reads_then_merks (parseInt : string -> number)
    (readFileSync : string -> result Buffer) argv2 argv3 stdin draws :
  Cli.main parseInt readFileSync argv2 argv3 stdin draws
  = buffer ← cli_input readFileSync (Cli.fileIn argv2) stdin;
    Cli.merkFile buffer (Cli.fileIn argv2) (Cli.sliceSize parseInt argv3) draws.
Proof.
  unfold Cli.main, cli_input. destruct (String.eqb (Cli.fileIn argv2) "-"); [|done].
  by rewrite read_stdin_all.
Qed.

Lemma merkFile_bad_size (buffer : Buffer) name x draws :
  x = NaN \/ x = PosInf \/ x = NegInf
  \/ (exists q, x = Fin q /\ ((q < 1)%Q \/ (inject_Z MAX_SAFE_INTEGER < q)%Q)) ->
  Cli.merkFile buffer name x draws = Throw (Error "Invalid number of bytes").
Proof.
  intros Hbad. unfold Cli.merkFile, Dag.fromBuffer. cbn [default from_option id].
  change {| Split.lines := None; Split.bytes := Some (VNumber x); Split.line_bytes := None |}
    with (size_options true (VNumber x)).
  unfold Split.splitSync. rewrite checkOptions_size.
  assert (Split.check_size (VNumber x) = Throw (Error "Invalid number of bytes")) as ->; [|done].
  destruct Hbad as [Hx|[Hx|[Hx|(q & -> & [Hq|Hq])]]].
  - apply check_size_not_finite. tauto.
  - apply check_size_not_finite. tauto.
  - apply check_size_not_finite. tauto.
  - by apply check_size_number_small.
  - by apply check_size_number_large.
Qed.

Lemma merkFile_empty name q draws :
  (1 <= q)%Q -> (q <= inject_Z MAX_SAFE_INTEGER)%Q -> (q <= inject_Z kMaxLength)%Q ->
  Cli.merkFile [] name (Fin q) draws
  = Throw (TypeError "Cannot read properties of undefined (reading 'toString')").
Proof.
  intros Hlo Hhi Hfit.
  destruct (fromBuffer_zero_fill [] q Tree.HashFalsy sha256 false draws)
    as (pieces & tree & Hsplit & Htree & Hrun); [done..|].
  rewrite splitByBytes_empty in Hsplit. injection Hsplit as <-.
  cbn [zero_padded fmap list_fmap] in Htree, Hrun.
  rewrite (new_empty sha256) in Htree by done. injection Htree as <-.
  unfold Cli.merkFile. rewrite Hrun. reflexivity.
Qed.

Lemma merkFile_prints (buffer : Buffer) name q draws :
  (1 <= q)%Q -> (q <= inject_Z MAX_SAFE_INTEGER)%Q -> (q <= inject_Z kMaxLength)%Q ->
  buffer <> [] ->
  exists shards_ root_,
    Cli.merkFile buffer name (Fin q) draws
    = Ok [JSON_stringify
            (Dag.metadata_object (Dag.name_or_blob (Some name)) (sha256 <$> shards_) root_
               (Z.of_nat (length buffer)));
          hex_array shards_]
    /\ Forall (fun s => Z.of_nat (length s) = Qfloor q) shards_
    /\ take (length buffer) (mjoin shards_) = buffer.
Proof.
  intros Hlo Hhi Hfit Hne.
  destruct (fromBuffer_zero_fill buffer q Tree.HashFalsy sha256 false draws)
    as (pieces & tree & Hsplit & Htree & Hrun); [done..|].
  pose proof (fromBuffer_inv _ _ _ _ _ _ _ _ Hrun) as (Hindex & Hround & _ & Hsome).
  destruct (Hsome Hne) as (x & n & [= <-] & Hfloor & Hn & Hall & _).
  cbn [Dag.toArray Dag.shards Dag.sliceIndex Math_floor] in *.
  rewrite Nat2Z.id in Hround.
  destruct (root_nonempty sha256 (sha256 <$> zero_padded (Z.to_nat (Qfloor q)) pieces)
              (Tree.HashFunction sha256)) as (t & r & Hnew & Hroot); [|done|].
  { intros Hnil. apply fmap_nil_inv in Hnil. rewrite Hnil in Hround.
    change (mjoin []) with (@nil byte) in Hround.
    destruct buffer; [done|]. by rewrite take_nil in Hround. }
  rewrite Htree in Hnew. injection Hnew as <-.
  exists (zero_padded (Z.to_nat (Qfloor q)) pieces), r. split_and!.
  - unfold Cli.merkFile. rewrite Hrun. cbn [mbind result_bind].
    unfold Dag.toMetadata. cbn [Dag.merkle Dag.leaves Dag.sliceIndex Dag.shards].
    rewrite Hroot. reflexivity.
  - eapply Forall_impl; [exact Hall|]. intros s Hs. simpl in Hs. lia.
  - done.
Qed.

End cli_facts.

(** X14.  What the command prints.  Without a third argument the slice
    size is [512].  The input is standard input, all chunks together, when
    the name is absent, empty or ["-"], and the file of that name otherwise.
    A size that [parseInt] reads as [NaN], or that is below [1] or above
    [2^53 - 1], ends the command with "Invalid number of bytes".  With a
    size from [1] to [2^53 - 1] that a buffer may have, an empty input ends
    it with a type error and nothing is printed; any other input prints two
    lines: the metadata, named after the file (or ["-"]), with the length of
    the input as [s], and the shards in hexadecimal, which have the slice
    size and, cut at [s], are the input. *)
Theorem X14_merk_command {rt : Runtime} (parseInt : string -> number)
    (readFileSync : string -> result Buffer) (argv2 argv3 : option string)
    (stdin : list Buffer) (draws : nat) :
  (argv3 = None -> Cli.sliceSize parseInt argv3 = num_of_Z 512)
  /\ (argv2 = None -> cli_input readFileSync (Cli.fileIn argv2) stdin = Ok (mjoin stdin))
  /\ (forall buffer,
        cli_input readFileSync (Cli.fileIn argv2) stdin = Ok buffer ->
        Cli.sliceSize parseInt argv3 = NaN
        \/ (exists q, Cli.sliceSize parseInt argv3 = Fin q
                      /\ ((q < 1)%Q \/ (inject_Z MAX_SAFE_INTEGER < q)%Q)) ->
        Cli.main parseInt readFileSync argv2 argv3 stdin draws
        = Throw (Error "Invalid number of bytes"))
  /\ (forall q,
        Cli.sliceSize parseInt argv3 = Fin q ->
        (1 <= q)%Q -> (q <= inject_Z MAX_SAFE_INTEGER)%Q -> (q <= inject_Z kMaxLength)%Q ->
        (cli_input readFileSync (Cli.fileIn argv2) stdin = Ok [] ->
         Cli.main parseInt readFileSync argv2 argv3 stdin draws
         = Throw (TypeError "Cannot read properties of undefined (reading 'toString')"))
        /\ (forall buffer,
              cli_input readFileSync (Cli.fileIn argv2) stdin = Ok buffer -> buffer <> [] ->
              exists shards_ root_,
                Cli.main parseInt readFileSync argv2 argv3 stdin draws
                = Ok [JSON_stringify
                        (Dag.metadata_object (Cli.fileIn argv2) (sha256 <$> shards_) root_
                           (Z.of_nat (length buffer)));
                      hex_array shards_]
                /\ Forall (fun s => Z.of_nat (length s) = Qfloor q) shards_
                /\ take (length buffer) (mjoin shards_) = buffer)).
Proof.
  split_and!.
  - by intros ->.
  - by intros ->.
  - intros buffer Hin Hbad. rewrite main_reads_then_merks, Hin. cbn [mbind result_bind].
    apply (merkFile_bad_size buffer (Cli.fileIn argv2) (Cli.sliceSize parseInt argv3) draws).
    destruct Hbad as [Hbad|Hbad]; [by left|by do 3 right].
  - intros q Hsize Hlo Hhi Hfit. split.
    + intros Hin. rewrite main_reads_then_merks, Hin, Hsize. cbn [mbind result_bind].
      by apply merkFile_empty.
    + intros buffer Hin Hne.
      destruct (merkFile_prints buffer (Cli.fileIn argv2) q draws Hlo Hhi Hfit Hne)
        as (shards_ & root_ & Hrun & Hall & Hround).
      exists shards_, root_. split_and!; [|done..].
      rewrite main_reads_then_merks, Hin, Hsize. cbn [mbind result_bind].
      by rewrite Hrun, fileIn_is_a_name.
Qed.

Lemma X14_witness :
  Cli.main (rt := Sample.runtime Sample.zero_pool) (fun _ => NaN) (fun _ => Ok [])
    None None [] 0
  = Throw (TypeError "Cannot read properties of undefined (reading 'toString')")
  /\ exists shards_ root_,
       Cli.main (rt := Sample.runtime Sample.zero_pool) (fun _ => NaN) (fun _ => Ok [])
         None None [[x01]; [x02]] 0
       = Ok [JSON_stringify
               (Dag.metadata_object "-" (Sha256.digest <$> shards_) root_ 2);
             hex_array shards_].
Proof.
  split.
  - destruct (X14_merk_command (rt := Sample.runtime Sample.zero_pool)
                (fun _ => NaN) (fun _ => Ok []) None None [] 0)
      as (_ & _ & _ & Hok).
    destruct (Hok (inject_Z 512) eq_refl) as [Hempty _]; [discriminate..|].
    apply Hempty. reflexivity.
  - destruct (X14_merk_command (rt := Sample.runtime Sample.zero_pool)
                (fun _ => NaN) (fun _ => Ok []) None None [[x01]; [x02]] 0)
      as (_ & _ & _ & Hok).
    destruct (Hok (inject_Z 512) eq_refl) as [_ Hprint]; [discriminate..|].
    destruct (Hprint [x01; x02] eq_refl) as (shards_ & root_ & Hrun & _); [discriminate|].
    exists shards_, root_. exact Hrun.
Defined.

(** * The names of the files *)

Section files_facts.
Context {rt : Runtime}.

Lemma getSuffixLength_loop_total b fuel size count :
  (2 <= b)%nat -> (size < fuel)%nat ->
  exists r, Files.getSuffixLength_loop fuel size b count = Ok r /\ (r <= count + size)%nat.
Proof.
  intros Hb. revert size count.
  induction fuel as [|fuel IH]; intros size count Hfuel; [lia|].
  cbn [Files.getSuffixLength_loop].
  destruct (Nat.eqb_spec (size / b) 0) as [Hzero|Hmore].
  - exists count. split; [done|lia].
  - assert (size / b + 1 <= size)%nat as Hless.
    { pose proof (Nat.Div0.mul_div_le size b). nia. }
    destruct (IH (size / b)%nat (S count)) as (r & Hrun & Hle); [lia|].
    exists r. split; [done|lia].
Qed.

(** Between [b^l] and [b^(l+1)] the loop counts [l]: one less than the
    digits that [b^l] itself has. *)
Lemma getSuffixLength_loop_log b l fuel size count :
  (2 <= b)%nat -> (b ^ l <= size < b ^ S l)%nat -> (l < fuel)%nat ->
  Files.getSuffixLength_loop fuel size b count = Ok (count + l)%nat.
Proof.
  intros Hb. revert fuel size count.
  induction l as [|l IH]; intros fuel size count Hsize Hfuel;
    (destruct fuel as [|fuel]; [lia|]); cbn [Files.getSuffixLength_loop].
  - rewrite Nat.pow_1_r in Hsize. rewrite Nat.div_small by lia.
    cbn [Nat.eqb]. by rewrite Nat.add_0_r.
  - rewrite !Nat.pow_succ_r' in Hsize.
    assert (b ^ l <= size / b)%nat as Hlo by (apply Nat.div_le_lower_bound; lia).
    assert (size / b < b ^ S l)%nat as Hhi.
    { apply Nat.Div0.div_lt_upper_bound. rewrite Nat.pow_succ_r'. lia. }
    assert (1 <= b ^ l)%nat by (pose proof (Nat.pow_nonzero b l); lia).
    destruct (Nat.eqb_spec (size / b) 0) as [Hzero|_]; [lia|].
    rewrite (IH fuel (size / b)%nat (S count)) by lia. f_equal. lia.
Qed.

Lemma getSuffixLength_log b l size :
  (2 <= b)%nat -> (b ^ l <= size < b ^ S l)%nat ->
  Files.getSuffixLength size b = Ok l.
Proof.
  intros Hb Hsize. unfold Files.getSuffixLength.
  rewrite (getSuffixLength_loop_log b l) by
    (try done; pose proof (Nat.pow_gt_lin_r b l ltac:(lia)); lia).
  done.
Qed.

Lemma suffix_loop_total fuel n suffix :
  (n <= fuel)%nat -> exists more, Files.suffix_loop fuel n suffix = Ok (suffix ++ more).
Proof.
  revert n suffix. induction fuel as [|fuel IH]; intros n suffix Hfuel.
  - assert (n = 0%nat) as -> by lia. exists []. by rewrite app_nil_r.
  - cbn [Files.suffix_loop].
    destruct (Nat.eqb_spec n 0) as [->|Hn]; [exists []; by rewrite app_nil_r|].
    change (String.length Files.alphabet) with 26%nat.
    destruct (IH (n / 26)%nat (suffix ++ [String.get (n mod 26) Files.alphabet]))
      as (more & ->).
    { pose proof (Nat.Div0.mul_div_le n 26). lia. }
    eexists. by rewrite <- app_assoc.
Qed.

(** The letters of [26^l], last digit first: [l] times [a], then [b]. *)
Lemma suffix_loop_power l fuel suffix :
  (l < fuel)%nat ->
  Files.suffix_loop fuel (26 ^ l) suffix
  = Ok (suffix ++ list.replicate l (Some "a"%char) ++ [Some "b"%char]).
Proof.
  revert fuel suffix. induction l as [|l IH]; intros fuel suffix Hfuel;
    (destruct fuel as [|fuel]; [lia|]).
  - destruct fuel; reflexivity.
  - cbn [Files.suffix_loop].
    assert (26 ^ S l <> 0)%nat as Hpos by (by apply Nat.pow_nonzero).
    destruct (Nat.eqb_spec (26 ^ S l) 0) as [Hzero|_]; [done|].
    change (String.length Files.alphabet) with 26%nat.
    rewrite Nat.pow_succ_r', (Nat.mul_comm 26), Nat.div_mul, Nat.Div0.mod_mul by done.
    rewrite IH by lia. change (String.get 0 Files.alphabet) with (Some "a"%char).
    by rewrite <- app_assoc.
Qed.

Lemma names_loop_total (name : nat -> result string) (indices : list nat) :
  (forall i, i ∈ indices -> exists s, name i = Ok s) ->
  exists names,
    Files.names_loop name indices = Ok names
    /\ length names = length indices
    /\ (forall k i, indices !! k = Some i ->
          exists s, name i = Ok s /\ names !! k = Some s).
Proof.
  induction indices as [|i indices IH]; intros Hall.
  - exists []. by split_and!.
  - destruct (Hall i) as (s & Hs); [by left|].
    destruct IH as (names & Hrun & Hlen & Hlook); [intros j Hj; apply Hall; by right|].
    exists (s :: names). cbn [Files.names_loop]. rewrite Hs. cbn [mbind result_bind].
    rewrite Hrun. cbn [mbind result_bind]. split_and!; [done|by simpl; rewrite Hlen|].
    intros [|k] j Hj; simplify_eq/=; [by exists s|by apply Hlook].
Qed.

Lemma alphabetic_name_total o padding l i :
  exists s, Files.alphabetic_name o padding l i = Ok s.
Proof.
  unfold Files.alphabetic_name.
  destruct (suffix_loop_total i i []) as (more & ->); [done|]. by eexists.
Qed.

Lemma slice_keeps_padding (padding : list ascii) :
  Files.String_slice (padding ++ []) (- Z.of_nat (length padding)) = padding.
Proof.
  unfold Files.String_slice, clamp_index. rewrite app_nil_r.
  destruct (Z.ltb_spec (- Z.of_nat (length padding)) 0) as [Hneg|Hzero].
  - by replace (Z.to_nat (Z.max (Z.of_nat (length padding) + - Z.of_nat (length padding)) 0))
      with 0%nat by lia.
  - by replace (Z.to_nat (Z.min (- Z.of_nat (length padding)) (Z.of_nat (length padding))))
      with 0%nat by lia.
Qed.

Lemma slice_drops_first_digit (padding digits : list ascii) (c : ascii) :
  padding <> [] -> length digits = length padding ->
  Files.String_slice (padding ++ c :: digits) (- Z.of_nat (length padding)) = digits.
Proof.
  intros Hne Hlen. unfold Files.String_slice, clamp_index.
  rewrite length_app. cbn [length]. rewrite Hlen.
  destruct (Z.ltb_spec (- Z.of_nat (length padding)) 0) as [Hneg|Hzero].
  - replace (Z.to_nat (Z.max (Z.of_nat (length padding + S (length padding))
                              + - Z.of_nat (length padding)) 0))
      with (length (padding ++ [c])) by (rewrite length_app; simpl; lia).
    replace (padding ++ c :: digits) with ((padding ++ [c]) ++ digits)
      by (by rewrite <- app_assoc).
    apply drop_app_length.
  - destruct padding; [done|simpl in Hzero; lia].
Qed.

Lemma join_chars_replicate l (c : ascii) :
  Files.join_chars (list.replicate l (Some c)) = list.replicate l c.
Proof.
  unfold Files.join_chars. induction l as [|l IH]; [done|].
  cbn [list.replicate omap list_omap id]. by rewrite IH.
Qed.

(** The names in letters, when the options have a usable suffix length. *)
Lemma createFilenames_letters (o : Files.options) (size needed : nat) (l : Z) :
  Files.opt_numeric_suffixes o = None ->
  Files.getSuffixLength size 26 = Ok needed ->
  match Files.opt_suffix_length o with
  | Some given => l = given /\ Z.of_nat needed <= given
  | None => l = Z.max (Z.of_nat needed) 2
  end ->
  0 <= l <= 2 ^ 32 - 1 ->
  exists names,
    Files.createFilenames size o = Ok names
    /\ length names = size
    /\ (forall i, (i < size)%nat ->
          exists s,
            Files.alphabetic_name o (list.replicate (Z.to_nat l) "a"%char) l i = Ok s
            /\ names !! i = Some s).
Proof.
  intros Hnum Hneeded Hl Hfit. unfold Files.createFilenames. rewrite Hnum.
  change (String.length Files.alphabet) with 26%nat. rewrite Hneeded.
  cbn [mbind result_bind].
  assert (match Files.opt_suffix_length o with
          | Some given =>
              if given <? Z.of_nat needed
              then Throw (Error "output file suffixes exhausted")
              else Ok given
          | None => Ok (Z.max (Z.of_nat needed) 2)
          end = Ok l) as ->.
  { destruct (Files.opt_suffix_length o) as [given|].
    - destruct Hl as [-> Hle]. destruct (Z.ltb_spec given (Z.of_nat needed)); [lia|done].
    - by rewrite Hl. }
  cbn [mbind result_bind]. unfold Files.replicate.
  destruct (Z.ltb_spec l 0); [lia|]. destruct (Z.ltb_spec (2 ^ 32 - 1) l); [lia|].
  cbn [orb mbind result_bind].
  destruct (names_loop_total
              (Files.alphabetic_name o (list.replicate (Z.to_nat l) "a"%char) l) (seq 0 size))
    as (names & Hrun & Hlen & Hlook).
  { intros i _. apply alphabetic_name_total. }
  exists names. split_and!; [done|by rewrite Hlen, length_seq|].
  intros i Hi. apply (Hlook i i). by rewrite lookup_seq_lt.
Qed.

End files_facts.

(** X15.  The names in letters run out one place too late.  When the
    number of pieces lies strictly between [26^l] and [26^(l+1)],
    [getSuffixLength] answers [l], although the index [26^l] takes [l + 1]
    letters.  A given suffix length below [l] is refused with "output file
    suffixes exhausted"; but with [l] itself - given when [l] is at least
    one, or chosen by default when [l] is at least two - the names are
    returned and the name of piece
    [26^l] is the name of piece [0], the prefix followed by [l] times the
    letter [a] and the additional suffix. *)
Theorem X15_file_names_collide {rt : Runtime} (o : Files.options) (size l : nat) :
  Files.opt_numeric_suffixes o = None -> (1 <= l)%nat ->
  (26 ^ l < size < 26 ^ S l)%nat -> Z.of_nat l <= 2 ^ 32 - 1 ->
  Files.getSuffixLength size 26 = Ok l
  /\ (forall given, Files.opt_suffix_length o = Some given -> given < Z.of_nat l ->
        Files.createFilenames size o = Throw (Error "output file suffixes exhausted"))
  /\ (Files.opt_suffix_length o = Some (Z.of_nat l)
      \/ (Files.opt_suffix_length o = None /\ (2 <= l)%nat) ->
      exists names,
        Files.createFilenames size o = Ok names
        /\ length names = size
        /\ names !! 0%nat = Some (Files.filename o (list.replicate l "a"%char))
        /\ names !! (26 ^ l)%nat = Some (Files.filename o (list.replicate l "a"%char))).
Proof.
  intros Hnum Hl Hsize Hfit.
  assert (Files.getSuffixLength size 26 = Ok l) as Hneeded
    by (apply getSuffixLength_log; lia).
  split_and!; [done| |].
  - intros given Hgiven Hlt. unfold Files.createFilenames. rewrite Hnum.
    change (String.length Files.alphabet) with 26%nat. rewrite Hneeded.
    cbn [mbind result_bind]. rewrite Hgiven.
    by destruct (Z.ltb_spec given (Z.of_nat l)); [|lia].
  - intros Hlength.
    destruct (createFilenames_letters o size l (Z.of_nat l) Hnum Hneeded)
      as (names & Hrun & Hlen & Hlook).
    { destruct Hlength as [->|[-> Hl2]]; [split; [done|lia]|lia]. }
    { lia. }
    exists names. split_and!; [done..| |].
    + destruct (Hlook 0%nat) as (s & Hs & ->); [lia|]. f_equal.
      unfold Files.alphabetic_name in Hs. cbn [Files.suffix_loop Nat.eqb] in Hs.
      cbn [mbind result_bind reverse rev_append Files.join_chars omap list_omap] in Hs.
      injection Hs as <-. rewrite Nat2Z.id.
      pose proof (slice_keeps_padding (list.replicate l "a"%char)) as Hslice.
      rewrite length_replicate in Hslice. by rewrite Hslice.
    + destruct (Hlook (26 ^ l)%nat) as (s & Hs & ->); [lia|]. f_equal.
      unfold Files.alphabetic_name in Hs.
      rewrite suffix_loop_power in Hs by (apply Nat.pow_gt_lin_r; lia).
      cbn [mbind result_bind app] in Hs. injection Hs as <-. rewrite Nat2Z.id.
      rewrite reverse_app, reverse_singleton, reverse_replicate.
      change (Files.join_chars ([Some "b"%char] ++ list.replicate l (Some "a"%char)))
        with ("b"%char :: Files.join_chars (list.replicate l (Some "a"%char))).
      rewrite join_chars_replicate.
      pose proof (slice_drops_first_digit (list.replicate l "a"%char)
                    (list.replicate l "a"%char) "b"%char) as Hslice.
      rewrite length_replicate in Hslice.
      specialize (Hslice ltac:(destruct l; [lia|done]) eq_refl).
      by rewrite Hslice.
Qed.

Lemma X15_witness :
  exists names,
    Files.createFilenames (rt := Sample.runtime Sample.zero_pool) 27
      {| Files.checked_modes := size_options true 1;
         Files.opt_prefix := Some "x"%string;
         Files.opt_suffix_length := Some 1;
         Files.opt_numeric_suffixes := None;
         Files.opt_additional_suffix := Some EmptyString |} = Ok names
    /\ names !! 0%nat = Some "xa"%string
    /\ names !! 26%nat = Some "xa"%string.
Proof.
  destruct (X15_file_names_collide (rt := Sample.runtime Sample.zero_pool)
              {| Files.checked_modes := size_options true 1;
                 Files.opt_prefix := Some "x"%string;
                 Files.opt_suffix_length := Some 1;
                 Files.opt_numeric_suffixes := None;
                 Files.opt_additional_suffix := Some EmptyString |} 27 1)
    as (_ & _ & Hnames).
  - reflexivity.
  - lia.
  - simpl. lia.
  - simpl. lia.
  - destruct Hnames as (names & Hrun & _ & H0 & H26); [by left|].
    exists names. split_and!; [exact Hrun|exact H0|exact H26].
Defined.

Section files_calls.
Context {rt : Runtime}.

(** Without a suffix length and a start number the names are always
    made. *)
Lemma createFilenames_default (o : Files.options) (size : nat) :
  Files.opt_numeric_suffixes o = None -> Files.opt_suffix_length o = None ->
  Z.of_nat size <= 2 ^ 32 - 1 ->
  exists names, Files.createFilenames size o = Ok names /\ length names = size.
Proof.
  intros Hnum Hlen Hsize.
  destruct (getSuffixLength_loop_total 26 (S size) size 0) as (needed & Hneeded & Hle);
    [lia..|].
  destruct (createFilenames_letters o size needed (Z.max (Z.of_nat needed) 2) Hnum Hneeded)
    as (names & Hrun & Hcount & _).
  - by rewrite Hlen.
  - lia.
  - by exists names.
Qed.

Lemma checkOptions_no_prefix (o : Files.raw_options) :
  Files.prefix o = None ->
  Files.checkOptions (Files.Object o)
  = m ← Split.checkOptions (Split.Object (Files.modes o));
    Ok {| Files.checked_modes := m; Files.opt_prefix := None;
          Files.opt_suffix_length := None; Files.opt_numeric_suffixes := None;
          Files.opt_additional_suffix := None |}.
Proof. intros Hprefix. unfold Files.checkOptions. by rewrite Hprefix. Qed.

Lemma checkOptions_prefix (o : Files.raw_options) p :
  Files.prefix o = Some p -> Files.suffix_length o = None ->
  Files.numeric_suffixes o = None ->
  Files.checkOptions (Files.Object o)
  = m ← Split.checkOptions (Split.Object (Files.modes o));
    Ok {| Files.checked_modes := m; Files.opt_prefix := Some (ToString p);
          Files.opt_suffix_length := None; Files.opt_numeric_suffixes := None;
          Files.opt_additional_suffix :=
            Some (match Files.additional_suffix o with
                  | Some a => ToString a
                  | None => EmptyString
                  end) |}.
Proof.
  intros Hprefix Hlen Hnum.
  unfold Files.checkOptions, Files.check_suffix_length, Files.check_numeric_suffixes.
  by rewrite Hprefix, Hlen, Hnum.
Qed.

End files_calls.

(** X16.  [split] never delivers the pieces.  Whatever the buffer and the
    options, it does not return a promise fulfilled with them.  Without a
    prefix it returns nothing ([undefined]) when the options are accepted
    and the buffer is split, and a promise rejected with the error of
    [checkOptions] otherwise.  With a prefix (and the default suffixes) the
    names are computed and then assigned to a constant: the promise is
    rejected with that type error. *)
Theorem X16_split_never_fulfils {rt : Runtime} (buffer : Buffer) (a : Files.options_arg) :
  (forall pieces, Files.split buffer a <> Ok (Some (Files.Resolved pieces)))
  /\ (forall o, a = Files.Object o -> Files.prefix o = None ->
        (forall pieces,
           Split.splitSync buffer (Split.Object (Files.modes o)) = Ok pieces ->
           Files.split buffer a = Ok None)
        /\ (forall e,
              Split.splitSync buffer (Split.Object (Files.modes o)) = Throw e ->
              Files.split buffer a = Ok (Some (Files.Rejected e))))
  /\ (forall o p pieces, a = Files.Object o ->
        Files.prefix o = Some p -> Files.suffix_length o = None ->
        Files.numeric_suffixes o = None ->
        Split.splitSync buffer (Split.Object (Files.modes o)) = Ok pieces ->
        Z.of_nat (length pieces) <= 2 ^ 32 - 1 ->
        Files.split buffer a
        = Ok (Some (Files.Rejected (TypeError "Assignment to constant variable.")))).
Proof.
  split_and!.
  - intros pieces. unfold Files.split.
    destruct (Files.checkOptions a) as [checked| |]; cbn [mbind result_bind]; [|done..].
    destruct (Split._split buffer (Files.checked_modes checked)) as [splitted| |];
      cbn [mbind result_bind]; [|done..].
    destruct (Split.isDefined (Files.opt_prefix checked)); [|done].
    by destruct (Files.createFilenames (length splitted) checked).
  - intros o -> Hprefix. unfold Files.split, Split.splitSync.
    rewrite checkOptions_no_prefix by done.
    destruct (Split.checkOptions (Split.Object (Files.modes o))) as [m| |];
      cbn [mbind result_bind Files.checked_modes];
      [|split; [done|by intros e' [= <-]]|by split; intros].
    split.
    + by intros pieces ->.
    + by intros e ->.
  - intros o p pieces -> Hprefix Hlen Hnum Hsplit Hsize.
    unfold Files.split. unfold Split.splitSync in Hsplit.
    rewrite (checkOptions_prefix o p) by done.
    destruct (Split.checkOptions (Split.Object (Files.modes o))) as [m| |];
      cbn [mbind result_bind Files.checked_modes] in *; [|done..].
    rewrite Hsplit. cbn [mbind result_bind Files.opt_prefix Split.isDefined].
    match goal with |- context [Files.createFilenames _ ?c] =>
      destruct (createFilenames_default c (length pieces)) as (names & -> & _)
    end; done.
Qed.

Lemma X16_witness :
  Files.split (rt := Sample.runtime Sample.zero_pool) [x01; x02; x03]
    (Files.Object {| Files.modes := size_options true (VNumber (num_of_Z 2));
                     Files.prefix := None; Files.suffix_length := None;
                     Files.numeric_suffixes := None; Files.additional_suffix := None |})
  = Ok None
  /\ Files.split (rt := Sample.runtime Sample.zero_pool) [x01; x02; x03]
       (Files.Object {| Files.modes := size_options true (VNumber (num_of_Z 2));
                        Files.prefix := Some (VString "x"); Files.suffix_length := None;
                        Files.numeric_suffixes := None; Files.additional_suffix := None |})
     = Ok (Some (Files.Rejected (TypeError "Assignment to constant variable."))).
Proof.
  split.
  - destruct (X16_split_never_fulfils (rt := Sample.runtime Sample.zero_pool) [x01; x02; x03]
                (Files.Object {| Files.modes := size_options true (VNumber (num_of_Z 2));
                                 Files.prefix := None; Files.suffix_length := None;
                                 Files.numeric_suffixes := None;
                                 Files.additional_suffix := None |}))
      as (_ & Hnone & _).
    destruct (Hnone _ eq_refl eq_refl) as [Hok _].
    apply (Hok [[x01; x02]; [x03]]). reflexivity.
  - destruct (X16_split_never_fulfils (rt := Sample.runtime Sample.zero_pool) [x01; x02; x03]
                (Files.Object {| Files.modes := size_options true (VNumber (num_of_Z 2));
                                 Files.prefix := Some (VString "x");
                                 Files.suffix_length := None;
                                 Files.numeric_suffixes := None;
                                 Files.additional_suffix := None |}))
      as (_ & _ & Hprefix).
    apply (Hprefix _ (VString "x") [[x01; x02]; [x03]] eq_refl); try reflexivity.
    discriminate.
Defined.

(** X17.  Without a prefix [splitSync] writes no file and returns what the
    splitting alone returns: the names, which it still computes, change
    nothing, and the keys [suffix_length], [numeric_suffixes] and
    [additional_suffix] are not even checked.  With a prefix (and the
    default suffixes) it returns the same pieces and writes each piece once,
    in order, under the names of [createFilenames]. *)
Theorem X17_splitSync_files {rt : Runtime} (buffer : Buffer) (o : Files.raw_options) :
  (Files.prefix o = None ->
     (forall pieces,
        Split.splitSync buffer (Split.Object (Files.modes o)) = Ok pieces ->
        Z.of_nat (length pieces) <= 2 ^ 32 - 1 ->
        Files.splitSync buffer (Files.Object o) = Ok (pieces, []))
     /\ (forall e,
           Split.splitSync buffer (Split.Object (Files.modes o)) = Throw e ->
           Files.splitSync buffer (Files.Object o) = Throw e))
  /\ (forall p pieces,
        Files.prefix o = Some p -> Files.suffix_length o = None ->
        Files.numeric_suffixes o = None ->
        Split.splitSync buffer (Split.Object (Files.modes o)) = Ok pieces ->
        Z.of_nat (length pieces) <= 2 ^ 32 - 1 ->
        exists checked names,
          Files.checkOptions (Files.Object o) = Ok checked
          /\ Files.createFilenames (length pieces) checked = Ok names
          /\ length names = length pieces
          /\ Files.splitSync buffer (Files.Object o) = Ok (pieces, zip names pieces)).
Proof.
  split.
  - intros Hprefix. unfold Files.splitSync, Split.splitSync.
    rewrite checkOptions_no_prefix by done.
    destruct (Split.checkOptions (Split.Object (Files.modes o))) as [m| |];
      cbn [mbind result_bind Files.checked_modes];
      [|split; [done|by intros e' [= <-]]|by split; intros].
    split.
    + intros pieces -> Hsize. cbn [mbind result_bind].
      match goal with |- context [Files.createFilenames _ ?c] =>
        destruct (createFilenames_default c (length pieces)) as (names & -> & _)
      end; done.
    + by intros e ->.
  - intros p pieces Hprefix Hlen Hnum Hsplit Hsize.
    unfold Files.splitSync. unfold Split.splitSync in Hsplit.
    rewrite (checkOptions_prefix o p) by done.
    destruct (Split.checkOptions (Split.Object (Files.modes o))) as [m| |];
      cbn [mbind result_bind Files.checked_modes] in *; [|done..].
    rewrite Hsplit. cbn [mbind result_bind].
    match goal with |- context [Files.createFilenames _ ?c] =>
      destruct (createFilenames_default c (length pieces)) as (names & Hnames & Hcount);
        [done..|exists c, names]
    end.
    rewrite Hnames. by split_and!.
Qed.

Lemma X17_witness :
  Files.splitSync (rt := Sample.runtime Sample.zero_pool) [x01; x02; x03]
    (Files.Object {| Files.modes := size_options true (VNumber (num_of_Z 2));
                     Files.prefix := None; Files.suffix_length := Some (VNumber NaN);
                     Files.numeric_suffixes := None; Files.additional_suffix := None |})
  = Ok ([[x01; x02]; [x03]], []).
Proof.
  destruct (X17_splitSync_files (rt := Sample.runtime Sample.zero_pool) [x01; x02; x03]
              {| Files.modes := size_options true (VNumber (num_of_Z 2));
                 Files.prefix := None; Files.suffix_length := Some (VNumber NaN);
                 Files.numeric_suffixes := None; Files.additional_suffix := None |})
    as [Hnone _].
  destruct (Hnone eq_refl) as [Hok _].
  apply Hok; [reflexivity|discriminate].
Defined.

(** * Random fill on full shards *)

Section full_shards.
Context {rt : Runtime}.

(** Uniform pieces of a buffer whose length is a multiple of the size are
    all full. *)
Lemma uniform_pieces_full n (pieces : list (list byte)) :
  (1 <= n)%nat -> uniform_pieces n pieces ->
  (length (mjoin pieces) mod n = 0)%nat ->
  Forall (fun s => s <> [] /\ length s = n) pieces.
Proof.
  intros Hn. induction pieces as [|s pieces IH]; intros Huni Hmod; [constructor|].
  pose proof (uniform_pieces_bounds n _ Hn Huni) as Hbounds.
  apply Forall_cons in Hbounds as [[Hne Hle] _].
  change (mjoin (s :: pieces)) with (s ++ mjoin pieces) in Hmod.
  rewrite length_app in Hmod.
  destruct pieces as [|p pieces].
  - change (mjoin []) with (@nil byte) in Hmod. simpl in Hmod.
    rewrite Nat.add_0_r in Hmod.
    constructor; [|constructor]. split; [done|].
    destruct (decide (length s = n)) as [|Hshort]; [done|].
    rewrite Nat.mod_small in Hmod by lia. by destruct s.
  - pose proof (uniform_pieces_head n s p pieces Huni) as Hfull.
    constructor; [done|]. apply IH; [by eapply uniform_pieces_tail|].
    rewrite Hfull in Hmod.
    replace (n + length (mjoin (p :: pieces)))%nat
      with (length (mjoin (p :: pieces)) + 1 * n)%nat in Hmod by lia.
    by rewrite Nat.Div0.mod_add in Hmod.
Qed.

(** Full pieces are their own shards, with or without random fill. *)
Lemma map_pad_full size n rnd pieces draws :
  Buffer_alloc size = Ok (replicate n x00) ->
  Forall (fun s => s <> [] /\ length s = n) pieces ->
  Dag.map_pad size rnd pieces draws = Ok (pieces, draws).
Proof.
  intros Halloc Hall. induction Hall as [|s pieces [Hs Hlen] _ IH]; [done|].
  cbn [Dag.map_pad]. rewrite (pad_zero size n); [|done|done|lia|by right].
  cbn [mbind result_bind]. rewrite IH. cbn [mbind result_bind].
  by rewrite Hlen, Nat.sub_diag, app_nil_r.
Qed.

End full_shards.

(** X18.  Random fill does nothing when the length of the buffer is a
    multiple of the slice size: no byte is drawn, the shards are the pieces
    of the buffer, and the DAG is the one built without random fill - the
    same tree, not a different one. *)
Theorem X18_random_fill_idle_on_full_shards {rt : Runtime} (buffer : Buffer) (n : Z)
    (h : Tree.hasher_arg) (padLastSlice : bool) (draws : nat) :
  1 <= n <= MAX_SAFE_INTEGER -> n <= kMaxLength ->
  Z.of_nat (length buffer) mod n = 0 ->
  is_Some (effective_hash h) ->
  exists d,
    Dag.fromBuffer buffer (Some (VNumber (num_of_Z n))) h padLastSlice true draws
    = Ok (d, draws)
    /\ Dag.fromBuffer buffer (Some (VNumber (num_of_Z n))) h padLastSlice false draws
       = Ok (d, draws)
    /\ mjoin (Dag.toArray d) = buffer
    /\ Forall (fun s => Z.of_nat (length s) = n) (Dag.toArray d).
Proof.
  intros [Hlo Hhi] Hfit Hmod [H Hh].
  destruct (splitByBytes_spec buffer n Hlo) as (pieces & Hsplit & Hjoin & Huni & _).
  assert (Forall (fun s => s <> [] /\ length s = Z.to_nat n) pieces) as Hfull.
  { apply uniform_pieces_full; [lia|done|]. rewrite Hjoin.
    apply Nat2Z.inj. rewrite Nat2Z.inj_mod, Z2Nat.id by lia. done. }
  assert (Buffer_alloc (VNumber (num_of_Z n)) = Ok (replicate (Z.to_nat n) x00)) as Halloc
    by (apply Buffer_alloc_ok; lia).
  destruct (new_dag pieces
              {| Dag.opts_sliceIndex := Some (Z.of_nat (length buffer));
                 Dag.opts_hashFunc := Tree.hasher_or h Tree.DEFAULT_HASH_FUNC |} H)
    as (tree & Htree & Hdag).
  { cbn [Dag.opts_hashFunc]. by rewrite (hasher_or_effective h H). }
  assert (forall rnd,
            Dag.fromBuffer buffer (Some (VNumber (num_of_Z n))) h padLastSlice rnd draws
            = Ok ({| Dag.shards := pieces;
                     Dag.leaves := H <$> pieces;
                     Dag.merkle := tree;
                     Dag.entries := Dag.make_entries (H <$> pieces) pieces;
                     Dag.sliceIndex := Z.of_nat (length buffer) |}, draws)) as Hrun.
  { intros rnd. unfold Dag.fromBuffer. cbn [from_option id].
    change {| Split.lines := None; Split.bytes := Some (VNumber (num_of_Z n));
              Split.line_bytes := None |}
      with (size_options true (VNumber (Fin (inject_Z n)))).
    rewrite splitSync_bytes_number; [|by apply (inject_Z_le 1 n)|by apply inject_Z_le].
    rewrite Qfloor_inject_Z, Hsplit. cbn [mbind result_bind].
    change (VNumber (Fin (inject_Z n))) with (VNumber (num_of_Z n)).
    rewrite (map_pad_full _ (Z.to_nat n)) by done.
    cbn [mbind result_bind]. rewrite Hdag. done. }
  eexists. split_and!; [apply Hrun|apply Hrun|done|].
  cbn [Dag.toArray Dag.shards]. eapply Forall_impl; [exact Hfull|].
  intros s [_ Hs]. lia.
Qed.

Lemma X18_witness :
  exists d,
    Dag.fromBuffer (rt := Sample.runtime Sample.digit_pool) [x01; x02; x03; x04]
      (Some (VNumber (num_of_Z 2))) Tree.HashFalsy false true 0 = Ok (d, 0%nat)
    /\ Dag.toArray d = [[x01; x02]; [x03; x04]].
Proof.
  destruct (X18_random_fill_idle_on_full_shards (rt := Sample.runtime Sample.digit_pool)
              [x01; x02; x03; x04] 2 Tree.HashFalsy false 0)
    as (d & Hrun & Hzero & _).
  - split; discriminate.
  - discriminate.
  - reflexivity.
  - eexists; reflexivity.
  - exists d. split; [exact Hrun|].
    assert (Dag.toArray <$> (fst <$> Dag.fromBuffer (rt := Sample.runtime Sample.digit_pool)
                                       [x01; x02; x03; x04] (Some (VNumber (num_of_Z 2)))
                                       Tree.HashFalsy false false 0)
            = Ok [[x01; x02]; [x03; x04]]) as Hshards by reflexivity.
    rewrite Hzero in Hshards. injection Hshards as Hshards. exact Hshards.
Defined.

(** * The shape of the names *)

Section name_shape.
Context {rt : Runtime}.

(** The last [l] characters of a string that has as many. *)
Lemma length_String_slice (s : list ascii) (l : Z) :
  1 <= l <= Z.of_nat (length s) ->
  Z.of_nat (length (Files.String_slice s (- l))) = l.
Proof.
  intros Hl. unfold Files.String_slice, clamp_index.
  destruct (Z.ltb_spec (- l) 0); [|lia]. rewrite length_drop. lia.
Qed.

Lemma replicate_inv l c padding :
  Files.replicate l c = Ok padding ->
  0 <= l <= 2 ^ 32 - 1 /\ padding = list.replicate (Z.to_nat l) c.
Proof.
  unfold Files.replicate.
  destruct (Z.ltb_spec l 0); [done|]. destruct (Z.ltb_spec (2 ^ 32 - 1) l); [done|].
  intros [= <-]. split; [lia|done].
Qed.

Lemma names_loop_inv (name : nat -> result string) indices names :
  Files.names_loop name indices = Ok names ->
  length names = length indices
  /\ (forall s, s ∈ names -> exists i, name i = Ok s).
Proof.
  revert names. induction indices as [|i indices IH]; intros names Hrun.
  - simplify_eq/=. split; [done|]. by intros s Hs%elem_of_nil.
  - cbn [Files.names_loop] in Hrun.
    destruct (name i) as [n| |] eqn:Hn; [|done..]. cbn [mbind result_bind] in Hrun.
    destruct (Files.names_loop name indices) as [others| |]; [|done..].
    simplify_eq/=. destruct (IH others eq_refl) as [Hlen Hall].
    split; [by rewrite Hlen|].
    intros s [->|Hs]%elem_of_cons; [by exists i|by apply Hall].
Qed.

Lemma names_shape_letters (o : Files.options) (l : Z) size names :
  1 <= l ->
  (padding ← Files.replicate l "a";
   Files.names_loop (Files.alphabetic_name o padding l) (seq 0 size)) = Ok names ->
  length names = size
  /\ (forall name, name ∈ names ->
        exists suffix, Z.of_nat (length suffix) = l /\ name = Files.filename o suffix).
Proof.
  intros Hl Hrun.
  destruct (Files.replicate l "a") as [padding| |] eqn:Hpad; [|done..].
  apply replicate_inv in Hpad as [Hfit ->]. cbn [mbind result_bind] in Hrun.
  apply names_loop_inv in Hrun as [Hlen Hall]. rewrite length_seq in Hlen.
  split; [done|]. intros name Hname. destruct (Hall name Hname) as (i & Hi).
  unfold Files.alphabetic_name in Hi.
  destruct (Files.suffix_loop i i []) as [suffix| |]; [|done..].
  cbn [mbind result_bind] in Hi. injection Hi as <-.
  eexists. split; [|done].
  apply length_String_slice. rewrite length_app, length_replicate. lia.
Qed.

Lemma names_shape_digits (o : Files.options) (l start : Z) size names :
  1 <= l ->
  (padding ← Files.replicate l "0";
   Ok ((fun i => Files.numeric_name o padding l start i) <$> seq 0 size)) = Ok names ->
  length names = size
  /\ (forall name, name ∈ names ->
        exists suffix, Z.of_nat (length suffix) = l /\ name = Files.filename o suffix).
Proof.
  intros Hl Hrun.
  destruct (Files.replicate l "0") as [padding| |] eqn:Hpad; [|done..].
  apply replicate_inv in Hpad as [Hfit ->]. cbn [mbind result_bind] in Hrun.
  injection Hrun as <-. split; [by rewrite length_fmap, length_seq|].
  intros name (i & -> & _)%list_elem_of_fmap.
  eexists. split; [|done].
  apply length_String_slice. rewrite length_app, length_replicate. lia.
Qed.

End name_shape.

(** X19.  The names that [createFilenames] returns, in letters or in
    digits, are as many as the pieces, and each is the prefix, exactly
    [suffix_length] characters, and the additional suffix - the given
    suffix length (at least one, as [checkOptions] leaves it), or a default
    of at least two.  The names are of one length whatever the number of
    pieces: an index that needs more characters loses its leading ones. *)
Theorem X19_names_have_one_length {rt : Runtime} (o : Files.options) (size : nat)
    (names : list string) :
  (forall given, Files.opt_suffix_length o = Some given -> 1 <= given) ->
  Files.createFilenames size o = Ok names ->
  length names = size
  /\ exists l,
       match Files.opt_suffix_length o with
       | Some given => l = given
       | None => 2 <= l
       end
       /\ (forall name, name ∈ names ->
             exists suffix,
               Z.of_nat (length suffix) = l /\ name = Files.filename o suffix).
Proof.
  intros Hgiven. unfold Files.createFilenames.
  destruct (Files.opt_numeric_suffixes o) as [start|].
  - destruct (negb _); [done|].
    destruct (Files.getSuffixLength size 10) as [needed| |]; [|done..].
    cbn [mbind result_bind].
    destruct (Files.opt_suffix_length o) as [given|].
    + destruct (given <? Z.of_nat needed); [done|]. cbn [mbind result_bind].
      intros Hrun. apply names_shape_digits in Hrun as [Hlen Hall]; [|by apply Hgiven].
      split; [done|]. by exists given.
    + cbn [mbind result_bind].
      intros Hrun. apply names_shape_digits in Hrun as [Hlen Hall]; [|lia].
      split; [done|]. exists (Z.max (Z.of_nat needed) 2). split; [lia|done].
  - destruct (Files.getSuffixLength size (String.length Files.alphabet)) as [needed| |];
      [|done..].
    cbn [mbind result_bind].
    destruct (Files.opt_suffix_length o) as [given|].
    + destruct (given <? Z.of_nat needed); [done|]. cbn [mbind result_bind].
      intros Hrun. apply names_shape_letters in Hrun as [Hlen Hall]; [|by apply Hgiven].
      split; [done|]. by exists given.
    + cbn [mbind result_bind].
      intros Hrun. apply names_shape_letters in Hrun as [Hlen Hall]; [|lia].
      split; [done|]. exists (Z.max (Z.of_nat needed) 2). split; [lia|done].
Qed.

Lemma X19_witness :
  Files.createFilenames (rt := Sample.runtime Sample.zero_pool) 3
    {| Files.checked_modes := size_options true 1;
       Files.opt_prefix := Some "x"%string;
       Files.opt_suffix_length := Some 1;
       Files.opt_numeric_suffixes := Some 9;
       Files.opt_additional_suffix := Some ".bin"%string |}
  = Ok ["x9.bin"; "x0.bin"; "x1.bin"]%string
  /\ length ["x9.bin"; "x0.bin"; "x1.bin"]%string = 3%nat.
Proof.
  assert (Files.createFilenames (rt := Sample.runtime Sample.zero_pool) 3
            {| Files.checked_modes := size_options true 1;
               Files.opt_prefix := Some "x"%string;
               Files.opt_suffix_length := Some 1;
               Files.opt_numeric_suffixes := Some 9;
               Files.opt_additional_suffix := Some ".bin"%string |}
          = Ok ["x9.bin"; "x0.bin"; "x1.bin"]%string) as Hrun by reflexivity.
  split; [exact Hrun|].
  refine (proj1 (X19_names_have_one_length (rt := Sample.runtime Sample.zero_pool)
                   _ 3 _ _ Hrun)).
  intros given [= <-]. lia.
Defined.

(** * What [checkOptions] returns *)

Section checked_facts.
Context {rt : Runtime}.

Lemma span_digits_all_digits (s digits rest : string) :
  Split.span_digits s = (digits, rest) -> Sample.all_digits digits = true.
Proof.
  revert digits rest. induction s as [|c s IH]; intros digits rest.
  - by intros [= <- <-].
  - cbn [Split.span_digits]. destruct (Split.is_digit c) eqn:Hc; [|by intros [= <- <-]].
    destruct (Split.span_digits s) as [d r]. intros [= <- <-].
    cbn [Sample.all_digits]. by rewrite Hc, (IH d r).
Qed.

(** A value that [isSafe] accepts and that is not below [lo], rounded
    down. *)
Lemma safe_floor_bounds (v : jsval) (lo : Z) :
  Split.isSafe v = true -> js_lt v (num_of_Z lo) = false ->
  lo <= Math_floor (ToNumber v) <= MAX_SAFE_INTEGER.
Proof.
  unfold Split.isSafe, js_lt. destruct (ToNumber v) as [| | |q]; try done.
  cbn [num_le num_lt num_of_Z Math_floor].
  rewrite andb_true_iff, negb_false_iff, !Qle_bool_iff. intros [_ Hhi] Hlo.
  split.
  - apply Qfloor_resp_le in Hlo. by rewrite Qfloor_Z in Hlo.
  - apply Qfloor_resp_le in Hhi. by rewrite Qfloor_Z in Hhi.
Qed.

Lemma check_size_bounds size n :
  Split.check_size size = Ok n -> 0 <= n <= MAX_SAFE_INTEGER.
Proof.
  unfold Split.check_size. destruct (isNaN size).
  - destruct (Split.exec_shorthand size) as [[digits unit]|] eqn:Hexec; [|done].
    unfold Split.shorthand_product.
    destruct (Split.unit_factor unit) as [u|] eqn:Hunit; [|done].
    destruct (Split.isSafe (VNumber (num_of_Z (Split.decimal_value digits * u)))) eqn:Hsafe;
      [|done].
    cbn [negb]. intros [= <-].
    rewrite Z.div_1_r.
    apply isSafe_of_Z in Hsafe. split; [|lia].
    apply unit_factor_Some in Hunit as [_ Hu].
    assert (0 <= Split.decimal_value digits); [|nia].
    apply decimal_value_nonneg.
    destruct size as [x|s]; [done|]. cbn [Split.exec_shorthand] in Hexec.
    unfold Split.shorthand in Hexec.
    destruct (Split.span_digits s) as [d r] eqn:Hspan.
    destruct d as [|c d]; [done|]. destruct (_ || _); [|done].
    injection Hexec as <- <-. by eapply span_digits_all_digits.
  - destruct (Split.isSafe size) eqn:Hsafe; [|done].
    destruct (js_lt size (num_of_Z 1)) eqn:Hlt; [done|].
    intros [= <-]. pose proof (safe_floor_bounds size 1 Hsafe Hlt). lia.
Qed.

Lemma check_lines_bounds (o : Split.raw_options) n :
  Split.check_lines o = Ok (Some n) -> 1 <= n <= MAX_SAFE_INTEGER.
Proof.
  unfold Split.check_lines. destruct (Split.lines o) as [l|]; [|done].
  destruct (isNaN l); [done|].
  destruct (Split.isSafe l) eqn:Hsafe; [|done].
  destruct (js_lt l (num_of_Z 1)) eqn:Hlt; [done|].
  intros [= <-]. by apply safe_floor_bounds.
Qed.

(** The ways of splitting that come out of the check. *)
Lemma checkOptions_modes (raw : Split.raw_options) (m : Split.options) :
  Split.checkOptions (Split.Object raw) = Ok m ->
  (forall n, Split.lines m = Some n -> 1 <= n <= MAX_SAFE_INTEGER)
  /\ (forall n, Split.bytes m = Some n \/ Split.line_bytes m = Some n ->
        0 <= n <= MAX_SAFE_INTEGER)
  /\ ((is_Some (Split.lines m) /\ Split.bytes m = None /\ Split.line_bytes m = None)
      \/ (Split.lines m = None /\ is_Some (Split.bytes m) /\ Split.line_bytes m = None)
      \/ (Split.lines m = None /\ Split.bytes m = None /\ is_Some (Split.line_bytes m))).
Proof.
  cbn [Split.checkOptions]. destruct raw as [[l|] [b|] [lb|]];
    cbn [Split.lines Split.bytes Split.line_bytes Split.isDefined andb orb negb]; try done.
  - destruct (Split.check_lines _) as [[n|]| |] eqn:Hlines; [| |done..];
      cbn [mbind result_bind]; intros [= <-]; cbn [Split.lines Split.bytes Split.line_bytes].
    + apply check_lines_bounds in Hlines.
      split_and!; [by intros ? [= <-]|by intros ? [|]|left; by split_and!].
    + by cbn in Hlines; destruct (_ || _).
  - cbn [Split.check_lines Split.lines mbind result_bind].
    destruct (Split.check_size b) as [n| |] eqn:Hsize; [|done..].
    cbn [mbind result_bind]. intros [= <-]. cbn [Split.lines Split.bytes Split.line_bytes].
    apply check_size_bounds in Hsize.
    split_and!; [done|by intros ? [[= <-]|]|right; left; by split_and!].
  - cbn [Split.check_lines Split.lines mbind result_bind].
    destruct (Split.check_size lb) as [n| |] eqn:Hsize; [|done..].
    cbn [mbind result_bind]. intros [= <-]. cbn [Split.lines Split.bytes Split.line_bytes].
    apply check_size_bounds in Hsize.
    split_and!; [done|by intros ? [|[= <-]]|right; right; by split_and!].
Qed.

End checked_facts.

(** X20.  The options that come out of [checkOptions].  Exactly one way of
    splitting is set.  A number of lines is an integer from [1] to
    [2^53 - 1]; a size in bytes is an integer from [0] - not [1]: the
    shorthand lets zero through - to [2^53 - 1].  When the prefix is absent
    none of the keys of the file names is set, whatever was given for them;
    when it is there the additional suffix is set, a suffix length is from
    [1] to [2^53 - 1] and a start number from [0] to [2^53 - 1]. *)
Theorem X20_checked_options {rt : Runtime} (a : Files.options_arg) (o : Files.options) :
  Files.checkOptions a = Ok o ->
  ((is_Some (Split.lines (Files.checked_modes o))
    /\ Split.bytes (Files.checked_modes o) = None
    /\ Split.line_bytes (Files.checked_modes o) = None)
   \/ (Split.lines (Files.checked_modes o) = None
       /\ is_Some (Split.bytes (Files.checked_modes o))
       /\ Split.line_bytes (Files.checked_modes o) = None)
   \/ (Split.lines (Files.checked_modes o) = None
       /\ Split.bytes (Files.checked_modes o) = None
       /\ is_Some (Split.line_bytes (Files.checked_modes o))))
  /\ (forall n, Split.lines (Files.checked_modes o) = Some n -> 1 <= n <= MAX_SAFE_INTEGER)
  /\ (forall n, Split.bytes (Files.checked_modes o) = Some n
                \/ Split.line_bytes (Files.checked_modes o) = Some n ->
        0 <= n <= MAX_SAFE_INTEGER)
  /\ (Files.opt_prefix o = None ->
      Files.opt_suffix_length o = None /\ Files.opt_numeric_suffixes o = None
      /\ Files.opt_additional_suffix o = None)
  /\ (is_Some (Files.opt_prefix o) -> is_Some (Files.opt_additional_suffix o))
  /\ (forall l, Files.opt_suffix_length o = Some l -> 1 <= l <= MAX_SAFE_INTEGER)
  /\ (forall s, Files.opt_numeric_suffixes o = Some s -> 0 <= s <= MAX_SAFE_INTEGER).
Proof.
  destruct a as [|raw]; [done|]. cbn [Files.checkOptions].
  destruct (Split.checkOptions (Split.Object (Files.modes raw))) as [m| |] eqn:Hmodes;
    [|done..].
  apply checkOptions_modes in Hmodes as (Hlines & Hsize & Hone).
  cbn [mbind result_bind].
  destruct (Files.prefix raw) as [p|].
  - unfold Files.check_suffix_length, Files.check_numeric_suffixes.
    assert (forall (v : option jsval) lo msg checked,
              match v with
              | Some v =>
                  if negb (Split.isSafe v) || js_lt v (num_of_Z lo)
                  then Throw (Error msg)
                  else Ok (Some (Math_floor (ToNumber v)))
              | None => Ok None
              end = Ok checked ->
              forall n, checked = Some n -> lo <= n <= MAX_SAFE_INTEGER) as Hkey.
    { intros [v|] lo msg checked; [|by intros [= <-]].
      destruct (Split.isSafe v) eqn:Hsafe; [|done].
      destruct (js_lt v (num_of_Z lo)) eqn:Hlt; [done|].
      intros [= <-] n [= <-]. by apply safe_floor_bounds. }
    destruct (match Files.suffix_length raw with Some _ => _ | None => _ end)
      as [checked_length| |] eqn:Hlength; [|done..].
    cbn [mbind result_bind].
    destruct (match Files.numeric_suffixes raw with Some _ => _ | None => _ end)
      as [checked_start| |] eqn:Hstart; [|done..].
    cbn [mbind result_bind]. intros [= <-].
    cbn [Files.checked_modes Files.opt_prefix Files.opt_suffix_length
           Files.opt_numeric_suffixes Files.opt_additional_suffix].
    split_and!; [done|done|done|done|by eexists| |].
    + intros l ->. by eapply (Hkey _ 1).
    + intros s ->. by eapply (Hkey _ 0).
  - intros [= <-].
    cbn [Files.checked_modes Files.opt_prefix Files.opt_suffix_length
           Files.opt_numeric_suffixes Files.opt_additional_suffix].
    split_and!; [done|done|done|done|by intros [? ?]|done|done].
Qed.

Lemma X20_witness :
  Files.checkOptions (rt := Sample.runtime Sample.zero_pool)
    (Files.Object {| Files.modes := size_options true (VString "0K");
                     Files.prefix := Some (VString "x");
                     Files.suffix_length := Some (VNumber (Fin (5 # 2)));
                     Files.numeric_suffixes := None;
                     Files.additional_suffix := None |})
  = Ok {| Files.checked_modes := size_options true 0;
          Files.opt_prefix := Some "x"%string;
          Files.opt_suffix_length := Some 2;
          Files.opt_numeric_suffixes := None;
          Files.opt_additional_suffix := Some EmptyString |}
  /\ 1 <= 2 <= MAX_SAFE_INTEGER.
Proof.
  assert (Files.checkOptions (rt := Sample.runtime Sample.zero_pool)
            (Files.Object {| Files.modes := size_options true (VString "0K");
                             Files.prefix := Some (VString "x");
                             Files.suffix_length := Some (VNumber (Fin (5 # 2)));
                             Files.numeric_suffixes := None;
                             Files.additional_suffix := None |})
          = Ok {| Files.checked_modes := size_options true 0;
                  Files.opt_prefix := Some "x"%string;
                  Files.opt_suffix_length := Some 2;
                  Files.opt_numeric_suffixes := None;
                  Files.opt_additional_suffix := Some EmptyString |}) as Hrun
    by reflexivity.
  split; [exact Hrun|].
  destruct (X20_checked_options (rt := Sample.runtime Sample.zero_pool) _ _ Hrun)
    as (_ & _ & _ & _ & _ & Hlength & _).
  apply Hlength. reflexivity.
Defined.
